(** * React outline: the symbol tree built by [parser.ts]

    A shallow embedding of [src/parser.ts]: the classification of the
    declarations of a parsed file (function, arrow and class components,
    hooks) and the projection of the markup a component renders into a
    depth-bounded tree of [DocumentSymbol]s.

    The syntax tree is the one Babel hands back; the traversal
    ([traverse], [path.skip], [path.stop], [path.get], [path.parentPath])
    is Babel's and is modelled in [Module Babel]; the editor's value
    classes ([Position], [Range], [DocumentSymbol]) are modelled in
    [Module VSCode]; [Module Parser] follows [parser.ts] function by
    function. *)

From Stdlib Require Import List String Ascii ZArith Bool Lia PeanoNat.
Import ListNotations.
Open Scope string_scope.
Open Scope list_scope.
Open Scope Z_scope.

(* Induction principles for the types nested in [list] and [option]. *)
Scheme All for list.
Scheme All for option.

(* ================================================================== *)
(** ** The syntax tree and its traversal *)
(* ================================================================== *)

Module Babel.

(** [node.loc]: 1-based lines, 0-based columns. *)
Record LinePos : Type := mkLinePos { line : Z; column : Z }.
Record SourceLocation : Type := mkLoc { loc_start : LinePos; loc_end : LinePos }.

(** The name of a markup element: [JSXIdentifier], [JSXMemberExpression]
    (whose [property] is always a [JSXIdentifier]) or [JSXNamespacedName]. *)
Inductive JSXName : Type :=
| JSXIdentifier (name : string)
| JSXMemberExpression (object : JSXName) (property : string)
| JSXNamespacedName (namespace : string) (name : string).

(** The operator of a [LogicalExpression]. *)
Inductive LogicalOperator : Type := OpAnd | OpOr | OpNullish.

(** The node kinds [parser.ts] looks at, each with the fields it reads,
    and [Other] for every remaining kind (its children in visiting order).
    The opening element of a [JSXElement] is inlined as [name] and
    [attributes]; type annotations are left out. *)
Inductive Node : Type :=
| File (loc : option SourceLocation) (program : Node)
| Program (loc : option SourceLocation) (body : list Node)
| Identifier (loc : option SourceLocation) (name : string)
| StringLiteral (loc : option SourceLocation) (value : string)
| MemberExpression (loc : option SourceLocation) (object property : Node)
| CallExpression (loc : option SourceLocation) (callee : Node) (arguments : list Node)
| LogicalExpression (loc : option SourceLocation) (operator : LogicalOperator)
    (left right : Node)
| ConditionalExpression (loc : option SourceLocation) (test consequent alternate : Node)
| ArrowFunctionExpression (loc : option SourceLocation) (params : list Node) (body : Node)
| FunctionExpression (loc : option SourceLocation) (id : option Node)
    (params : list Node) (body : Node)
| BlockStatement (loc : option SourceLocation) (body : list Node)
| ReturnStatement (loc : option SourceLocation) (argument : option Node)
| FunctionDeclaration (loc : option SourceLocation) (id : option Node)
    (params : list Node) (body : Node)
| VariableDeclaration (loc : option SourceLocation) (declarations : list Node)
| VariableDeclarator (loc : option SourceLocation) (id : Node) (init : option Node)
| ClassDeclaration (loc : option SourceLocation) (id : option Node)
    (superClass : option Node) (body : Node)
| ClassBody (loc : option SourceLocation) (body : list Node)
| ClassMethod (loc : option SourceLocation) (key : Node) (params : list Node) (body : Node)
| JSXElement (loc : option SourceLocation) (name : JSXName)
    (attributes : list Node) (children : list Node)
| JSXFragment (loc : option SourceLocation) (children : list Node)
| JSXText (loc : option SourceLocation) (value : string)
| JSXExpressionContainer (loc : option SourceLocation) (expression : Node)
| JSXEmptyExpression (loc : option SourceLocation)
| JSXSpreadChild (loc : option SourceLocation) (expression : Node)
| Other (loc : option SourceLocation) (type : string) (children : list Node).

(** [node.loc] *)
Definition loc (n : Node) : option SourceLocation :=
  match n with
  | File l _ | Program l _ | Identifier l _ | StringLiteral l _
  | MemberExpression l _ _ | CallExpression l _ _ | LogicalExpression l _ _ _
  | ConditionalExpression l _ _ _ | ArrowFunctionExpression l _ _
  | FunctionExpression l _ _ _ | BlockStatement l _ | ReturnStatement l _
  | FunctionDeclaration l _ _ _ | VariableDeclaration l _
  | VariableDeclarator l _ _ | ClassDeclaration l _ _ _ | ClassBody l _
  | ClassMethod l _ _ _ | JSXElement l _ _ _ | JSXFragment l _ | JSXText l _
  | JSXExpressionContainer l _ | JSXEmptyExpression l | JSXSpreadChild l _
  | Other l _ _ => l
  end.

Definition isJSXElement (n : Node) : bool :=
  match n with JSXElement _ _ _ _ => true | _ => false end.
Definition isJSXFragment (n : Node) : bool :=
  match n with JSXFragment _ _ => true | _ => false end.
Definition isArrowFunctionExpression (n : Node) : bool :=
  match n with ArrowFunctionExpression _ _ _ => true | _ => false end.
Definition isFunctionExpression (n : Node) : bool :=
  match n with FunctionExpression _ _ _ _ => true | _ => false end.

(** [a === b] on the nodes of one tree.  The model compares nodes
    structurally: it takes two nodes that agree in kind, location and
    content for one.  What a search finds is read only through its node,
    which is then the node looked for. *)
Fixpoint Node_eq_dec (a b : Node) {struct a} : {a = b} + {a <> b}.
Proof.
  assert (Hz : forall x y : Z, {x = y} + {x <> y}) by apply Z.eq_dec.
  assert (Hloc : forall x y : option SourceLocation, {x = y} + {x <> y})
    by (repeat decide equality).
  assert (Hname : forall x y : JSXName, {x = y} + {x <> y})
    by (repeat decide equality).
  assert (Hnodes : forall x y : list Node, {x = y} + {x <> y})
    by apply (list_eq_dec Node_eq_dec).
  assert (Hopt : forall x y : option Node, {x = y} + {x <> y})
    by (decide equality).
  decide equality; try apply string_dec.
  decide equality.
Defined.

Definition Node_eqb (a b : Node) : bool :=
  if Node_eq_dec a b then true else false.

(** *** Paths *)

(** The place of a child under its parent: the field, and the index
    inside the field when the field holds an array. *)
Definition Key : Type := (nat * nat)%type.

(** A [NodePath]: the node, where it hangs, and the path of its parent. *)
Inductive NodePath : Type :=
  mkNodePath { node : Node; key : Key; parentPath : option NodePath }.

(** The paths from a path up to the root, the path itself first. *)
Fixpoint keysToRoot (p : NodePath) : list Key :=
  key p :: match parentPath p with
           | Some q => keysToRoot q
           | None => []
           end.

Definition Key_eqb (a b : Key) : bool :=
  Nat.eqb (fst a) (fst b) && Nat.eqb (snd a) (snd b).

Fixpoint Keys_eqb (a b : list Key) : bool :=
  match a, b with
  | [], [] => true
  | x :: a', y :: b' => Key_eqb x y && Keys_eqb a' b'
  | _, _ => false
  end.

(** [p === q] on paths of one tree: the same place in the tree. *)
Definition NodePath_eqb (p q : NodePath) : bool :=
  Keys_eqb (keysToRoot p) (keysToRoot q).

(** The path of a tree's root. *)
Definition rootPath (n : Node) : NodePath := mkNodePath n (0%nat, 0%nat) None.

(** The paths below a path, as the traversal meets them: each child with
    the tree of paths below it. *)
Inductive PathTree : Type :=
  PT (path : NodePath) (below : list PathTree).

(** The paths of the nodes of an array field, [one] building the path of
    a child from its key. *)
Definition pathsOfList (one : Key -> Node -> PathTree) (field : nat)
  : nat -> list Node -> list PathTree :=
  fix go (i : nat) (cs : list Node) {struct cs} : list PathTree :=
    match cs with
    | [] => []
    | c :: rest => one (field, i) c :: go (S i) rest
    end.

(** The path of the node of an optional field. *)
Definition pathsOfOption (one : Key -> Node -> PathTree) (field : nat)
    (o : option Node) : list PathTree :=
  match o with
  | Some c => [one (field, 0%nat) c]
  | None => []
  end.

(** The children of [n] (hanging at [parent]) in visiting order, field by
    field in the order of the visitor keys. *)
Fixpoint childPaths (n : Node) (parent : NodePath) {struct n} : list PathTree :=
  let one := fun (k : Key) (c : Node) =>
    let p := mkNodePath c k (Some parent) in PT p (childPaths c p) in
  let opt := pathsOfOption one in
  let many := pathsOfList one in
  match n with
  | File _ program => [one (0, 0)%nat program]
  | Program _ body => many 0%nat 0%nat body
  | Identifier _ _ => []
  | StringLiteral _ _ => []
  | MemberExpression _ object property =>
      [one (0, 0)%nat object; one (1, 0)%nat property]
  | CallExpression _ callee arguments =>
      one (0, 0)%nat callee :: many 1%nat 0%nat arguments
  | LogicalExpression _ _ lhs rhs =>
      [one (0, 0)%nat lhs; one (1, 0)%nat rhs]
  | ConditionalExpression _ test consequent alternate =>
      [one (0, 0)%nat test; one (1, 0)%nat consequent; one (2, 0)%nat alternate]
  | ArrowFunctionExpression _ params body =>
      many 0%nat 0%nat params ++ [one (1, 0)%nat body]
  | FunctionExpression _ id params body =>
      opt 0%nat id ++ many 1%nat 0%nat params ++ [one (2, 0)%nat body]
  | BlockStatement _ body => many 0%nat 0%nat body
  | ReturnStatement _ argument => opt 0%nat argument
  | FunctionDeclaration _ id params body =>
      opt 0%nat id ++ many 1%nat 0%nat params ++ [one (2, 0)%nat body]
  | VariableDeclaration _ declarations => many 0%nat 0%nat declarations
  | VariableDeclarator _ id init => one (0, 0)%nat id :: opt 1%nat init
  | ClassDeclaration _ id superClass body =>
      opt 0%nat id ++ opt 1%nat superClass ++ [one (2, 0)%nat body]
  | ClassBody _ body => many 0%nat 0%nat body
  | ClassMethod _ key params body =>
      one (0, 0)%nat key :: many 1%nat 0%nat params ++ [one (2, 0)%nat body]
  | JSXElement _ _ attributes children =>
      many 0%nat 0%nat attributes ++ many 1%nat 0%nat children
  | JSXFragment _ children => many 0%nat 0%nat children
  | JSXText _ _ => []
  | JSXExpressionContainer _ expression => [one (0, 0)%nat expression]
  | JSXEmptyExpression _ => []
  | JSXSpreadChild _ expression => [one (0, 0)%nat expression]
  | Other _ _ children => many 0%nat 0%nat children
  end.

(** The path built for the child [c] at key [k] under [parent]. *)
Definition childPath (parent : NodePath) (k : Key) (c : Node) : PathTree :=
  let p := mkNodePath c k (Some parent) in PT p (childPaths c p).

(** A tree of paths is the one built for the node [c] under [parent]. *)
Definition pathTreeOf (parent : NodePath) (t : PathTree) (c : Node) : Prop :=
  exists k, t = childPath parent k c.

(** [path.get(field)] for a field holding one node, and for the [i]-th
    node of a field holding an array. *)
Definition getPath (parent : NodePath) (field : nat) (c : Node) : NodePath :=
  mkNodePath c (field, 0%nat) (Some parent).
Definition getPathAt (parent : NodePath) (field i : nat) (c : Node) : NodePath :=
  mkNodePath c (field, i) (Some parent).

(** *** [traverse]

    [path.traverse(visitor)] visits the paths below [path], parents before
    children and children in order, and never [path] itself.  The path it
    builds for a child has the path it came from as [parentPath], so a
    child of the path a traversal started at has that very path as its
    parent.  [path.skip()] keeps the traversal out of what is below the
    path; [path.stop()] ends the traversal. *)

(** What a visitor asked for on the path it was called with. *)
Inductive Control : Type :=
| Continue
| Skip    (* path.skip(): do not visit what is below this path *)
| Stop.   (* path.stop(): end the traversal *)

Section Traverse.
Context {S : Type}.
(** The visitor's [enter], on the state it captures. *)
Variable enter : NodePath -> S -> S * Control.

(** Visit a path and what is below it; the flag says the traversal was
    stopped. *)
Fixpoint visit (t : PathTree) (s : S) {struct t} : S * bool :=
  match t with
  | PT p below =>
      let (s1, c) := enter p s in
      match c with
      | Stop => (s1, true)
      | Skip => (s1, false)
      | Continue =>
          (fix visitMultiple (ts : list PathTree) (s : S) {struct ts} : S * bool :=
             match ts with
             | [] => (s, false)
             | t' :: rest =>
                 let (s2, stopped) := visit t' s in
                 if stopped then (s2, true) else visitMultiple rest s2
             end) below s1
      end
  end.

Fixpoint visitMultiple (ts : list PathTree) (s : S) {struct ts} : S * bool :=
  match ts with
  | [] => (s, false)
  | t' :: rest =>
      let (s2, stopped) := visit t' s in
      if stopped then (s2, true) else visitMultiple rest s2
  end.

(** [path.traverse(visitor)]: everything below [path], not [path]
    itself. *)
Definition traverse (path : NodePath) (s : S) : S :=
  fst (visitMultiple (childPaths (node path) path) s).
End Traverse.

(** *** What a traversal meets *)

(** A path and the paths below it, in visiting order. *)
Fixpoint flatten (t : PathTree) : list NodePath :=
  match t with
  | PT p below => p :: flat_map flatten below
  end.

(** The paths below [path], in visiting order. *)
Definition descendantPaths (path : NodePath) : list NodePath :=
  flat_map flatten (childPaths (node path) path).

(** The paths a traversal reaches when the visitor skips at the paths
    [skipsAt] holds of: nothing below such a path is visited. *)
Fixpoint reached (skipsAt : NodePath -> bool) (t : PathTree) : list NodePath :=
  match t with
  | PT p below =>
      p :: (if skipsAt p then [] else flat_map (reached skipsAt) below)
  end.

(** The children of a node, in visiting order. *)
Definition subnodes (n : Node) : list Node :=
  let opt := fun (o : option Node) =>
    match o with Some c => [c] | None => [] end in
  match n with
  | File _ program => [program]
  | Program _ body => body
  | Identifier _ _ => []
  | StringLiteral _ _ => []
  | MemberExpression _ object property => [object; property]
  | CallExpression _ callee arguments => callee :: arguments
  | LogicalExpression _ _ lhs rhs => [lhs; rhs]
  | ConditionalExpression _ test consequent alternate =>
      [test; consequent; alternate]
  | ArrowFunctionExpression _ params body => params ++ [body]
  | FunctionExpression _ id params body => opt id ++ params ++ [body]
  | BlockStatement _ body => body
  | ReturnStatement _ argument => opt argument
  | FunctionDeclaration _ id params body => opt id ++ params ++ [body]
  | VariableDeclaration _ declarations => declarations
  | VariableDeclarator _ id init => id :: opt init
  | ClassDeclaration _ id superClass body => opt id ++ opt superClass ++ [body]
  | ClassBody _ body => body
  | ClassMethod _ key params body => key :: params ++ [body]
  | JSXElement _ _ attributes children => attributes ++ children
  | JSXFragment _ children => children
  | JSXText _ _ => []
  | JSXExpressionContainer _ expression => [expression]
  | JSXEmptyExpression _ => []
  | JSXSpreadChild _ expression => [expression]
  | Other _ _ children => children
  end.

(** The nodes below a node, in visiting order. *)
Definition descendants (n : Node) : list Node :=
  map node (descendantPaths (rootPath n)).

(** *** [matchesPattern] and [isIdentifier] *)

(** The nodes [matchesPattern] collects from a member expression: the
    properties from the outside in, then the innermost object. *)
Fixpoint memberNodes (n : Node) : list Node :=
  match n with
  | MemberExpression _ object property => property :: memberNodes object
  | _ => [n]
  end.

(** The text a collected node stands for. *)
Definition patternValue (n : Node) : option string :=
  match n with
  | Identifier _ s => Some s
  | StringLiteral _ s => Some s
  | Other _ "ThisExpression" _ => Some "this"
  | _ => None
  end.

Fixpoint partsMatch (parts : list string) (nodes : list Node) : bool :=
  match parts, nodes with
  | [], _ => true
  | p :: ps, n :: ns =>
      match patternValue n with
      | Some v => String.eqb p v && partsMatch ps ns
      | None => false
      end
  | _ :: _, [] => false
  end.

(** [path.matchesPattern(pattern)], the pattern split at its dots; the
    path's node may be [null]. *)
Definition matchesPattern (member : option Node) (parts : list string) : bool :=
  match member with
  | Some (MemberExpression _ _ _ as m) =>
      let nodes := memberNodes m in
      if Nat.ltb (List.length nodes) (List.length parts) then false
      else if Nat.ltb (List.length parts) (List.length nodes) then false
      else partsMatch parts (rev nodes)
  | _ => false
  end.

(** [path.isIdentifier({ name })] *)
Definition isIdentifierNamed (n : option Node) (s : string) : bool :=
  match n with
  | Some (Identifier _ s') => String.eqb s' s
  | _ => false
  end.

End Babel.

(* ================================================================== *)
(** ** The editor's value classes *)
(* ================================================================== *)

Module VSCode.

Record Position : Type := mkPosition { posLine : Z; character : Z }.
Record Range : Type := mkRange { rangeStart : Position; rangeEnd : Position }.

(** The members of [vscode.SymbolKind] the parser uses. *)
Inductive SymbolKind : Type :=
| KindClass | KindFunction | KindNamespace | KindField.

Inductive DocumentSymbol : Type :=
  mkDocumentSymbol {
    name : string;
    detail : string;
    kind : SymbolKind;
    range : Range;
    selectionRange : Range;
    children : list DocumentSymbol
  }.

(** The [reactOutline] section of the workspace configuration; a key the
    user did not set is [None]. *)
Record WorkspaceConfiguration : Type :=
  mkConfig {
    maxJSXDepth : option Z;
    showFragments : option bool;
    showHooks : option bool
  }.

(** [config.get(key, defaultValue)] *)
Definition get {A : Type} (value : option A) (defaultValue : A) : A :=
  match value with
  | Some v => v
  | None => defaultValue
  end.

(** [document.positionAt(0)] *)
Definition positionAt0 : Position := mkPosition 0 0.

End VSCode.

(* ================================================================== *)
(** ** parser.ts *)
(* ================================================================== *)

(** The functions keep the names and the order of arguments they have in
    [parser.ts].  Two arguments are left out everywhere: [document], read
    only for [positionAt(0)], and [log], written to only when [parse] or a
    traversal throws.  The traversals of this module do not throw; the
    throw of the traversal of the whole file, on a program Babel takes to
    declare a name twice, is added in
    [Further.getSymbolsFromDocumentOrThrow]. *)

Module Parser.
Import Babel VSCode.

(** *** Names *)

(** [[A-Z]] *)
Definition isUpperAZ (c : ascii) : bool :=
  (Nat.leb 65 (nat_of_ascii c) && Nat.leb (nat_of_ascii c) 90)%bool.

(** [/^[A-Z]/.test(name)] *)
Definition startsUpper (s : string) : bool :=
  match s with
  | String c _ => isUpperAZ c
  | EmptyString => false
  end.

(** [/^use[A-Z]/.test(name)] *)
Definition startsUseUpper (s : string) : bool :=
  match s with
  | String "u" (String "s" (String "e" (String c _))) => isUpperAZ c
  | _ => false
  end.

(** [node.id.name], when [id] is there and is an identifier. *)
Definition idName (id : option Node) : option string :=
  match id with
  | Some (Identifier _ n) => Some n
  | _ => None
  end.

(** *** Ranges *)

(** [astRangeToVsCodeRange(loc, document)] *)
Definition astRangeToVsCodeRange (l : option SourceLocation) : Range :=
  match l with
  | None =>
      let first := positionAt0 in
      mkRange first first
  | Some l =>
      let start := mkPosition (line (loc_start l) - 1) (column (loc_start l)) in
      let end_ := mkPosition (line (loc_end l) - 1) (column (loc_end l)) in
      mkRange start end_
  end.

(** *** Tags *)

(** [getJSXChildren(node)] *)
Definition getJSXChildren (n : Node) : list Node :=
  match n with
  | JSXElement _ _ _ cs => cs
  | JSXFragment _ cs => cs
  | _ => []
  end.

(** The loop of [formatMemberExpression]: [parts], outermost name first. *)
Fixpoint memberParts (current : JSXName) (parts : list string) : list string :=
  match current with
  | JSXMemberExpression object property => memberParts object (property :: parts)
  | JSXIdentifier n => n :: parts
  | JSXNamespacedName _ _ => parts
  end.

(** [formatMemberExpression(expr)] *)
Definition formatMemberExpression (expr : JSXName) : string :=
  String.concat "." (memberParts expr []).

(** [getJSXTagName(node)] *)
Definition getJSXTagName (n : Node) : string :=
  match n with
  | JSXFragment _ _ => "<Fragment>"
  | JSXElement _ nm _ _ =>
      match nm with
      | JSXIdentifier s => s
      | JSXMemberExpression _ _ => formatMemberExpression nm
      | JSXNamespacedName ns s => (ns ++ ":" ++ s)%string
      end
  | _ => "Unknown"
  end.

(** [getJSXSymbolKind(tagName)] *)
Definition getJSXSymbolKind (tagName : string) : SymbolKind :=
  if String.eqb tagName "<Fragment>" then KindNamespace
  else if startsUpper tagName then KindClass
  else KindField.

(** *** Searching below a path *)

(** [findChildPath(parentPath, childNode)]: the first path below
    [parentPath] whose node is [childNode]. *)
Definition findChildPath (parentPath : NodePath) (childNode : Node) : option NodePath :=
  traverse
    (fun path (found : option NodePath) =>
       if Node_eqb (node path) childNode then (Some path, Stop)
       else (found, Continue))
    parentPath None.

(** [findExpressionPath(parentPath, exprNode)] *)
Definition findExpressionPath (parentPath : NodePath) (exprNode : Node)
  : option NodePath :=
  findChildPath parentPath exprNode.

(** *** The markup tree

    The four functions below push onto [parentSymbol.children]; the model
    returns what they push, in order.  They read the path they are given
    only through its node and as the place to search from, and the path
    [findChildPath] returns has the child as its node: the model passes
    nodes, and searches from the node. *)

Definition isMarkup (n : Node) : bool := (isJSXElement n || isJSXFragment n)%bool.

Fixpoint addJSXSymbol (jsxPath : Node) (currentDepth maxDepth : Z)
    (showFragments : bool) {struct jsxPath} : list DocumentSymbol :=
  if currentDepth >=? maxDepth then []
  else
    let tagName := getJSXTagName jsxPath in
    let range := astRangeToVsCodeRange (loc jsxPath) in
    [mkDocumentSymbol tagName EmptyString (getJSXSymbolKind tagName) range range
       (match jsxPath with
        | JSXElement _ _ _ children | JSXFragment _ children =>
            flat_map
              (fun child =>
                 match child with
                 | JSXElement _ _ _ _ =>
                     match findChildPath (rootPath jsxPath) child with
                     | Some _ =>
                         addJSXSymbol child (currentDepth + 1) maxDepth showFragments
                     | None => []
                     end
                 | JSXFragment _ _ =>
                     match findChildPath (rootPath jsxPath) child with
                     | Some _ =>
                         if negb showFragments
                         then processFragmentChildren child (currentDepth + 1)
                                maxDepth showFragments
                         else addJSXSymbol child (currentDepth + 1) maxDepth
                                showFragments
                     | None => []
                     end
                 | JSXExpressionContainer _ _ =>
                     processJSXExpression child (currentDepth + 1) maxDepth
                       showFragments jsxPath
                 | _ => []
                 end)
              children
        | _ => []
        end)]

with processFragmentChildren (fragmentPath : Node) (currentDepth maxDepth : Z)
    (showFragments : bool) {struct fragmentPath} : list DocumentSymbol :=
  match fragmentPath with
  | JSXElement _ _ _ children | JSXFragment _ children =>
      flat_map
        (fun child =>
           match child with
           | JSXElement _ _ _ _ =>
               match findChildPath (rootPath fragmentPath) child with
               | Some _ => addJSXSymbol child currentDepth maxDepth showFragments
               | None => []
               end
           | JSXFragment _ _ =>
               match findChildPath (rootPath fragmentPath) child with
               | Some _ =>
                   processFragmentChildren child currentDepth maxDepth showFragments
               | None => []
               end
           | JSXExpressionContainer _ _ =>
               processJSXExpression child currentDepth maxDepth showFragments
                 fragmentPath
           | _ => []
           end)
        children
  | _ => []
  end

with processJSXExpression (expression : Node) (currentDepth maxDepth : Z)
    (showFragments : bool) (parentPath : Node) {struct expression}
    : list DocumentSymbol :=
  if currentDepth >=? maxDepth then []
  else
    match expression with
    | JSXExpressionContainer _ expr =>
        match expr with
        | JSXEmptyExpression _ => []
        | LogicalExpression _ _ _ rhs =>
            if isMarkup rhs then
              match findExpressionPath (rootPath parentPath) rhs with
              | Some _ => addJSXSymbol rhs currentDepth maxDepth showFragments
              | None => []
              end
            else []
        | ConditionalExpression _ _ consequent alternate =>
            (if isMarkup consequent then
               match findExpressionPath (rootPath parentPath) consequent with
               | Some _ => addJSXSymbol consequent currentDepth maxDepth showFragments
               | None => []
               end
             else [])
            ++
            (if isMarkup alternate then
               match findExpressionPath (rootPath parentPath) alternate with
               | Some _ => addJSXSymbol alternate currentDepth maxDepth showFragments
               | None => []
               end
             else [])
        | CallExpression _ _ _ =>
            traverseCallExpressionForJSX expr currentDepth maxDepth showFragments
              parentPath
        | _ => []
        end
    | _ => []
    end

with traverseCallExpressionForJSX (callExpr : Node) (currentDepth maxDepth : Z)
    (showFragments : bool) (parentPath : Node) {struct callExpr}
    : list DocumentSymbol :=
  match callExpr with
  | CallExpression _ _ arguments =>
      flat_map
        (fun arg =>
           match arg with
           | ArrowFunctionExpression _ _ body | FunctionExpression _ _ _ body =>
               match body with
               | JSXElement _ _ _ _ | JSXFragment _ _ =>
                   match findExpressionPath (rootPath parentPath) body with
                   | Some _ => addJSXSymbol body currentDepth maxDepth showFragments
                   | None => []
                   end
               | BlockStatement _ statements =>
                   flat_map
                     (fun statement =>
                        match statement with
                        | ReturnStatement _ (Some argument) =>
                            if isMarkup argument then
                              match findExpressionPath (rootPath parentPath) argument with
                              | Some _ =>
                                  addJSXSymbol argument currentDepth maxDepth
                                    showFragments
                              | None => []
                              end
                            else []
                        | _ => []
                        end)
                     statements
               | _ => []
               end
           | _ => []
           end)
        arguments
  | _ => []
  end.

(** *** Classification *)

(** [hasJSXReturn(functionPath)] *)
Definition hasJSXReturn (functionPath : NodePath) : bool :=
  traverse
    (fun path (hasJSX : bool) =>
       match node path with
       | JSXElement _ _ _ _ => (true, Continue)
       | JSXFragment _ _ => (true, Continue)
       | _ => (hasJSX, Continue)
       end)
    functionPath false.

(** [isFunctionComponent(path)] *)
Definition isFunctionComponent (path : NodePath) : bool :=
  match node path with
  | FunctionDeclaration _ id _ _ =>
      match idName id with
      | Some n => startsUpper n && hasJSXReturn path
      | None => false
      end
  | _ => false
  end.

(** [isClassComponent(path)] *)
Definition isClassComponent (path : NodePath) : bool :=
  match node path with
  | ClassDeclaration _ id superClass _ =>
      match idName id with
      | Some n =>
          if negb (startsUpper n) then false
          else
            matchesPattern superClass ["React"; "Component"]
            || matchesPattern superClass ["React"; "PureComponent"]
            || isIdentifierNamed superClass "Component"
            || isIdentifierNamed superClass "PureComponent"
      | None => false
      end
  | _ => false
  end.

(** [isCustomHook(path)] *)
Definition isCustomHook (path : NodePath) : bool :=
  match node path with
  | FunctionDeclaration _ id _ _ =>
      match idName id with
      | Some n => startsUseUpper n
      | None => false
      end
  | _ => false
  end.

(** [getComponentName(path)] *)
Definition getComponentName (path : NodePath) : string :=
  match node path with
  | FunctionDeclaration _ id _ _ | ClassDeclaration _ id _ _ =>
      match idName id with
      | Some n => if String.eqb n EmptyString then "Anonymous" else n
      | None => "Anonymous"
      end
  | VariableDeclarator _ (Identifier _ n) _ => n
  | _ => "Unknown"
  end.

(** *** The body to scan *)

(** The loop of [getFunctionBody] over the members of a class body. *)
Fixpoint findRender (classBody : NodePath) (i : nat) (methods : list Node)
  : option NodePath :=
  match methods with
  | [] => None
  | m :: rest =>
      match m with
      | ClassMethod _ (Identifier _ name) _ body =>
          if String.eqb name "render"
          then Some (getPath (getPathAt classBody 0 i m) 2 body)
          else findRender classBody (S i) rest
      | _ => findRender classBody (S i) rest
      end
  end.

(** [getFunctionBody(componentPath)] *)
Definition getFunctionBody (componentPath : NodePath) : option NodePath :=
  match node componentPath with
  | FunctionDeclaration _ _ _ body => Some (getPath componentPath 2 body)
  | ClassDeclaration _ _ _ body =>
      let classBody := getPath componentPath 2 body in
      match body with
      | ClassBody _ methods => findRender classBody 0 methods
      | _ => None
      end
  | VariableDeclarator _ _ (Some init) =>
      let initPath := getPath componentPath 1 init in
      match init with
      | ArrowFunctionExpression _ _ body => Some (getPath initPath 1 body)
      | FunctionExpression _ _ _ body => Some (getPath initPath 2 body)
      | _ => None
      end
  | _ => None
  end.

(** The loop of [isTopLevelJSX], from [current] upwards. *)
Fixpoint isTopLevelJSX_from (current bodyPath : NodePath) {struct current} : bool :=
  if NodePath_eqb current bodyPath then true
  else if isJSXElement (node current) || isJSXFragment (node current) then false
  else
    match parentPath current with
    | Some up => isTopLevelJSX_from up bodyPath
    | None => true
    end.

(** [isTopLevelJSX(jsxPath, bodyPath)] *)
Definition isTopLevelJSX (jsxPath bodyPath : NodePath) : bool :=
  match parentPath jsxPath with
  | Some current => isTopLevelJSX_from current bodyPath
  | None => true
  end.

(** [processedPaths.has(jsxPath)] *)
Definition has (processedPaths : list NodePath) (jsxPath : NodePath) : bool :=
  existsb (NodePath_eqb jsxPath) processedPaths.

(** [buildJSXTree(componentPath, parentSymbol, document, config, maxDepth,
    log)]: what it pushes onto [parentSymbol.children].  The state of the
    traversal is [processedPaths] and what was pushed so far. *)
Definition buildJSXTree (componentPath : NodePath) (config : WorkspaceConfiguration)
    (maxDepth : Z) : list DocumentSymbol :=
  match getFunctionBody componentPath with
  | None => []
  | Some bodyPath =>
      let showFragments := get (showFragments config) true in
      snd
        (traverse
           (fun jsxPath (st : list NodePath * list DocumentSymbol) =>
              let (processedPaths, pushed) := st in
              match node jsxPath with
              | JSXElement _ _ _ _ =>
                  if negb (has processedPaths jsxPath) && isTopLevelJSX jsxPath bodyPath
                  then
                    ((jsxPath :: processedPaths,
                      pushed ++ addJSXSymbol (node jsxPath) 0 maxDepth showFragments),
                     Continue)
                  else (st, Continue)
              | JSXFragment _ _ =>
                  if negb (has processedPaths jsxPath) && isTopLevelJSX jsxPath bodyPath
                  then
                    ((jsxPath :: processedPaths,
                      pushed ++
                      (if showFragments
                       then addJSXSymbol (node jsxPath) 0 maxDepth showFragments
                       else processFragmentChildren (node jsxPath) 0 maxDepth
                              showFragments)),
                     Continue)
                  else (st, Continue)
              | _ => (st, Continue)
              end)
           bodyPath ([], []))
  end.

(** *** Symbols *)

Inductive ComponentType : Type := TypeFunction | TypeArrow | TypeClass.

(** [createComponentSymbol(path, document, type, config, log)] *)
Definition createComponentSymbol (path : NodePath) (type : ComponentType)
    (config : WorkspaceConfiguration) : DocumentSymbol :=
  let name := getComponentName path in
  let range := astRangeToVsCodeRange (loc (node path)) in
  let kind := match type with TypeClass => KindClass | _ => KindFunction end in
  let detail :=
    match type with TypeClass => "Class Component" | _ => "Function Component" end in
  let maxDepth := get (maxJSXDepth config) 2 in
  mkDocumentSymbol name detail kind range range (buildJSXTree path config maxDepth).

(** [createHookSymbol(path, document, log)] *)
Definition createHookSymbol (path : NodePath) : DocumentSymbol :=
  let name := getComponentName path in
  let range := astRangeToVsCodeRange (loc (node path)) in
  mkDocumentSymbol name "Hook" KindFunction range range [].

(** The visitor of [getSymbolsFromDocument]; the state is [symbols]. *)
Definition visitor (config : WorkspaceConfiguration) (path : NodePath)
    (symbols : list DocumentSymbol) : list DocumentSymbol * Control :=
  match node path with
  | FunctionDeclaration _ _ _ _ =>
      if isFunctionComponent path then
        (symbols ++ [createComponentSymbol path TypeFunction config], Skip)
      else if isCustomHook path then
        (if get (showHooks config) true
         then symbols ++ [createHookSymbol path]
         else symbols,
         Skip)
      else (symbols, Continue)
  | VariableDeclarator _ (Identifier _ name) (Some init) =>
      if negb (isArrowFunctionExpression init) && negb (isFunctionExpression init)
      then (symbols, Continue)
      else if startsUpper name && hasJSXReturn (getPath path 1 init) then
        (symbols ++ [createComponentSymbol path TypeArrow config], Skip)
      else if startsUseUpper name then
        (if get (showHooks config) true
         then symbols ++ [createHookSymbol path]
         else symbols,
         Skip)
      else (symbols, Continue)
  | ClassDeclaration _ _ _ _ =>
      if isClassComponent path then
        (symbols ++ [createComponentSymbol path TypeClass config], Skip)
      else (symbols, Continue)
  | _ => (symbols, Continue)
  end.

(** [getSymbolsFromDocument(document, log)]: [parsed] is what [parse]
    made of the document's text, [None] when it threw. *)
Definition getSymbolsFromDocument (parsed : option Node)
    (config : WorkspaceConfiguration) : list DocumentSymbol :=
  match parsed with
  | None => []
  | Some ast => traverse (visitor config) (rootPath ast) []
  end.

(** *** The loops of the markup tree, one step at a time

    The bodies of the [for] loops of [addJSXSymbol],
    [processFragmentChildren] and [traverseCallExpressionForJSX], and the
    test-and-recurse on a markup operand, as functions of the node the
    step is for. *)

(** [if (x is markup) { p = findExpressionPath(parentPath, x); if (p)
    addJSXSymbol(p, ...) }] *)
Definition addIfMarkup (x : Node) (currentDepth maxDepth : Z)
    (showFragments : bool) (parentPath : Node) : list DocumentSymbol :=
  if isMarkup x then
    match findExpressionPath (rootPath parentPath) x with
    | Some _ => addJSXSymbol x currentDepth maxDepth showFragments
    | None => []
    end
  else [].

(** One child of the node [addJSXSymbol] is at, [currentDepth] being the
    depth of that node. *)
Definition addJSXSymbol_child (jsxPath : Node) (currentDepth maxDepth : Z)
    (showFragments : bool) (child : Node) : list DocumentSymbol :=
  match child with
  | JSXElement _ _ _ _ =>
      match findChildPath (rootPath jsxPath) child with
      | Some _ => addJSXSymbol child (currentDepth + 1) maxDepth showFragments
      | None => []
      end
  | JSXFragment _ _ =>
      match findChildPath (rootPath jsxPath) child with
      | Some _ =>
          if negb showFragments
          then processFragmentChildren child (currentDepth + 1) maxDepth showFragments
          else addJSXSymbol child (currentDepth + 1) maxDepth showFragments
      | None => []
      end
  | JSXExpressionContainer _ _ =>
      processJSXExpression child (currentDepth + 1) maxDepth showFragments jsxPath
  | _ => []
  end.

(** One child of the fragment [processFragmentChildren] is at. *)
Definition processFragmentChildren_child (fragmentPath : Node)
    (currentDepth maxDepth : Z) (showFragments : bool) (child : Node)
  : list DocumentSymbol :=
  match child with
  | JSXElement _ _ _ _ =>
      match findChildPath (rootPath fragmentPath) child with
      | Some _ => addJSXSymbol child currentDepth maxDepth showFragments
      | None => []
      end
  | JSXFragment _ _ =>
      match findChildPath (rootPath fragmentPath) child with
      | Some _ => processFragmentChildren child currentDepth maxDepth showFragments
      | None => []
      end
  | JSXExpressionContainer _ _ =>
      processJSXExpression child currentDepth maxDepth showFragments fragmentPath
  | _ => []
  end.

(** One statement of a callback's block. *)
Definition callbackStatement (currentDepth maxDepth : Z) (showFragments : bool)
    (parentPath : Node) (statement : Node) : list DocumentSymbol :=
  match statement with
  | ReturnStatement _ (Some argument) =>
      addIfMarkup argument currentDepth maxDepth showFragments parentPath
  | _ => []
  end.

(** One argument of the call [traverseCallExpressionForJSX] is at. *)
Definition callArgument (currentDepth maxDepth : Z) (showFragments : bool)
    (parentPath : Node) (arg : Node) : list DocumentSymbol :=
  match arg with
  | ArrowFunctionExpression _ _ body | FunctionExpression _ _ _ body =>
      match body with
      | JSXElement _ _ _ _ | JSXFragment _ _ =>
          addIfMarkup body currentDepth maxDepth showFragments parentPath
      | BlockStatement _ statements =>
          flat_map (callbackStatement currentDepth maxDepth showFragments parentPath)
            statements
      | _ => []
      end
  | _ => []
  end.

End Parser.

(* ================================================================== *)
(** ** The vocabulary of the properties *)
(* ================================================================== *)

Module Outline.
Import Babel VSCode Parser.

(** The depths of the nodes of a symbol's tree, the symbol being at depth
    [d]. *)
Fixpoint depthsFrom (d : Z) (s : DocumentSymbol) : list Z :=
  d :: flat_map (depthsFrom (d + 1)) (children s).

(** The depths of the markup nodes under a component or hook entry; the
    entry's children are at depth 0. *)
Definition markupDepths (entry : DocumentSymbol) : list Z :=
  flat_map (depthsFrom 0) (children entry).

(** The symbols of a tree, the root first. *)
Fixpoint symbolsOf (s : DocumentSymbol) : list DocumentSymbol :=
  s :: flat_map symbolsOf (children s).

(** The names of a tree, as nested lists would print them. *)
Inductive Shape : Type := Sh (label : string) (below : list Shape).

Fixpoint shapeOf (s : DocumentSymbol) : Shape :=
  Sh (name s) (map shapeOf (children s)).

(** A markup entry: no detail string. *)
Definition isMarkupSymbol (s : DocumentSymbol) : bool := String.eqb (detail s) EmptyString.

(** A declaration the visitor accepts as a component or a hook, and skips. *)
Definition accepted (path : NodePath) : bool :=
  match node path with
  | FunctionDeclaration _ _ _ _ => isFunctionComponent path || isCustomHook path
  | VariableDeclarator _ (Identifier _ name) (Some init) =>
      (isArrowFunctionExpression init || isFunctionExpression init)
      && ((startsUpper name && hasJSXReturn (getPath path 1 init))
          || startsUseUpper name)
  | ClassDeclaration _ _ _ _ => isClassComponent path
  | _ => false
  end.

(** A declaration the visitor accepts as a hook. *)
Definition acceptedAsHook (path : NodePath) : bool :=
  match node path with
  | FunctionDeclaration _ _ _ _ => negb (isFunctionComponent path) && isCustomHook path
  | VariableDeclarator _ (Identifier _ name) (Some init) =>
      (isArrowFunctionExpression init || isFunctionExpression init)
      && negb (startsUpper name && hasJSXReturn (getPath path 1 init))
      && startsUseUpper name
  | _ => false
  end.

(** The kind of component an accepted declaration is. *)
Definition componentType (path : NodePath) : ComponentType :=
  match node path with
  | ClassDeclaration _ _ _ _ => TypeClass
  | VariableDeclarator _ _ _ => TypeArrow
  | _ => TypeFunction
  end.

(** The entry of an accepted declaration. *)
Definition entryOf (config : WorkspaceConfiguration) (path : NodePath)
  : list DocumentSymbol :=
  if negb (accepted path) then []
  else if acceptedAsHook path then
    if get (showHooks config) true then [createHookSymbol path] else []
  else [createComponentSymbol path (componentType path) config].

(** The name a function declaration or a variable declarator binds. *)
Definition boundName (n : Node) : option string :=
  match n with
  | FunctionDeclaration _ id _ _ => idName id
  | VariableDeclarator _ (Identifier _ name) _ => Some name
  | _ => None
  end.

Definition isFunctionDeclaration (n : Node) : bool :=
  match n with FunctionDeclaration _ _ _ _ => true | _ => false end.
Definition isVariableDeclarator (n : Node) : bool :=
  match n with VariableDeclarator _ _ _ => true | _ => false end.

(** A class member that is a method named [render]. *)
Definition isRenderMethod (m : Node) : bool :=
  match m with
  | ClassMethod _ (Identifier _ name) _ _ => String.eqb name "render"
  | _ => false
  end.

(** A markup node with its children replaced. *)
Definition withChildren (n : Node) (cs : list Node) : Node :=
  match n with
  | JSXElement l nm attrs _ => JSXElement l nm attrs cs
  | JSXFragment l _ => JSXFragment l cs
  | _ => n
  end.

(** The immediate statements of a callback's block that return markup;
    one for a callback whose body is markup. *)
Definition markupReturns (arg : Node) : nat :=
  match arg with
  | ArrowFunctionExpression _ _ body | FunctionExpression _ _ _ body =>
      match body with
      | JSXElement _ _ _ _ | JSXFragment _ _ => 1
      | BlockStatement _ statements =>
          List.length
            (filter
               (fun statement =>
                  match statement with
                  | ReturnStatement _ (Some argument) => isMarkup argument
                  | _ => false
                  end)
               statements)
      | _ => 0
      end
  | _ => 0
  end%nat.

(** Below [n], the two runs show fragments alike, or meet none. *)
Definition sameFragments (sf1 sf2 : bool) (n : Node) : Prop :=
  sf1 = sf2 \/ Forall (fun m => isJSXFragment m = false) (descendants n).

End Outline.

(* ================================================================== *)
(** ** Sample files *)
(* ================================================================== *)

Module Examples.
Import Babel VSCode Parser.

Definition on (l c1 c2 : Z) : option SourceLocation :=
  Some (mkLoc (mkLinePos l c1) (mkLinePos l c2)).

(** A markup element without attributes and without location. *)
Definition el (tag : string) (cs : list Node) : Node :=
  JSXElement None (JSXIdentifier tag) [] cs.

(** [function name() { statements }] *)
Definition fn (name : string) (statements : list Node) : Node :=
  FunctionDeclaration None (Some (Identifier None name)) []
    (BlockStatement None statements).

Definition ret (x : Node) : Node := ReturnStatement None (Some x).

Definition file (statements : list Node) : Node :=
  File None (Program None statements).

Definition config (maxDepth : Z) (fragments : bool) : WorkspaceConfiguration :=
  mkConfig (Some maxDepth) (Some fragments) None.

(** [const Button = ({label}) => (<button><span>{label}</span></button>)] *)
Definition span_label : Node :=
  JSXElement (on 1 37 57) (JSXIdentifier "span") []
    [JSXExpressionContainer (on 1 43 50) (Identifier (on 1 44 49) "label")].

Definition button : Node :=
  JSXElement (on 1 29 66) (JSXIdentifier "button") [] [span_label].

Definition props : Node :=
  Other (on 1 16 23) "ObjectPattern" [Identifier (on 1 17 22) "label"].

Definition scenarioA : Node :=
  File (on 1 0 67)
    (Program (on 1 0 67)
       [VariableDeclaration (on 1 0 67)
          [VariableDeclarator (on 1 6 67) (Identifier (on 1 6 12) "Button")
             (Some (ArrowFunctionExpression (on 1 15 67) [props] button))]]).

(** [const Button = ({label}) => { return <button><span>{label}</span></button> }] *)
Definition scenarioA_block : Node :=
  file
    [VariableDeclaration None
       [VariableDeclarator None (Identifier None "Button")
          (Some (ArrowFunctionExpression None [props]
                   (BlockStatement None [ret button])))]].

(** The nested components of the test file:
    [function Parent() { function Child() { return <div><span/></div> }
                         return <div><Child /></div> }] *)
Definition childDecl : Node := fn "Child" [ret (el "div" [el "span" []])].
Definition parentFile : Node :=
  file [fn "Parent" [childDecl; ret (el "div" [el "Child" []])]].

(** The same inner declaration inside a function that is no component:
    [function helper() { function Child() { ... } return 0 }] *)
Definition helperFile : Node :=
  file [fn "helper" [childDecl; ret (Other None "NumericLiteral" [])]].

(** [class Widget extends React.Component { tick() {} }] *)
Definition widgetClass : Node :=
  ClassDeclaration (on 1 0 50) (Some (Identifier (on 1 6 12) "Widget"))
    (Some (MemberExpression (on 1 21 36) (Identifier (on 1 21 26) "React")
             (Identifier (on 1 27 36) "Component")))
    (ClassBody (on 1 37 50)
       [ClassMethod (on 1 39 48) (Identifier (on 1 39 43) "tick") []
          (BlockStatement (on 1 46 48) [])]).
Definition widgetFile : Node := file [widgetClass].

(** [function A() { return <><div/></> }] *)
Definition fragmentOfDiv : Node := JSXFragment None [el "div" []].
Definition fragmentFile : Node := file [fn "A" [ret fragmentOfDiv]].

(** [<ul>{items.map(item => { return <a/>; return <b/> })}</ul>] *)
Definition twoReturns : Node :=
  ArrowFunctionExpression None [Identifier None "item"]
    (BlockStatement None [ret (el "a" []); ret (el "b" [])]).
Definition mapCall : Node :=
  CallExpression None
    (MemberExpression None (Identifier None "items") (Identifier None "map"))
    [twoReturns].
Definition listOfTwo : Node := el "ul" [JSXExpressionContainer None mapCall].
Definition listFile : Node := file [fn "List" [ret listOfTwo]].

(** [function Helper() { return 1 }] *)
Definition plainFile : Node :=
  file [fn "Helper" [ret (Other None "NumericLiteral" [])]].
Definition plainPath : NodePath :=
  mkNodePath (fn "Helper" [ret (Other None "NumericLiteral" [])]) (0%nat, 0%nat)
    (Some (mkNodePath (Program None [fn "Helper" [ret (Other None "NumericLiteral" [])]])
             (0%nat, 0%nat) (Some (rootPath plainFile)))).

Definition widgetPath : NodePath :=
  mkNodePath widgetClass (0%nat, 0%nat)
    (Some (mkNodePath (Program None [widgetClass]) (0%nat, 0%nat)
             (Some (rootPath widgetFile)))).

Definition pathOfParent : NodePath :=
  mkNodePath (fn "Parent" [childDecl; ret (el "div" [el "Child" []])])
    (0%nat, 0%nat)
    (Some (mkNodePath (Program None [fn "Parent" [childDecl; ret (el "div" [el "Child" []])]])
             (0%nat, 0%nat) (Some (rootPath parentFile)))).

(** A path for a statement of a one-statement file. *)
Definition statementPath (statement : Node) : NodePath :=
  mkNodePath statement (0%nat, 0%nat)
    (Some (mkNodePath (Program None [statement]) (0%nat, 0%nat)
             (Some (rootPath (file [statement]))))).

(** [function useThing() { return <div/> }] *)
Definition useThing : Node := fn "useThing" [ret (el "div" [])].

(** [function helper() { return <div/> }] *)
Definition helperWithMarkup : Node := fn "helper" [ret (el "div" [])].

(** Scenario B:
    [class TodoList extends React.Component
       { render() { return <div><h1/><ul><li/><li/></ul></div> } }] *)
Definition todoMarkup : Node :=
  el "div" [el "h1" []; el "ul" [el "li" []; el "li" []]].
Definition todoList : Node :=
  ClassDeclaration None (Some (Identifier None "TodoList"))
    (Some (MemberExpression None (Identifier None "React")
             (Identifier None "Component")))
    (ClassBody None
       [ClassMethod None (Identifier None "render") []
          (BlockStatement None [ret todoMarkup])]).

(** [<div>{x && <span/>}</div>] *)
Definition guarded (op : LogicalOperator) : Node :=
  JSXExpressionContainer None
    (LogicalExpression None op (Identifier None "x") (el "span" [])).
Definition divGuarded : Node := el "div" [guarded OpAnd].

(** [{label}]: the key and the value of a shorthand property are two
    objects that look the same, location included. *)
Definition shorthand : Node :=
  Other (on 1 16 21) "ObjectProperty"
    [Identifier (on 1 16 21) "label"; Identifier (on 1 16 21) "label"].
Definition shorthandValue : NodePath :=
  mkNodePath (Identifier (on 1 16 21) "label") (0%nat, 1%nat)
    (Some (rootPath shorthand)).

(** [class Panel extends Component
       { tick() {} render() { return <div/> } render() { return <span/> } }] *)
Definition tick : Node :=
  ClassMethod None (Identifier None "tick") [] (BlockStatement None []).
Definition secondRender : Node :=
  ClassMethod None (Identifier None "render") []
    (BlockStatement None [ret (el "span" [])]).
Definition panel : Node :=
  ClassDeclaration None (Some (Identifier None "Panel"))
    (Some (Identifier None "Component"))
    (ClassBody None
       [tick;
        ClassMethod None (Identifier None "render") []
          (BlockStatement None [ret (el "div" [])]);
        secondRender]).

End Examples.

(* ================================================================== *)
(** ** More vocabulary: entries, expressions, limits *)
(* ================================================================== *)

Module Further.
Import Babel VSCode Parser Outline.

(** An entry made by [createHookSymbol]. *)
Definition isHookSymbol (s : DocumentSymbol) : bool := String.eqb (detail s) "Hook".

(** The name a function, variable or class declaration declares. *)
Definition declaredName (n : Node) : option string :=
  match n with
  | FunctionDeclaration _ id _ _ | ClassDeclaration _ id _ _ => idName id
  | VariableDeclarator _ (Identifier _ name) _ => Some name
  | _ => None
  end.

(** A function declaration, or a variable declarator that binds an
    identifier to an arrow function or a function expression. *)
Definition declaresFunction (n : Node) : bool :=
  match n with
  | FunctionDeclaration _ _ _ _ => true
  | VariableDeclarator _ (Identifier _ _) (Some init) =>
      isArrowFunctionExpression init || isFunctionExpression init
  | _ => false
  end.

(** What an entry is, by its detail string. *)
Definition isHookEntry (s : DocumentSymbol) : Prop :=
  detail s = "Hook" /\ kind s = KindFunction
  /\ startsUseUpper (name s) = true /\ children s = [].
Definition isFunctionEntry (s : DocumentSymbol) : Prop :=
  detail s = "Function Component" /\ kind s = KindFunction
  /\ startsUpper (name s) = true.
Definition isClassEntry (s : DocumentSymbol) : Prop :=
  detail s = "Class Component" /\ kind s = KindClass
  /\ startsUpper (name s) = true.

(** The markup a callback hands back, as [traverseCallExpressionForJSX]
    reads it: its body when the body is markup, the arguments of the
    immediate [return] statements of its block when they are markup. *)
Definition callbackMarkup (arg : Node) : list Node :=
  match arg with
  | ArrowFunctionExpression _ _ body | FunctionExpression _ _ _ body =>
      match body with
      | JSXElement _ _ _ _ | JSXFragment _ _ => [body]
      | BlockStatement _ statements =>
          flat_map
            (fun statement =>
               match statement with
               | ReturnStatement _ (Some argument) =>
                   if isMarkup argument then [argument] else []
               | _ => []
               end)
            statements
      | _ => []
      end
  | _ => []
  end.

(** The markup operands of an embedded expression, in the order
    [processJSXExpression] takes them. *)
Definition expressionMarkup (expr : Node) : list Node :=
  match expr with
  | LogicalExpression _ _ _ rhs => if isMarkup rhs then [rhs] else []
  | ConditionalExpression _ _ consequent alternate =>
      (if isMarkup consequent then [consequent] else [])
      ++ (if isMarkup alternate then [alternate] else [])
  | CallExpression _ _ arguments => flat_map callbackMarkup arguments
  | _ => []
  end.

(** A symbol at depth [d] with everything at depth [M] or deeper cut. *)
Fixpoint cutSymbol (d M : Z) (s : DocumentSymbol) : list DocumentSymbol :=
  if d >=? M then []
  else
    [mkDocumentSymbol (name s) (detail s) (kind s) (range s) (selectionRange s)
       (flat_map (cutSymbol (d + 1) M) (children s))].

(** An entry with the markup below it cut at depth [M]. *)
Definition cutEntry (M : Z) (entry : DocumentSymbol) : DocumentSymbol :=
  mkDocumentSymbol (name entry) (detail entry) (kind entry) (range entry)
    (selectionRange entry) (flat_map (cutSymbol 0 M) (children entry)).

(** The member-style tag [first.r1.r2...]. *)
Definition memberChain (first : string) (rest : list string) : JSXName :=
  fold_left JSXMemberExpression rest (JSXIdentifier first).

(** The key at which the root of a tree of paths hangs. *)
Definition rootKey (t : PathTree) : Key :=
  match t with PT p _ => key p end.

(** The fields of a node that hold nodes, in the order of the visitor
    keys: the number of the field with the nodes it holds. *)
Definition fields (n : Node) : list (nat * list Node) :=
  let opt := fun (o : option Node) =>
    match o with Some c => [c] | None => [] end in
  match n with
  | File _ program => [(0, [program])]
  | Program _ body => [(0, body)]
  | Identifier _ _ => []
  | StringLiteral _ _ => []
  | MemberExpression _ object property => [(0, [object]); (1, [property])]
  | CallExpression _ callee arguments => [(0, [callee]); (1, arguments)]
  | LogicalExpression _ _ lhs rhs => [(0, [lhs]); (1, [rhs])]
  | ConditionalExpression _ test consequent alternate =>
      [(0, [test]); (1, [consequent]); (2, [alternate])]
  | ArrowFunctionExpression _ params body => [(0, params); (1, [body])]
  | FunctionExpression _ id params body =>
      [(0, opt id); (1, params); (2, [body])]
  | BlockStatement _ body => [(0, body)]
  | ReturnStatement _ argument => [(0, opt argument)]
  | FunctionDeclaration _ id params body =>
      [(0, opt id); (1, params); (2, [body])]
  | VariableDeclaration _ declarations => [(0, declarations)]
  | VariableDeclarator _ id init => [(0, [id]); (1, opt init)]
  | ClassDeclaration _ id superClass body =>
      [(0, opt id); (1, opt superClass); (2, [body])]
  | ClassBody _ body => [(0, body)]
  | ClassMethod _ key params body => [(0, [key]); (1, params); (2, [body])]
  | JSXElement _ _ attributes children => [(0, attributes); (1, children)]
  | JSXFragment _ children => [(0, children)]
  | JSXText _ _ => []
  | JSXExpressionContainer _ expression => [(0, [expression])]
  | JSXEmptyExpression _ => []
  | JSXSpreadChild _ expression => [(0, [expression])]
  | Other _ _ children => [(0, children)]
  end%nat.

(** The fields are numbered upwards from [lo]. *)
Fixpoint increasing (lo : nat) (fs : list nat) : bool :=
  match fs with
  | [] => true
  | f :: rest => (lo <=? f)%nat && increasing (S f) rest
  end.

(** A path at a markup element or fragment. *)
Definition markupAt (p : NodePath) : bool := isMarkup (node p).

(** The markup paths below [bodyPath] with no markup between them and
    [bodyPath], in visiting order. *)
Definition topLevelPaths (bodyPath : NodePath) : list NodePath :=
  filter markupAt
    (flat_map (reached markupAt) (childPaths (node bodyPath) bodyPath)).

(** The markup nodes below a node with no markup above them below the
    node, in source order. *)
Definition topLevelMarkup (n : Node) : list Node :=
  map node (topLevelPaths (rootPath n)).

(** What [buildJSXTree] pushes for a markup node it takes as a root. *)
Definition rootSymbols (showFragments : bool) (maxDepth : Z) (n : Node)
  : list DocumentSymbol :=
  if isJSXFragment n && negb showFragments
  then processFragmentChildren n 0 maxDepth showFragments
  else addJSXSymbol n 0 maxDepth showFragments.

(** One call of the visitor of [buildJSXTree], on the set [processedPaths]
    and what was pushed so far. *)
Definition enterMarkup (bodyPath : NodePath) (showFragments : bool)
    (maxDepth : Z) (jsxPath : NodePath)
    (st : list NodePath * list DocumentSymbol)
  : list NodePath * list DocumentSymbol :=
  if markupAt jsxPath && negb (has (fst st) jsxPath)
     && isTopLevelJSX jsxPath bodyPath
  then (jsxPath :: fst st,
        snd st ++ rootSymbols showFragments maxDepth (node jsxPath))
  else st.

(** A symbol that stands for a markup element or fragment of the file. *)
Definition isMarkupSymbolOf (ast : Node) (s : DocumentSymbol) : Prop :=
  detail s = EmptyString
  /\ kind s = getJSXSymbolKind (name s)
  /\ selectionRange s = range s
  /\ exists n,
       In n (descendants ast) /\ isMarkup n = true
       /\ name s = getJSXTagName n
       /\ range s = astRangeToVsCodeRange (loc n).

(** *** The constructors of [vscode] *)

(** [new vscode.Position(line, character)]: it throws on a negative
    argument, [None] here. *)
Definition newPosition (line character : Z) : option Position :=
  if (line <? 0) || (character <? 0) then None
  else Some (mkPosition line character).

(** [a.isBefore(b)] *)
Definition isBefore (a b : Position) : bool :=
  if posLine a <? posLine b then true
  else if posLine b <? posLine a then false
  else character a <? character b.

(** [new vscode.Range(start, end)]: the range starts at the earlier of the
    two positions. *)
Definition newRange (start end_ : Position) : Range :=
  if isBefore start end_ then mkRange start end_ else mkRange end_ start.

(** [astRangeToVsCodeRange(loc, document)] through the constructors of
    [vscode]: [None] when one of them throws. *)
Definition astRangeToVsCodeRangeOrThrow (l : option SourceLocation)
  : option Range :=
  match l with
  | None =>
      let first := positionAt0 in
      Some (newRange first first)
  | Some l =>
      match newPosition (line (loc_start l) - 1) (column (loc_start l)),
            newPosition (line (loc_end l) - 1) (column (loc_end l)) with
      | Some start, Some end_ => Some (newRange start end_)
      | _, _ => None
      end
  end.

(** A location as the parser gives it: lines from 1, columns from 0, the
    end not before the start. *)
Definition parserLocation (l : SourceLocation) : bool :=
  (1 <=? line (loc_start l)) && (0 <=? column (loc_start l))
  && (1 <=? line (loc_end l)) && (0 <=? column (loc_end l))
  && ((line (loc_start l) <? line (loc_end l))
      || ((line (loc_start l) =? line (loc_end l))
          && (column (loc_start l) <=? column (loc_end l)))).

(** *** A traversal that throws *)

(** [getSymbolsFromDocument(document, log)] with the throw of
    [traverse(ast, ...)], which is outside the [try]: before it visits,
    Babel crawls the scopes of the program and throws on a declaration it
    takes for a duplicate.  [crawls ast] says that it does not throw on
    [ast]; the result is [None] when it does. *)
Definition getSymbolsFromDocumentOrThrow (crawls : Node -> bool)
    (parsed : option Node) (config : WorkspaceConfiguration)
  : option (list DocumentSymbol) :=
  match parsed with
  | None => Some []
  | Some ast =>
      if crawls ast then Some (getSymbolsFromDocument parsed config) else None
  end.

(** *** Searching for a node object *)

(** [findChildPath(parentPath, childNode)] with [path.node === childNode]
    read as the identity of the node object: an object of the tree sits
    at one place, so the object looked for is given by its path [child],
    and [===] holds at that place only. *)
Definition findChildPathAt (parentPath child : NodePath) : option NodePath :=
  traverse
    (fun path (found : option NodePath) =>
       if NodePath_eqb path child then (Some path, Stop)
       else (found, Continue))
    parentPath None.

End Further.

(* ================================================================== *)
(** ** Facts about the traversal *)
(* ================================================================== *)

Module BabelFacts.
Import Babel.

Lemma Node_eqb_eq (a b : Node) : Node_eqb a b = true <-> a = b.
Proof.
  unfold Node_eqb. destruct (Node_eq_dec a b); split; congruence.
Qed.

Lemma Node_eqb_refl (a : Node) : Node_eqb a a = true.
Proof. now apply Node_eqb_eq. Qed.

Lemma list_all_Forall {A : Type} (P : A -> Prop) (l : list A) :
  list_all A P l -> Forall P l.
Proof. induction 1; constructor; assumption. Qed.

Lemma Keys_eqb_refl (ks : list Key) : Keys_eqb ks ks = true.
Proof.
  induction ks as [|[a b] ks IH]; simpl; [reflexivity|].
  unfold Key_eqb; simpl. now rewrite !Nat.eqb_refl, IH.
Qed.

Lemma NodePath_eqb_refl (p : NodePath) : NodePath_eqb p p = true.
Proof. apply Keys_eqb_refl. Qed.

(** *** The children of a node *)

Lemma list_all_In {A : Type} (P : A -> Prop) (l : list A) :
  list_all A P l -> forall c, In c l -> P c.
Proof.
  intros H c Hc. apply list_all_Forall in H.
  rewrite Forall_forall in H. now apply H.
Qed.

(** Induction on a node, with the property known of its children. *)
Lemma subnodes_ind (P : Node -> Prop) :
  (forall n, (forall c, In c (subnodes n) -> P c) -> P n) ->
  forall n, P n.
Proof.
  intros H.
  induction n; apply H; simpl; intros c Hc;
    repeat match goal with
      | X : option_all _ _ _ |- _ => destruct X
      | X : list_all Node _ ?l |- _ =>
          let F := fresh "F" in
          pose proof (list_all_In P l X) as F; clear X
      end;
    simpl in Hc;
    repeat (rewrite in_app_iff in Hc; simpl in Hc);
    intuition (subst; auto).
Qed.

Lemma pathsOfList_spec (parent : NodePath) (field : nat) (cs : list Node) :
  forall i,
    Forall2 (pathTreeOf parent) (pathsOfList (childPath parent) field i cs) cs.
Proof.
  induction cs as [|c cs IH]; intros i; simpl; constructor.
  - now exists (field, i).
  - apply IH.
Qed.

Lemma pathsOfOption_spec (parent : NodePath) (field : nat) (o : option Node) :
  Forall2 (pathTreeOf parent) (pathsOfOption (childPath parent) field o)
    (match o with Some c => [c] | None => [] end).
Proof.
  destruct o; simpl; repeat constructor. now exists (field, 0%nat).
Qed.

(** The paths built below a node are those of its children, in order. *)
Lemma childPaths_spec (n : Node) (parent : NodePath) :
  Forall2 (pathTreeOf parent) (childPaths n parent) (subnodes n).
Proof.
  destruct n; simpl;
    repeat first
      [ apply Forall2_nil
      | apply Forall2_app
      | apply pathsOfList_spec
      | apply pathsOfOption_spec
      | apply Forall2_cons; [eexists; reflexivity|] ].
Qed.

(** *** Traversals *)

Section TraverseFacts.
Context {S : Type}.

Lemma visit_eq (enter : NodePath -> S -> S * Control) p below s :
  visit enter (PT p below) s =
  let (s1, c) := enter p s in
  match c with
  | Stop => (s1, true)
  | Skip => (s1, false)
  | Continue => visitMultiple enter below s1
  end.
Proof. reflexivity. Qed.

(** A visitor that never stops the traversal, and skips at the paths
    [skipsAt] holds of, folds its step over the paths reached. *)
Lemma visitMultiple_reached (enter : NodePath -> S -> S * Control)
    (step : NodePath -> S -> S) (skipsAt : NodePath -> bool) :
  (forall p s, enter p s = (step p s, if skipsAt p then Skip else Continue)) ->
  forall ts s,
    visitMultiple enter ts s =
    (fold_left (fun s p => step p s) (flat_map (reached skipsAt) ts) s, false).
Proof.
  intros Henter.
  assert (Hone : forall t s,
             visit enter t s =
             (fold_left (fun s p => step p s) (reached skipsAt t) s, false)).
  { induction t as [p below IH]; intros s.
    rewrite visit_eq, Henter. simpl reached. simpl fold_left.
    destruct (skipsAt p); [reflexivity|].
    generalize (step p s). clear s.
    induction IH as [|t Ht rest _ IHrest]; intros s; simpl; [reflexivity|].
    rewrite Ht, fold_left_app. apply IHrest. }
  induction ts as [|t ts IH]; intros s; simpl; [reflexivity|].
  rewrite Hone, fold_left_app. apply IH.
Qed.

Lemma reached_never (t : PathTree) : reached (fun _ => false) t = flatten t.
Proof.
  induction t as [p below IH]; simpl. f_equal.
  induction IH as [|t Ht rest _ IHrest]; simpl; [reflexivity|].
  now rewrite Ht, IHrest.
Qed.

Lemma reached_never_all (ts : list PathTree) :
  flat_map (reached (fun _ => false)) ts = flat_map flatten ts.
Proof.
  induction ts as [|t ts IH]; simpl; [reflexivity|].
  now rewrite reached_never, IH.
Qed.

(** A visitor that neither skips nor stops folds its step over all the
    paths below. *)
Lemma traverse_fold (enter : NodePath -> S -> S * Control)
    (step : NodePath -> S -> S) :
  (forall p s, enter p s = (step p s, Continue)) ->
  forall path s,
    traverse enter path s =
    fold_left (fun s p => step p s) (descendantPaths path) s.
Proof.
  intros Henter path s. unfold traverse, descendantPaths.
  rewrite (visitMultiple_reached enter step (fun _ => false)) by apply Henter.
  simpl. now rewrite reached_never_all.
Qed.

(** Whatever the visitor asks for, a property of the state that each call
    keeps is kept by the traversal. *)
Lemma visitMultiple_invariant (enter : NodePath -> S -> S * Control)
    (I : S -> Prop) :
  (forall p s, I s -> I (fst (enter p s))) ->
  forall ts s, I s -> I (fst (visitMultiple enter ts s)).
Proof.
  intros Henter.
  assert (Hone : forall t s, I s -> I (fst (visit enter t s))).
  { induction t as [p below IH]; intros s Hs.
    rewrite visit_eq. specialize (Henter p s Hs).
    destruct (enter p s) as [s1 c]; simpl in Henter.
    destruct c; try assumption.
    revert s1 Henter. clear s Hs.
    induction IH as [|t Ht rest _ IHrest]; intros s Hs; simpl; [assumption|].
    specialize (Ht s Hs). destruct (visit enter t s) as [s2 stopped].
    destruct stopped; [assumption|]. now apply IHrest. }
  induction ts as [|t ts IH]; intros s Hs; simpl; [assumption|].
  specialize (Hone t s Hs). destruct (visit enter t s) as [s2 stopped].
  destruct stopped; [assumption|]. now apply IH.
Qed.

End TraverseFacts.

Lemma find_app {A : Type} (f : A -> bool) (l1 l2 : list A) :
  find f (l1 ++ l2) =
  match find f l1 with
  | Some x => Some x
  | None => find f l2
  end.
Proof.
  induction l1 as [|a l1 IH]; simpl; [reflexivity|].
  destruct (f a); [reflexivity|apply IH].
Qed.

(** The search of [findChildPath]: the first path that passes the test. *)
Lemma visitMultiple_find (test : NodePath -> bool) :
  forall ts found,
    visitMultiple
      (fun path (found : option NodePath) =>
         if test path then (Some path, Stop) else (found, Continue))
      ts found =
    match find test (flat_map flatten ts) with
    | Some p => (Some p, true)
    | None => (found, false)
    end.
Proof.
  set (enter := fun path (found : option NodePath) =>
                  if test path then (Some path, Stop) else (found, Continue)).
  assert (Hone : forall t found,
             visit enter t found =
             match find test (flatten t) with
             | Some p => (Some p, true)
             | None => (found, false)
             end).
  { induction t as [p below IH]; intros found.
    rewrite visit_eq. unfold enter at 1. simpl flatten. simpl find.
    destruct (test p); [reflexivity|].
    induction IH as [|t Ht rest _ IHrest]; simpl; [reflexivity|].
    rewrite Ht, find_app.
    destruct (find test (flatten t)); [reflexivity|]. apply IHrest. }
  clearbody enter.
  induction ts as [|t ts IH]; intros found; simpl; [reflexivity|].
  rewrite Hone, find_app.
  destruct (find test (flatten t)); [reflexivity|]. apply IH.
Qed.

(** *** The nodes below a node *)

Lemma nodes_of_children (parent : NodePath) (ts : list PathTree) (cs : list Node) :
  Forall2 (pathTreeOf parent) ts cs ->
  (forall c, In c cs ->
     forall p, map node (flat_map flatten (childPaths c p)) = descendants c) ->
  map node (flat_map flatten ts) = flat_map (fun c => c :: descendants c) cs.
Proof.
  induction 1 as [|t c ts cs [k ->] _ IH]; intros Hcs; simpl; [reflexivity|].
  rewrite map_app, Hcs by now left.
  rewrite IH; [reflexivity|]. intros c' Hc'. apply Hcs. now right.
Qed.

(** The nodes met below a node do not depend on where the node hangs. *)
Lemma nodes_below (n : Node) :
  forall p, map node (flat_map flatten (childPaths n p)) = descendants n.
Proof.
  induction n as [n IH] using subnodes_ind. intros p.
  unfold descendants, descendantPaths. simpl node.
  rewrite (nodes_of_children p _ _ (childPaths_spec n p) IH).
  now rewrite (nodes_of_children _ _ _ (childPaths_spec n (rootPath n)) IH).
Qed.

Lemma descendants_eq (n : Node) :
  descendants n = flat_map (fun c => c :: descendants c) (subnodes n).
Proof.
  unfold descendants at 1, descendantPaths. simpl node.
  apply (nodes_of_children _ _ _ (childPaths_spec n (rootPath n))).
  intros c _ p. apply nodes_below.
Qed.

Lemma descendants_of_path (path : NodePath) :
  map node (descendantPaths path) = descendants (node path).
Proof. apply nodes_below. Qed.

Lemma subnode_below (c n : Node) : In c (subnodes n) -> In c (descendants n).
Proof.
  intros H. rewrite descendants_eq, in_flat_map. exists c. split; [assumption|].
  now left.
Qed.

Lemma below_subnode (m c n : Node) :
  In m (descendants c) -> In c (subnodes n) -> In m (descendants n).
Proof.
  intros Hm Hc. rewrite (descendants_eq n), in_flat_map. exists c.
  split; [assumption|]. now right.
Qed.

Lemma descendants_trans (m c n : Node) :
  In m (descendants c) -> In c (descendants n) -> In m (descendants n).
Proof.
  intros Hm. induction n as [n IH] using subnodes_ind. intros Hc.
  rewrite descendants_eq, in_flat_map in Hc. destruct Hc as [c' [Hc' [<-|Hc]]].
  - now apply below_subnode with c'.
  - apply below_subnode with c'; [|assumption]. now apply IH.
Qed.

(** What is below a node has less below it than the node has. *)
Lemma below_is_smaller (n : Node) :
  forall m, In m (descendants n) ->
    (List.length (descendants m) < List.length (descendants n))%nat.
Proof.
  induction n as [n IH] using subnodes_ind. intros m Hm.
  rewrite (descendants_eq n). rewrite descendants_eq, in_flat_map in Hm.
  destruct Hm as [c [Hc Hm]].
  assert (Hle : (S (List.length (descendants c))
                 <= List.length
                      (flat_map (fun c => c :: descendants c) (subnodes n)))%nat).
  { clear - Hc. induction (subnodes n) as [|x xs IHxs]; [contradiction|].
    simpl. rewrite length_app. destruct Hc as [->|Hc]; [lia|].
    specialize (IHxs Hc). lia. }
  destruct Hm as [<-|Hm]; [lia|].
  specialize (IH c Hc m Hm). lia.
Qed.

Lemma not_below_itself (n : Node) : ~ In n (descendants n).
Proof. intros H. apply below_is_smaller in H. lia. Qed.

(** Induction on a node, with the property known of everything below. *)
Lemma descendants_ind (P : Node -> Prop) :
  (forall n, (forall m, In m (descendants n) -> P m) -> P n) ->
  forall n, P n.
Proof.
  intros H n.
  enough (Hn : forall m, In m (descendants n) -> P m) by now apply H.
  induction n as [n IH] using subnodes_ind. intros m Hm.
  rewrite descendants_eq, in_flat_map in Hm. destruct Hm as [c [Hc [<-|Hm]]].
  - apply H. now apply IH.
  - now apply (IH c).
Qed.

End BabelFacts.

(* ================================================================== *)
(** ** Facts about parser.ts *)
(* ================================================================== *)

Module ParserFacts.
Import Babel VSCode Parser Outline BabelFacts.

(** *** The functions of the markup tree, unfolded once *)

Lemma addJSXSymbol_eq (n : Node) (d M : Z) (sf : bool) :
  addJSXSymbol n d M sf =
  if d >=? M then []
  else
    [mkDocumentSymbol (getJSXTagName n) EmptyString (getJSXSymbolKind (getJSXTagName n))
       (astRangeToVsCodeRange (loc n)) (astRangeToVsCodeRange (loc n))
       (flat_map (addJSXSymbol_child n d M sf) (getJSXChildren n))].
Proof. destruct n; reflexivity. Qed.

Lemma processFragmentChildren_eq (n : Node) (d M : Z) (sf : bool) :
  processFragmentChildren n d M sf =
  flat_map (processFragmentChildren_child n d M sf) (getJSXChildren n).
Proof. destruct n; reflexivity. Qed.

Lemma traverseCallExpressionForJSX_eq (n : Node) (d M : Z) (sf : bool)
    (parent : Node) :
  traverseCallExpressionForJSX n d M sf parent =
  match n with
  | CallExpression _ _ arguments => flat_map (callArgument d M sf parent) arguments
  | _ => []
  end.
Proof.
  destruct n; try reflexivity.
  simpl. apply flat_map_ext. intros arg.
  destruct arg; try reflexivity;
    match goal with b : Node |- _ => destruct b; reflexivity end.
Qed.

Lemma processJSXExpression_eq (n : Node) (d M : Z) (sf : bool) (parent : Node) :
  processJSXExpression n d M sf parent =
  if d >=? M then []
  else
    match n with
    | JSXExpressionContainer _ expr =>
        match expr with
        | LogicalExpression _ _ _ rhs => addIfMarkup rhs d M sf parent
        | ConditionalExpression _ _ consequent alternate =>
            addIfMarkup consequent d M sf parent
            ++ addIfMarkup alternate d M sf parent
        | CallExpression _ _ _ => traverseCallExpressionForJSX expr d M sf parent
        | _ => []
        end
    | _ => []
    end.
Proof.
  destruct n; try reflexivity; simpl; destruct (d >=? M); reflexivity.
Qed.

(** *** Searching below a node *)

(** What is below a node is found from it. *)
Lemma findChildPath_found (n c : Node) :
  In c (descendants n) ->
  exists p, findChildPath (rootPath n) c = Some p /\ node p = c.
Proof.
  intros Hc. unfold findChildPath, traverse. rewrite visitMultiple_find.
  fold (descendantPaths (rootPath n)).
  destruct (find _ _) as [p|] eqn:Hfind.
  - exists p. split; [reflexivity|].
    apply find_some in Hfind. now apply Node_eqb_eq.
  - exfalso. unfold descendants in Hc. apply in_map_iff in Hc.
    destruct Hc as [p [Hp Hin]].
    apply (find_none _ _ Hfind) in Hin. simpl in Hin.
    rewrite Hp, Node_eqb_refl in Hin. discriminate.
Qed.

(** What is found has the node that was looked for. *)
Lemma findChildPath_node (parentPath : NodePath) (c : Node) (p : NodePath) :
  findChildPath parentPath c = Some p -> node p = c.
Proof.
  unfold findChildPath, traverse. rewrite visitMultiple_find.
  destruct (find _ _) as [q|] eqn:Hfind; [|discriminate].
  intros [= <-]. apply find_some in Hfind. now apply Node_eqb_eq.
Qed.

Lemma addIfMarkup_found (x : Node) (d M : Z) (sf : bool) (parent : Node) :
  In x (descendants parent) ->
  addIfMarkup x d M sf parent = if isMarkup x then addJSXSymbol x d M sf else [].
Proof.
  intros Hx. unfold addIfMarkup, findExpressionPath.
  destruct (findChildPath_found _ _ Hx) as [p [-> _]]. reflexivity.
Qed.

(** *** Markup below a path *)

Lemma fold_left_flag {A : Type} (f : A -> bool) (l : list A) (h : bool) :
  fold_left (fun h x => if f x then true else h) l h = (h || existsb f l)%bool.
Proof.
  revert h. induction l as [|a l IH]; intros h; simpl.
  - now rewrite orb_false_r.
  - rewrite IH. destruct (f a), h; reflexivity.
Qed.

(** [hasJSXReturn] says whether there is markup anywhere below the path. *)
Lemma hasJSXReturn_spec (functionPath : NodePath) :
  hasJSXReturn functionPath = existsb isMarkup (descendants (node functionPath)).
Proof.
  unfold hasJSXReturn.
  rewrite (traverse_fold _ (fun p h => if isMarkup (node p) then true else h)).
  - rewrite (fold_left_flag (fun p => isMarkup (node p))). simpl.
    rewrite <- descendants_of_path.
    induction (descendantPaths functionPath) as [|p l IH]; simpl; [reflexivity|].
    now rewrite IH.
  - intros p h. destruct (node p); reflexivity.
Qed.

(** *** Where the markup tree looks *)

#[global] Opaque descendants.

Ltac subnode := apply subnode_below; simpl; rewrite ?in_app_iff; simpl; auto.

Lemma jsxChild_below (n c : Node) :
  In c (getJSXChildren n) -> In c (descendants n).
Proof. destruct n; simpl; intros H; try contradiction; subnode. Qed.

Lemma expression_below (l : option SourceLocation) (e x : Node) :
  In x (subnodes e) -> In x (descendants (JSXExpressionContainer l e)).
Proof.
  intros H. apply descendants_trans with e; [now apply subnode_below|subnode].
Qed.

Lemma callbackBody_below (l : option SourceLocation) (callee arg x : Node)
    (args : list Node) :
  In arg args -> In x (descendants arg) ->
  In x (descendants (CallExpression l callee args)).
Proof.
  intros Harg Hx. apply descendants_trans with arg; [assumption|subnode].
Qed.

Lemma returned_below (l l' : option SourceLocation) (x : Node)
    (statements : list Node) :
  In (ReturnStatement l' (Some x)) statements ->
  In x (descendants (BlockStatement l statements)).
Proof.
  intros H. apply descendants_trans with (ReturnStatement l' (Some x)); subnode.
Qed.

(** *** A property of every node the markup tree emits *)

Section BuilderForall.
Variables (M : Z) (sf : bool) (Good : Z -> DocumentSymbol -> Prop).

(** The nodes the property is about: a set closed under "below". *)
Variable Scope : Node -> Prop.
Hypothesis Scope_below :
  forall n m, Scope n -> In m (descendants n) -> Scope m.

(** [Good d] holds of a node emitted at depth [d] as soon as [Good (d + 1)]
    holds of its children. *)
Hypothesis Good_node :
  forall n d kids,
    Scope n -> d < M -> Forall (Good (d + 1)) kids ->
    Good d
      (mkDocumentSymbol (getJSXTagName n) EmptyString (getJSXSymbolKind (getJSXTagName n))
         (astRangeToVsCodeRange (loc n)) (astRangeToVsCodeRange (loc n)) kids).

Lemma builder_Forall (n : Node) :
  Scope n ->
  forall d parent,
    Forall (Good d) (addJSXSymbol n d M sf)
    /\ Forall (Good d) (processFragmentChildren n d M sf)
    /\ Forall (Good d) (processJSXExpression n d M sf parent)
    /\ Forall (Good d) (traverseCallExpressionForJSX n d M sf parent).
Proof.
  induction n as [n IH0] using descendants_ind. intros Hscope d parent.
  assert (IH : forall m, In m (descendants n) ->
            forall d parent,
              Forall (Good d) (addJSXSymbol m d M sf)
              /\ Forall (Good d) (processFragmentChildren m d M sf)
              /\ Forall (Good d) (processJSXExpression m d M sf parent)
              /\ Forall (Good d) (traverseCallExpressionForJSX m d M sf parent)).
  { intros m Hm. apply IH0; [assumption|]. now apply Scope_below with n. }
  clear IH0.
  assert (Hadd : forall x d parent, In x (descendants n) ->
                   Forall (Good d) (addIfMarkup x d M sf parent)).
  { intros x d' parent' Hx. unfold addIfMarkup.
    destruct (isMarkup x); [|constructor].
    destruct (findExpressionPath _ _); [|constructor].
    now apply (IH x Hx d' parent'). }
  repeat split.
  - rewrite addJSXSymbol_eq. destruct (d >=? M) eqn:E; [constructor|].
    constructor; [|constructor]. apply Good_node; [assumption|lia|].
    apply Forall_flat_map, Forall_forall. intros c Hc.
    apply jsxChild_below in Hc. specialize (IH c Hc (d + 1)).
    unfold addJSXSymbol_child.
    destruct c; try constructor;
      try (destruct (findChildPath _ _); [|constructor]);
      try destruct (negb sf); apply (IH n).
  - rewrite processFragmentChildren_eq.
    apply Forall_flat_map, Forall_forall. intros c Hc.
    apply jsxChild_below in Hc. specialize (IH c Hc d).
    unfold processFragmentChildren_child.
    destruct c; try constructor;
      try (destruct (findChildPath _ _); [|constructor]);
      apply (IH n).
  - rewrite processJSXExpression_eq. destruct (d >=? M); [constructor|].
    destruct n as [| | | | | | | | | | | | | | | | | | | | |l e| | |];
      try constructor.
    destruct e; try constructor.
    + apply (IH (CallExpression loc0 e arguments)). subnode.
    + apply Hadd. apply expression_below. simpl. auto.
    + apply Forall_app. split; apply Hadd; apply expression_below; simpl; auto.
  - rewrite traverseCallExpressionForJSX_eq.
    destruct n as [| | | | |l callee args| | | | | | | | | | | | | | | | | | |];
      try constructor.
    apply Forall_flat_map, Forall_forall. intros arg Harg.
    assert (Hbody : forall b d parent, In b (descendants arg) ->
                      Forall (Good d) (addIfMarkup b d M sf parent)).
    { intros b d' parent' Hb. apply Hadd.
      now apply callbackBody_below with arg. }
    assert (Hblock : forall l2 sts, In (BlockStatement l2 sts) (subnodes arg) ->
              Forall (Good d)
                (flat_map (callbackStatement d M sf parent) sts)).
    { intros l2 sts Hsub. apply Forall_flat_map, Forall_forall. intros st Hst.
      unfold callbackStatement.
      destruct st as [| | | | | | | | | | |l3 [x|]| | | | | | | | | | | | |];
        try constructor.
      apply Hbody. apply descendants_trans with (BlockStatement l2 sts).
      - eapply returned_below. exact Hst.
      - now apply subnode_below. }
    unfold callArgument.
    destruct arg; try constructor;
      match goal with
      | b : Node |- _ =>
          destruct b; try constructor;
          first [ apply Hbody; subnode
                | eapply Hblock; simpl; rewrite ?in_app_iff; simpl; eauto ]
      end.
Qed.

End BuilderForall.

(** *** Each symbol is the symbol of a node *)

Section BuilderEmitted.
Variables (M : Z) (sf : bool) (Good : Z -> DocumentSymbol -> Prop).
Variable Scope : Node -> Prop.
Hypothesis Scope_below :
  forall n m, Scope n -> In m (descendants n) -> Scope m.

(** [Good d] holds of the symbol [addJSXSymbol] makes for a markup node at
    depth [d] as soon as [Good (d + 1)] holds of its children. *)
Hypothesis Good_emitted :
  forall n d s,
    Scope n -> isMarkup n = true -> d < M ->
    addJSXSymbol n d M sf = [s] ->
    Forall (Good (d + 1)) (children s) ->
    Good d s.

Lemma builder_emitted (n : Node) :
  Scope n ->
  forall d parent,
    (isMarkup n = true -> Forall (Good d) (addJSXSymbol n d M sf))
    /\ Forall (Good d) (processFragmentChildren n d M sf)
    /\ Forall (Good d) (processJSXExpression n d M sf parent)
    /\ Forall (Good d) (traverseCallExpressionForJSX n d M sf parent).
Proof.
  induction n as [n IH0] using descendants_ind. intros Hscope d parent.
  assert (IH : forall m, In m (descendants n) ->
            forall d parent,
              (isMarkup m = true -> Forall (Good d) (addJSXSymbol m d M sf))
              /\ Forall (Good d) (processFragmentChildren m d M sf)
              /\ Forall (Good d) (processJSXExpression m d M sf parent)
              /\ Forall (Good d) (traverseCallExpressionForJSX m d M sf parent)).
  { intros m Hm. apply IH0; [assumption|]. now apply Scope_below with n. }
  clear IH0.
  assert (Hadd : forall x d parent, In x (descendants n) ->
                   Forall (Good d) (addIfMarkup x d M sf parent)).
  { intros x d' parent' Hx. unfold addIfMarkup.
    destruct (isMarkup x) eqn:Hmarkup; [|constructor].
    destruct (findExpressionPath _ _); [|constructor].
    now apply (IH x Hx d' parent'). }
  repeat split.
  - intros Hmarkup.
    assert (Hkids : Forall (Good (d + 1))
                      (flat_map (addJSXSymbol_child n d M sf) (getJSXChildren n))).
    { apply Forall_flat_map, Forall_forall. intros c Hc.
      apply jsxChild_below in Hc. specialize (IH c Hc (d + 1)).
      unfold addJSXSymbol_child.
      destruct c; try constructor;
        try (destruct (findChildPath _ _); [|constructor]);
        try destruct (negb sf); apply (IH n); reflexivity. }
    pose proof (addJSXSymbol_eq n d M sf) as Heq.
    destruct (d >=? M) eqn:E; rewrite Heq; [constructor|].
    constructor; [|constructor].
    apply Good_emitted with n; [assumption|assumption|lia|assumption|exact Hkids].
  - rewrite processFragmentChildren_eq.
    apply Forall_flat_map, Forall_forall. intros c Hc.
    apply jsxChild_below in Hc. specialize (IH c Hc d).
    unfold processFragmentChildren_child.
    destruct c; try constructor;
      try (destruct (findChildPath _ _); [|constructor]);
      apply (IH n); reflexivity.
  - rewrite processJSXExpression_eq. destruct (d >=? M); [constructor|].
    destruct n as [| | | | | | | | | | | | | | | | | | | | |l e| | |];
      try constructor.
    destruct e; try constructor.
    + apply (IH (CallExpression loc0 e arguments)). subnode.
    + apply Hadd. apply expression_below. simpl. auto.
    + apply Forall_app. split; apply Hadd; apply expression_below; simpl; auto.
  - rewrite traverseCallExpressionForJSX_eq.
    destruct n as [| | | | |l callee args| | | | | | | | | | | | | | | | | | |];
      try constructor.
    apply Forall_flat_map, Forall_forall. intros arg Harg.
    assert (Hbody : forall b d parent, In b (descendants arg) ->
                      Forall (Good d) (addIfMarkup b d M sf parent)).
    { intros b d' parent' Hb. apply Hadd.
      now apply callbackBody_below with arg. }
    assert (Hblock : forall l2 sts, In (BlockStatement l2 sts) (subnodes arg) ->
              Forall (Good d)
                (flat_map (callbackStatement d M sf parent) sts)).
    { intros l2 sts Hsub. apply Forall_flat_map, Forall_forall. intros st Hst.
      unfold callbackStatement.
      destruct st as [| | | | | | | | | | |l3 [x|]| | | | | | | | | | | | |];
        try constructor.
      apply Hbody. apply descendants_trans with (BlockStatement l2 sts).
      - eapply returned_below. exact Hst.
      - now apply subnode_below. }
    unfold callArgument.
    destruct arg; try constructor;
      match goal with
      | b : Node |- _ =>
          destruct b; try constructor;
          first [ apply Hbody; subnode
                | eapply Hblock; simpl; rewrite ?in_app_iff; simpl; eauto ]
      end.
Qed.

End BuilderEmitted.

(** *** Two runs of the markup tree *)

Lemma flat_map_ext_in {A B : Type} (f g : A -> list B) (l : list A) :
  (forall a, In a l -> f a = g a) -> flat_map f l = flat_map g l.
Proof.
  induction l as [|a l IH]; intros H; simpl; [reflexivity|].
  rewrite (H a) by now left. rewrite IH; [reflexivity|].
  intros b Hb. apply H. now right.
Qed.

Lemma sameFragments_below (sf1 sf2 : bool) (n m : Node) :
  sameFragments sf1 sf2 n -> In m (descendants n) -> sameFragments sf1 sf2 m.
Proof.
  intros [H|H] Hm; [now left|right].
  rewrite Forall_forall in *. intros x Hx. apply H.
  now apply descendants_trans with m.
Qed.

(** The markup tree depends on the depth and the limit through their
    difference only, and on [showFragments] only where a fragment is a
    child. *)
Lemma builder_agree (sf1 sf2 : bool) (n : Node) :
  sameFragments sf1 sf2 n ->
  forall d1 M1 d2 M2 parent,
    d1 - M1 = d2 - M2 ->
    addJSXSymbol n d1 M1 sf1 = addJSXSymbol n d2 M2 sf2
    /\ processFragmentChildren n d1 M1 sf1 = processFragmentChildren n d2 M2 sf2
    /\ processJSXExpression n d1 M1 sf1 parent
       = processJSXExpression n d2 M2 sf2 parent
    /\ traverseCallExpressionForJSX n d1 M1 sf1 parent
       = traverseCallExpressionForJSX n d2 M2 sf2 parent.
Proof.
  induction n as [n IH0] using descendants_ind.
  intros Hsame d1 M1 d2 M2 parent Hd.
  assert (IH : forall m, In m (descendants n) ->
            forall d1 M1 d2 M2 parent,
              d1 - M1 = d2 - M2 ->
              addJSXSymbol m d1 M1 sf1 = addJSXSymbol m d2 M2 sf2
              /\ processFragmentChildren m d1 M1 sf1
                 = processFragmentChildren m d2 M2 sf2
              /\ processJSXExpression m d1 M1 sf1 parent
                 = processJSXExpression m d2 M2 sf2 parent
              /\ traverseCallExpressionForJSX m d1 M1 sf1 parent
                 = traverseCallExpressionForJSX m d2 M2 sf2 parent).
  { intros m Hm. apply IH0; [assumption|]. now apply sameFragments_below with n. }
  clear IH0.
  assert (Hcut : (d1 >=? M1) = (d2 >=? M2)).
  { destruct (d1 >=? M1) eqn:E1, (d2 >=? M2) eqn:E2; try reflexivity; lia. }
  assert (Hadd : forall x parent, In x (descendants n) ->
                   addIfMarkup x d1 M1 sf1 parent = addIfMarkup x d2 M2 sf2 parent).
  { intros x parent' Hx. unfold addIfMarkup.
    destruct (isMarkup x); [|reflexivity].
    destruct (findExpressionPath _ _); [|reflexivity].
    now apply (IH x Hx d1 M1 d2 M2 parent'). }
  repeat split.
  - rewrite !addJSXSymbol_eq, Hcut. destruct (d2 >=? M2); [reflexivity|].
    do 2 f_equal. apply flat_map_ext_in. intros c Hc.
    apply jsxChild_below in Hc.
    assert (Hd' : d1 + 1 - M1 = d2 + 1 - M2) by lia.
    pose proof (IH c Hc (d1 + 1) M1 (d2 + 1) M2 n Hd') as [Ha [Hf [He _]]].
    unfold addJSXSymbol_child.
    destruct c; try reflexivity;
      try (destruct (findChildPath _ _); [|reflexivity]); try assumption.
    destruct Hsame as [->|Hnone]; [now rewrite Ha, Hf|].
    rewrite Forall_forall in Hnone. apply Hnone in Hc. discriminate.
  - rewrite !processFragmentChildren_eq.
    apply flat_map_ext_in. intros c Hc.
    apply jsxChild_below in Hc.
    pose proof (IH c Hc d1 M1 d2 M2 n Hd) as [Ha [Hf [He _]]].
    unfold processFragmentChildren_child.
    destruct c; try reflexivity;
      try (destruct (findChildPath _ _); [|reflexivity]); assumption.
  - rewrite !processJSXExpression_eq, Hcut. destruct (d2 >=? M2); [reflexivity|].
    destruct n as [| | | | | | | | | | | | | | | | | | | | |l e| | |];
      try reflexivity.
    destruct e; try reflexivity.
    + apply (IH (CallExpression loc0 e arguments)); [subnode|assumption].
    + apply Hadd. apply expression_below. simpl. auto.
    + f_equal; apply Hadd; apply expression_below; simpl; auto.
  - rewrite !traverseCallExpressionForJSX_eq.
    destruct n as [| | | | |l callee args| | | | | | | | | | | | | | | | | | |];
      try reflexivity.
    apply flat_map_ext_in. intros arg Harg.
    assert (Hbody : forall b, In b (descendants arg) ->
              addIfMarkup b d1 M1 sf1 parent = addIfMarkup b d2 M2 sf2 parent).
    { intros b Hb. apply Hadd. now apply callbackBody_below with arg. }
    assert (Hblock : forall l2 sts, In (BlockStatement l2 sts) (subnodes arg) ->
              flat_map (callbackStatement d1 M1 sf1 parent) sts
              = flat_map (callbackStatement d2 M2 sf2 parent) sts).
    { intros l2 sts Hsub. apply flat_map_ext_in. intros st Hst.
      unfold callbackStatement.
      destruct st as [| | | | | | | | | | |l3 [x|]| | | | | | | | | | | | |];
        try reflexivity.
      apply Hbody. apply descendants_trans with (BlockStatement l2 sts).
      - eapply returned_below. exact Hst.
      - now apply subnode_below. }
    unfold callArgument.
    destruct arg; try reflexivity;
      match goal with
      | b : Node |- _ =>
          destruct b; try reflexivity;
          first [ apply Hbody; subnode
                | eapply Hblock; simpl; rewrite ?in_app_iff; simpl; eauto ]
      end.
Qed.

(** At or beyond the limit nothing is emitted. *)
Lemma builder_cut (n : Node) (d M : Z) (sf : bool) (parent : Node) :
  M <= d ->
  addJSXSymbol n d M sf = []
  /\ processFragmentChildren n d M sf = []
  /\ processJSXExpression n d M sf parent = []
  /\ traverseCallExpressionForJSX n d M sf parent = [].
Proof.
  intros Hd.
  pose proof (builder_Forall M sf (fun d' _ => d' < M) (fun _ => True)
                (fun _ _ _ _ => I) (fun _ d' _ _ Hd' _ => Hd') n I d parent)
    as [Ha [Hf [He Hc]]].
  assert (Hnil : forall l : list DocumentSymbol, Forall (fun _ => d < M) l -> l = []).
  { intros [|x l] H; [reflexivity|]. apply Forall_inv in H. lia. }
  repeat split; now apply Hnil.
Qed.

(** *** The parent the search starts from *)

Lemma addIfMarkup_any_parent (x : Node) (d M : Z) (sf : bool) (p1 p2 : Node) :
  In x (descendants p1) -> In x (descendants p2) ->
  addIfMarkup x d M sf p1 = addIfMarkup x d M sf p2.
Proof. intros H1 H2. now rewrite !addIfMarkup_found. Qed.

Lemma callArgument_any_parent (arg : Node) (d M : Z) (sf : bool) (p1 p2 : Node) :
  In arg (descendants p1) -> In arg (descendants p2) ->
  callArgument d M sf p1 arg = callArgument d M sf p2 arg.
Proof.
  intros H1 H2.
  assert (Hbody : forall b, In b (descendants arg) ->
            addIfMarkup b d M sf p1 = addIfMarkup b d M sf p2).
  { intros b Hb.
    apply addIfMarkup_any_parent; now apply descendants_trans with arg. }
  assert (Hblock : forall l2 sts, In (BlockStatement l2 sts) (subnodes arg) ->
            flat_map (callbackStatement d M sf p1) sts
            = flat_map (callbackStatement d M sf p2) sts).
  { intros l2 sts Hsub. apply flat_map_ext_in. intros st Hst.
    unfold callbackStatement.
    destruct st as [| | | | | | | | | | |l3 [x|]| | | | | | | | | | | | |];
      try reflexivity.
    apply Hbody. apply descendants_trans with (BlockStatement l2 sts).
    - eapply returned_below. exact Hst.
    - now apply subnode_below. }
  unfold callArgument.
  destruct arg; try reflexivity;
    match goal with
    | b : Node |- _ =>
        destruct b; try reflexivity;
        first [ apply Hbody; subnode
              | eapply Hblock; simpl; rewrite ?in_app_iff; simpl; eauto ]
    end.
Qed.

Lemma processJSXExpression_any_parent (c : Node) (d M : Z) (sf : bool)
    (p1 p2 : Node) :
  In c (descendants p1) -> In c (descendants p2) ->
  processJSXExpression c d M sf p1 = processJSXExpression c d M sf p2.
Proof.
  intros H1 H2.
  assert (Hbelow : forall x, In x (descendants c) ->
            In x (descendants p1) /\ In x (descendants p2)).
  { intros x Hx. split; now apply descendants_trans with c. }
  rewrite !processJSXExpression_eq. destruct (d >=? M); [reflexivity|].
  destruct c as [| | | | | | | | | | | | | | | | | | | | |l e| | |];
    try reflexivity.
  destruct e; try reflexivity.
  - rewrite !traverseCallExpressionForJSX_eq.
    apply flat_map_ext_in. intros arg Harg.
    assert (Hin : In arg (descendants
                            (JSXExpressionContainer l
                               (CallExpression loc0 e arguments)))).
    { apply expression_below. simpl. auto. }
    apply callArgument_any_parent; now apply Hbelow.
  - apply addIfMarkup_any_parent; apply Hbelow, expression_below; simpl; auto.
  - f_equal; apply addIfMarkup_any_parent; apply Hbelow, expression_below;
      simpl; auto.
Qed.

Lemma addJSXSymbol_child_any_parent (c : Node) (d M : Z) (sf : bool)
    (p1 p2 : Node) :
  In c (descendants p1) -> In c (descendants p2) ->
  addJSXSymbol_child p1 d M sf c = addJSXSymbol_child p2 d M sf c.
Proof.
  intros H1 H2. unfold addJSXSymbol_child.
  destruct (findChildPath_found _ _ H1) as [q1 [Hq1 _]].
  destruct (findChildPath_found _ _ H2) as [q2 [Hq2 _]].
  destruct c; try reflexivity; rewrite ?Hq1, ?Hq2; try reflexivity.
  now apply processJSXExpression_any_parent.
Qed.

End ParserFacts.

(* ================================================================== *)
(** ** The visitor of [getSymbolsFromDocument] *)
(* ================================================================== *)

Module VisitorFacts.
Import Babel VSCode Parser Outline BabelFacts ParserFacts.

(** The visitor pushes the entry of the declaration it is at, and skips
    what is below a declaration it accepts. *)
Lemma visitor_spec (config : WorkspaceConfiguration) (path : NodePath)
    (symbols : list DocumentSymbol) :
  visitor config path symbols =
  (symbols ++ entryOf config path, if accepted path then Skip else Continue).
Proof.
  unfold visitor, entryOf, accepted, acceptedAsHook, componentType.
  destruct (node path) eqn:Hnode; rewrite ?app_nil_r; try reflexivity.
  - destruct (isFunctionComponent path); simpl; [reflexivity|].
    destruct (isCustomHook path); simpl; rewrite ?app_nil_r; [|reflexivity].
    destruct (get (showHooks config) true); now rewrite ?app_nil_r.
  - destruct n as [| |l1 nm| | | | | | | | | | | | | | | | | | | | | |];
      rewrite ?app_nil_r; try reflexivity.
    destruct init as [init|]; rewrite ?app_nil_r; [|reflexivity].
    destruct (isArrowFunctionExpression init), (isFunctionExpression init);
      simpl; rewrite ?app_nil_r; try reflexivity;
      destruct (startsUpper nm && hasJSXReturn (getPath path 1 init))%bool;
      simpl; try reflexivity;
      destruct (startsUseUpper nm); simpl; rewrite ?app_nil_r;
      try reflexivity;
      destruct (get (showHooks config) true); now rewrite ?app_nil_r.
  - destruct (isClassComponent path); simpl; now rewrite ?app_nil_r.
Qed.

Lemma fold_left_push {A B : Type} (f : A -> list B) (l : list A) (acc : list B) :
  fold_left (fun acc x => acc ++ f x) l acc = acc ++ flat_map f l.
Proof.
  revert acc. induction l as [|a l IH]; intros acc; simpl.
  - now rewrite app_nil_r.
  - now rewrite IH, app_assoc.
Qed.

(** The result lists the entries of the declarations the traversal
    reaches, in the order it reaches them. *)
Lemma getSymbolsFromDocument_reached (ast : Node) (config : WorkspaceConfiguration) :
  getSymbolsFromDocument (Some ast) config =
  flat_map (entryOf config)
    (flat_map (reached accepted) (childPaths ast (rootPath ast))).
Proof.
  unfold getSymbolsFromDocument, traverse. simpl node.
  rewrite (visitMultiple_reached (visitor config)
             (fun p s => s ++ entryOf config p) accepted)
    by apply visitor_spec.
  simpl. now rewrite fold_left_push.
Qed.

(** A property of every entry the visitor can push holds of every entry
    of the result. *)
Lemma getSymbolsFromDocument_Forall (P : DocumentSymbol -> Prop)
    (config : WorkspaceConfiguration) :
  (forall path, Forall P (entryOf config path)) ->
  forall parsed, Forall P (getSymbolsFromDocument parsed config).
Proof.
  intros H [ast|]; [|constructor].
  rewrite getSymbolsFromDocument_reached.
  apply Forall_flat_map, Forall_forall. intros path _. apply H.
Qed.

(** *** The body that is scanned is below the declaration *)

Lemma findRender_below (classBody : NodePath) (methods : list Node) :
  forall i bodyPath,
    findRender classBody i methods = Some bodyPath ->
    exists m, In m methods /\ In (node bodyPath) (subnodes m).
Proof.
  induction methods as [|m methods IH]; intros i bodyPath; simpl; [discriminate|].
  assert (Hrest : findRender classBody (S i) methods = Some bodyPath ->
                  exists m', (m = m' \/ In m' methods)
                             /\ In (node bodyPath) (subnodes m')).
  { intros H. destruct (IH _ _ H) as [m' [Hin Hsub]]. exists m'. auto. }
  destruct m; try exact Hrest.
  match goal with
  | |- match match ?k with _ => _ end with _ => _ end = _ -> _ => destruct k; try exact Hrest
  | |- match ?k with _ => _ end = _ -> _ => destruct k; try exact Hrest
  end.
  destruct (String.eqb _ _); [|exact Hrest].
  intros [= <-]. eexists. split; [left; reflexivity|].
  simpl. rewrite in_app_iff. simpl. auto.
Qed.

Lemma getFunctionBody_below (componentPath bodyPath : NodePath) :
  getFunctionBody componentPath = Some bodyPath ->
  In (node bodyPath) (descendants (node componentPath)).
Proof.
  unfold getFunctionBody.
  destruct (node componentPath) eqn:Hnode; try discriminate.
  - intros [= <-]. simpl. subnode.
  - destruct init as [init|]; [|discriminate].
    destruct init; try discriminate; intros [= <-]; simpl;
      match goal with
      | |- In _ (descendants (VariableDeclarator _ _ (Some ?i))) =>
          apply descendants_trans with i; subnode
      end.
  - destruct n; try discriminate. intros H.
    apply findRender_below in H. destruct H as [m [Hm Hsub]].
    apply descendants_trans with m; [now apply subnode_below|].
    match goal with
    | |- In _ (descendants (ClassDeclaration _ _ _ ?b)) =>
        apply descendants_trans with b; subnode
    end.
Qed.

Lemma fold_left_invariant_in {A B : Type} (f : A -> B -> A) (I : A -> Prop)
    (l : list B) :
  (forall x s, In x l -> I s -> I (f s x)) ->
  forall s, I s -> I (fold_left f l s).
Proof.
  induction l as [|x l IH]; intros H s Hs; simpl; [assumption|].
  apply IH.
  - intros y s' Hy. apply H. now right.
  - apply H; [now left|assumption].
Qed.

(** *** A property of every node of the markup tree of a declaration *)

Section TreeForall.
Variables (config : WorkspaceConfiguration) (M : Z).
Variable Good : Z -> DocumentSymbol -> Prop.
Variables (path bodyPath : NodePath).

Hypothesis body_found : getFunctionBody path = Some bodyPath.

(** [Good] is kept by the symbol of every node below the body. *)
Hypothesis Good_node :
  forall n d kids,
    In n (descendants (node bodyPath)) -> d < M -> Forall (Good (d + 1)) kids ->
    Good d
      (mkDocumentSymbol (getJSXTagName n) EmptyString (getJSXSymbolKind (getJSXTagName n))
         (astRangeToVsCodeRange (loc n)) (astRangeToVsCodeRange (loc n)) kids).

Lemma buildJSXTree_Forall : Forall (Good 0) (buildJSXTree path config M).
Proof.
  unfold buildJSXTree. rewrite body_found.
  match goal with |- context [traverse ?e _ _] => set (enter := e) end.
  assert (Henter : forall p s, enter p s = (fst (enter p s), Continue)).
  { intros p [processed pushed]. unfold enter.
    destruct (node p); try reflexivity; destruct (_ && _)%bool; reflexivity. }
  rewrite (traverse_fold enter (fun p s => fst (enter p s)) Henter).
  apply (fold_left_invariant_in (fun s p => fst (enter p s))
           (fun st => Forall (Good 0) (snd st))); [|constructor].
  intros p [processed pushed] Hp Hpushed. simpl in Hpushed.
  assert (Hscope : In (node p) (descendants (node bodyPath))).
  { rewrite <- descendants_of_path. now apply in_map. }
  pose proof (builder_Forall M (get (showFragments config) true) Good
                (fun n => In n (descendants (node bodyPath)))
                (fun n m Hn Hm => descendants_trans m n _ Hm Hn)
                Good_node (node p) Hscope 0 (node p)) as [Hadd [Hfrag _]].
  unfold enter.
  destruct (node p); try assumption;
    destruct (_ && _)%bool; try assumption; simpl;
    apply Forall_app; split; try assumption.
  destruct (get (showFragments config) true); assumption.
Qed.

End TreeForall.

(** A class body without a [render] method has no body to scan. *)
Lemma findRender_none (classBody : NodePath) (methods : list Node) :
  Forall (fun m => isRenderMethod m = false) methods ->
  forall i, findRender classBody i methods = None.
Proof.
  induction 1 as [|m methods Hm _ IH]; intros i; simpl; [reflexivity|].
  destruct m; try apply IH. simpl in Hm.
  match type of Hm with
  | match ?k with _ => _ end = _ => destruct k; try apply IH
  end.
  rewrite Hm. apply IH.
Qed.

(** *** What is reached is below the root *)

Lemma reached_flatten (skipsAt : NodePath -> bool) (t : PathTree) (p : NodePath) :
  In p (reached skipsAt t) -> In p (flatten t).
Proof.
  induction t as [q below IH]. simpl. intros [->|H]; [now left|right].
  destruct (skipsAt q); [contradiction|].
  apply list_all_Forall in IH. rewrite Forall_forall in IH.
  apply in_flat_map in H. destruct H as [t [Ht Hp]].
  apply in_flat_map. exists t. split; [assumption|]. now apply IH.
Qed.

Lemma reached_below (skipsAt : NodePath -> bool) (ast : Node) (p : NodePath) :
  In p (flat_map (reached skipsAt) (childPaths ast (rootPath ast))) ->
  In (node p) (descendants ast).
Proof.
  intros H. apply in_flat_map in H. destruct H as [t [Ht Hp]].
  apply reached_flatten in Hp.
  change ast with (node (rootPath ast)) at 1.
  rewrite <- descendants_of_path. apply in_map.
  unfold descendantPaths. apply in_flat_map. now exists t.
Qed.

(** *** A property of every node below an entry *)

Section EntryForall.
Variables (config : WorkspaceConfiguration) (path : NodePath).
Variable P : DocumentSymbol -> Prop.

(** [P] holds of the markup symbol of every node below the declaration. *)
Hypothesis P_markup :
  forall n kids,
    In n (descendants (node path)) ->
    P (mkDocumentSymbol (getJSXTagName n) EmptyString (getJSXSymbolKind (getJSXTagName n))
         (astRangeToVsCodeRange (loc n)) (astRangeToVsCodeRange (loc n)) kids).

Lemma entryOf_children_Forall :
  Forall (fun entry => Forall P (flat_map symbolsOf (children entry)))
    (entryOf config path).
Proof.
  unfold entryOf.
  destruct (negb (accepted path)); [constructor|].
  destruct (acceptedAsHook path).
  - destruct (get (showHooks config) true); repeat constructor.
  - constructor; [|constructor]. simpl children.
    apply Forall_flat_map.
    destruct (getFunctionBody path) as [bodyPath|] eqn:Hbody;
      [|unfold buildJSXTree; rewrite Hbody; constructor].
    apply (buildJSXTree_Forall config (get (maxJSXDepth config) 2)
             (fun _ s => Forall P (symbolsOf s)) path bodyPath Hbody).
    intros n d kids Hn _ Hkids. simpl. constructor.
    + apply P_markup. apply descendants_trans with (node bodyPath); [assumption|].
      now apply getFunctionBody_below.
    + now apply Forall_flat_map.
Qed.

End EntryForall.

(** *** Each symbol of a tree is the symbol of a markup node *)

Section TreeEmitted.
Variables (config : WorkspaceConfiguration) (M : Z).
Variable Good : Z -> DocumentSymbol -> Prop.
Variables (path bodyPath : NodePath).

Hypothesis body_found : getFunctionBody path = Some bodyPath.

Hypothesis Good_emitted :
  forall n d s,
    In n (descendants (node bodyPath)) -> isMarkup n = true -> d < M ->
    addJSXSymbol n d M (get (showFragments config) true) = [s] ->
    Forall (Good (d + 1)) (children s) ->
    Good d s.

Lemma buildJSXTree_emitted : Forall (Good 0) (buildJSXTree path config M).
Proof.
  unfold buildJSXTree. rewrite body_found.
  match goal with |- context [traverse ?e _ _] => set (enter := e) end.
  assert (Henter : forall p s, enter p s = (fst (enter p s), Continue)).
  { intros p [processed pushed]. unfold enter.
    destruct (node p); try reflexivity; destruct (_ && _)%bool; reflexivity. }
  rewrite (traverse_fold enter (fun p s => fst (enter p s)) Henter).
  apply (fold_left_invariant_in (fun s p => fst (enter p s))
           (fun st => Forall (Good 0) (snd st))); [|constructor].
  intros p [processed pushed] Hp Hpushed. simpl in Hpushed.
  assert (Hscope : In (node p) (descendants (node bodyPath))).
  { rewrite <- descendants_of_path. now apply in_map. }
  pose proof (builder_emitted M (get (showFragments config) true) Good
                (fun n => In n (descendants (node bodyPath)))
                (fun n m Hn Hm => descendants_trans m n _ Hm Hn)
                Good_emitted (node p) Hscope 0 (node p)) as [Hadd [Hfrag _]].
  unfold enter.
  destruct (node p); try assumption;
    destruct (_ && _)%bool; try assumption; simpl;
    apply Forall_app; split; try assumption;
    try (apply Hadd; reflexivity).
  destruct (get (showFragments config) true);
    [apply Hadd; reflexivity|assumption].
Qed.

End TreeEmitted.

Lemma reached_among_paths (skipsAt : NodePath -> bool) (ast : Node) (p : NodePath) :
  In p (flat_map (reached skipsAt) (childPaths ast (rootPath ast))) ->
  In p (descendantPaths (rootPath ast)).
Proof.
  intros H. apply in_flat_map in H. destruct H as [t [Ht Hp]].
  apply reached_flatten in Hp.
  unfold descendantPaths. apply in_flat_map. now exists t.
Qed.

(** *** The statements of a file *)

Lemma Forall2_In_r {A B : Type} (R : A -> B -> Prop) (l : list A) (l' : list B) :
  Forall2 R l l' -> forall b, In b l' -> exists a, In a l /\ R a b.
Proof.
  induction 1 as [|a' b' l l' H _ IH]; intros b; [contradiction|].
  intros [<-|Hb].
  - exists a'. split; [now left|assumption].
  - destruct (IH b Hb) as [a [Ha Hab]]. exists a. split; [now right|assumption].
Qed.

(** The traversal of a file reaches every statement of the program. *)
Lemma statement_reached (fl pl : option SourceLocation) (statements : list Node)
    (c : Node) :
  In c statements ->
  exists p,
    node p = c
    /\ In p
         (flat_map (reached accepted)
            (childPaths (File fl (Program pl statements))
               (rootPath (File fl (Program pl statements))))).
Proof.
  intros Hc. cbn [childPaths flat_map reached]. rewrite app_nil_r.
  set (programPath := mkNodePath (Program pl statements) (0%nat, 0%nat)
                        (Some (rootPath (File fl (Program pl statements))))).
  destruct (Forall2_In_r _ _ _ (pathsOfList_spec programPath 0 statements 0) c Hc)
    as [t [Ht [k ->]]].
  exists (mkNodePath c k (Some programPath)). split; [reflexivity|].
  right. change (accepted programPath) with false. cbn iota.
  apply in_flat_map. exists (childPath programPath k c).
  split; [exact Ht|now left].
Qed.

Lemma isClassComponent_node (p q : NodePath) :
  node p = node q -> isClassComponent p = isClassComponent q.
Proof. intros H. unfold isClassComponent. now rewrite H. Qed.

(** A result the code returns is the result of the traversal. *)
Lemma getSymbolsFromDocumentOrThrow_returns (crawls : Node -> bool) (ast : Node)
    (config : WorkspaceConfiguration) (result : list DocumentSymbol) :
  Further.getSymbolsFromDocumentOrThrow crawls (Some ast) config = Some result ->
  result = getSymbolsFromDocument (Some ast) config.
Proof.
  unfold Further.getSymbolsFromDocumentOrThrow.
  destruct (crawls ast); congruence.
Qed.

(** *** Ranges the editor accepts *)

Lemma newRange_ordered (a b : Position) :
  Further.isBefore b a = false -> Further.newRange a b = mkRange a b.
Proof.
  unfold Further.newRange, Further.isBefore. destruct a as [la ca], b as [lb cb]. simpl.
  destruct (lb <? la) eqn:E1; [discriminate|].
  destruct (la <? lb) eqn:E2; [reflexivity|].
  intros Hc. destruct (ca <? cb) eqn:E3; [reflexivity|].
  f_equal; f_equal; lia.
Qed.

End VisitorFacts.

(* ================================================================== *)
(** ** The properties *)
(* ================================================================== *)

Module Claims.
Import Babel VSCode Parser Outline Examples BabelFacts ParserFacts VisitorFacts.

(** *** Expression-bodied arrow components *)

(** C1 -- on [const Button = ({label}) => (<button><span>{label}</span></button>)]
    with [maxDepth = 2] the code does not root the tree at [button]: the
    traversal of the body starts below the body, the element that is the
    body is never visited, and its child [span], whose parent is the body,
    passes [isTopLevelJSX].  The entry "Button" gets the single child
    "span", which has no children. *)
Theorem scenario_A_outline :
  map shapeOf (getSymbolsFromDocument (Some scenarioA) (config 2 true)) =
  [Sh "Button" [Sh "span" []]].
Proof. vm_compute. reflexivity. Qed.

(** The same component with a block body, [=> { return <button>...</button> }],
    is rooted at [button]. *)
Lemma scenario_A_block_outline :
  map shapeOf (getSymbolsFromDocument (Some scenarioA_block) (config 2 true)) =
  [Sh "Button" [Sh "button" [Sh "span" []]]].
Proof. vm_compute. reflexivity. Qed.

(** The element that is the body is not below the body, and its child is
    top-level in the body. *)
Lemma body_child_is_top_level (bodyPath : NodePath) (k : Key) (c : Node) :
  isTopLevelJSX (mkNodePath c k (Some bodyPath)) bodyPath = true.
Proof.
  unfold isTopLevelJSX. simpl.
  destruct bodyPath as [n k' up]. simpl.
  now rewrite NodePath_eqb_refl.
Qed.

(** Whatever the component, the roots of its markup tree stand for nodes
    below the body that is scanned, never for the body: where the body is
    itself the element rendered, as in an arrow function without braces,
    that element is not in the tree. *)
Lemma roots_below_body (path bodyPath : NodePath)
    (config : WorkspaceConfiguration) (M : Z) :
  getFunctionBody path = Some bodyPath ->
  Forall
    (fun s =>
       exists n,
         In n (descendants (node bodyPath)) /\ n <> node bodyPath
         /\ name s = getJSXTagName n
         /\ range s = astRangeToVsCodeRange (loc n))
    (buildJSXTree path config M).
Proof.
  intros Hbody.
  apply (buildJSXTree_Forall config M
           (fun _ s =>
              exists n,
                In n (descendants (node bodyPath)) /\ n <> node bodyPath
                /\ name s = getJSXTagName n
                /\ range s = astRangeToVsCodeRange (loc n))
           path bodyPath Hbody).
  intros n d kids Hn _ _. exists n. repeat split; try assumption.
  intros ->. now apply not_below_itself in Hn.
Qed.

(** *** Classes without a render method *)

(** C3, on the code -- [class Widget extends React.Component { tick() {} }]
    has no method named [render] and is listed all the same. *)
Lemma widget_without_render_is_listed :
  Forall (fun m => isRenderMethod m = false)
    [ClassMethod (on 1 39 48) (Identifier (on 1 39 43) "tick") []
       (BlockStatement (on 1 46 48) [])]
  /\ getSymbolsFromDocument (Some widgetFile) (config 2 true) =
     [mkDocumentSymbol "Widget" "Class Component" KindClass
        (mkRange (mkPosition 0 0) (mkPosition 0 50))
        (mkRange (mkPosition 0 0) (mkPosition 0 50)) []].
Proof. split; [repeat constructor|vm_compute; reflexivity]. Qed.

(** C3, amended -- a class declaration with an uppercase-starting name and
    a qualifying superclass ([isClassComponent]) gives a "Class Component"
    entry whether or not it has a method named [render]: wherever the
    visitor is at the class, it pushes one entry with the name and the
    range of the class, whose children are the markup tree of the class,
    and skips what is below; without a method named [render] the entry
    has no children; and when the class is a statement of the program,
    the entry is in every result the code returns for the file. *)
Theorem class_entry_with_or_without_render (config : WorkspaceConfiguration)
    (path : NodePath) (l : option SourceLocation) (id superClass : option Node)
    (cl : option SourceLocation) (members : list Node) :
  node path = ClassDeclaration l id superClass (ClassBody cl members) ->
  isClassComponent path = true ->
  let entry := fun p : NodePath =>
    mkDocumentSymbol (getComponentName path) "Class Component" KindClass
      (astRangeToVsCodeRange l) (astRangeToVsCodeRange l)
      (buildJSXTree p config (get (maxJSXDepth config) 2)) in
  (exists n,
      idName id = Some n /\ startsUpper n = true /\ getComponentName path = n)
  /\ (forall symbols,
        visitor config path symbols = (symbols ++ [entry path], Skip))
  /\ (forall p,
        node p = node path ->
        Forall (fun m => isRenderMethod m = false) members ->
        buildJSXTree p config (get (maxJSXDepth config) 2) = [])
  /\ (forall crawls fl pl statements result,
        In (node path) statements ->
        Further.getSymbolsFromDocumentOrThrow crawls
          (Some (File fl (Program pl statements))) config = Some result ->
        exists p, node p = node path /\ In (entry p) result).
Proof.
  intros Hnode Hclass entry. repeat split.
  - unfold isClassComponent in Hclass. unfold getComponentName.
    rewrite Hnode in *. destruct (idName id) as [n|]; [|discriminate].
    exists n. destruct (startsUpper n) eqn:Hn; [|discriminate].
    repeat split. destruct n; [discriminate|reflexivity].
  - intros symbols. unfold visitor. rewrite Hnode, Hclass.
    unfold entry, createComponentSymbol. now rewrite Hnode.
  - intros p Hp Hmembers. unfold buildJSXTree, getFunctionBody.
    rewrite Hp, Hnode. now rewrite (findRender_none _ _ Hmembers).
  - intros crawls fl pl statements result Hin Hresult.
    apply getSymbolsFromDocumentOrThrow_returns in Hresult. subst result.
    destruct (statement_reached fl pl statements _ Hin) as [p [Hp Hreached]].
    exists p. split; [assumption|].
    rewrite getSymbolsFromDocument_reached. apply in_flat_map.
    exists p. split; [assumption|].
    unfold entryOf, accepted, acceptedAsHook, componentType.
    rewrite Hp, Hnode, (isClassComponent_node p path Hp), Hclass. simpl.
    left. unfold entry, createComponentSymbol, getComponentName.
    now rewrite Hp, Hnode.
Qed.

(** The class without [render] of the counterexample, and the class of
    Scenario B, which has one. *)
Lemma class_entry_with_or_without_render_witness :
  visitor (config 2 true) widgetPath [] =
  ([mkDocumentSymbol "Widget" "Class Component" KindClass
      (mkRange (mkPosition 0 0) (mkPosition 0 50))
      (mkRange (mkPosition 0 0) (mkPosition 0 50)) []],
   Skip)
  /\ visitor (config 2 true) (statementPath todoList) [] =
     ([mkDocumentSymbol "TodoList" "Class Component" KindClass
         (mkRange (mkPosition 0 0) (mkPosition 0 0))
         (mkRange (mkPosition 0 0) (mkPosition 0 0))
         (buildJSXTree (statementPath todoList) (config 2 true) 2)],
      Skip)
  /\ buildJSXTree (statementPath todoList) (config 2 true) 2 <> [].
Proof.
  split; [|split].
  - destruct (class_entry_with_or_without_render (config 2 true) widgetPath
                (on 1 0 50) _ _ _ _ eq_refl eq_refl)
      as [_ [Hpushed [Hnone _]]].
    rewrite Hpushed. cbv beta zeta.
    rewrite (Hnone widgetPath eq_refl) by repeat constructor.
    reflexivity.
  - destruct (class_entry_with_or_without_render (config 2 true)
                (statementPath todoList) None _ _ _ _ eq_refl eq_refl)
      as [_ [Hpushed _]].
    rewrite Hpushed. reflexivity.
  - vm_compute. discriminate.
Defined.

(** *** Functions without markup *)

(** C8 -- at a function declaration, or at a variable declarator (whatever
    its initializer), with no markup element or fragment anywhere below it
    and a bound name that is not a hook name, the visitor pushes nothing
    and goes on, also when the name starts with an uppercase letter. *)
Theorem no_markup_no_entry (config : WorkspaceConfiguration) (path : NodePath)
    (symbols : list DocumentSymbol) :
  (isFunctionDeclaration (node path) || isVariableDeclarator (node path))%bool = true ->
  Forall (fun m => isMarkup m = false) (descendants (node path)) ->
  (forall s, boundName (node path) = Some s -> startsUseUpper s = false) ->
  visitor config path symbols = (symbols, Continue).
Proof.
  intros Hkind Hnone Hname.
  assert (Hbelow : forall m, In m (descendants (node path)) -> isMarkup m = false)
    by now apply Forall_forall.
  assert (Hno : forall n, (n = node path \/ In n (descendants (node path))) ->
                  existsb isMarkup (descendants n) = false).
  { intros n Hn. destruct (existsb isMarkup (descendants n)) eqn:E; [|reflexivity].
    apply existsb_exists in E. destruct E as [m [Hm Hmarkup]].
    rewrite Hbelow in Hmarkup; [discriminate|].
    destruct Hn as [->|Hn]; [assumption|]. now apply descendants_trans with n. }
  unfold visitor.
  destruct (node path) eqn:Hnode; try discriminate.
  - unfold isFunctionComponent, isCustomHook. rewrite Hnode.
    rewrite hasJSXReturn_spec, Hnode, (Hno _ (or_introl eq_refl)).
    simpl in Hname. destruct (idName id) as [s|]; [|reflexivity].
    now rewrite andb_false_r, (Hname s eq_refl).
  - destruct n; try reflexivity. destruct init as [init|]; [|reflexivity].
    rewrite hasJSXReturn_spec. simpl node.
    rewrite (Hno init) by (right; subnode).
    rewrite andb_false_r. simpl in Hname. rewrite (Hname _ eq_refl).
    now destruct (negb _ && negb _)%bool.
Qed.

Lemma no_markup_no_entry_witness :
  visitor (config 2 true) plainPath [] = ([], Continue).
Proof.
  apply (no_markup_no_entry (config 2 true) plainPath []).
  - reflexivity.
  - vm_compute. repeat constructor.
  - intros s [= <-]. reflexivity.
Defined.

(** *** The depth limit *)

(** C2 -- in every tree produced, for every input and configuration, the
    markup nodes sit at depths (the children of the entry at depth 0) from
    0 up to, and not including, [maxDepth]; so an entry has children only
    if [maxDepth] is positive, and none with [maxDepth = 0]. *)
Theorem depth_invariant (parsed : option Node) (config : WorkspaceConfiguration) :
  Forall
    (fun entry =>
       Forall (fun k => 0 <= k < get (maxJSXDepth config) 2) (markupDepths entry)
       /\ (children entry = [] \/ 0 < get (maxJSXDepth config) 2))
    (getSymbolsFromDocument parsed config).
Proof.
  apply getSymbolsFromDocument_Forall. intros path.
  set (M := get (maxJSXDepth config) 2).
  assert (Htree : Forall (fun s => Forall (fun k => 0 <= k < M) (depthsFrom 0 s))
                    (buildJSXTree path config M)).
  { destruct (getFunctionBody path) as [bodyPath|] eqn:Hbody;
      [|unfold buildJSXTree; rewrite Hbody; constructor].
    pose proof (buildJSXTree_Forall config M
                  (fun d s => 0 <= d -> Forall (fun k => 0 <= k < M) (depthsFrom d s))
                  path bodyPath Hbody) as H.
    eapply Forall_impl; [|apply H].
    - intros s Hs. apply Hs. lia.
    - intros n d kids _ Hd Hkids Hpos. simpl. constructor; [lia|].
      apply Forall_flat_map. eapply Forall_impl; [|exact Hkids].
      intros s Hs. apply Hs. lia. }
  unfold entryOf.
  destruct (negb (accepted path)); [constructor|].
  destruct (acceptedAsHook path).
  - destruct (get (showHooks config) true); repeat constructor.
  - constructor; [|constructor]. unfold markupDepths. simpl children. fold M.
    split; [now apply Forall_flat_map|].
    destruct (buildJSXTree path config M) as [|s rest]; [now left|right].
    apply Forall_inv in Htree. destruct s. simpl in Htree.
    apply Forall_inv in Htree. lia.
Qed.

(** *** Source ranges *)

(** C9 -- for a location as the parser gives it, the range is the
    location with both lines decremented by one and the columns unchanged,
    and the editor's constructors accept it as it is; a missing location
    gives the zero-width range at the start of the document, and nothing
    throws.  Every entry of the result carries, as range and as selection
    range, the range so computed from the location of the declaration the
    visitor pushed it at, and every symbol below an entry the range so
    computed from the location of the markup node [addJSXSymbol] made it
    for. *)
Theorem ranges_from_locations :
  (forall l,
      Further.parserLocation l = true ->
      Further.astRangeToVsCodeRangeOrThrow (Some l) =
      Some
        (mkRange (mkPosition (line (loc_start l) - 1) (column (loc_start l)))
                 (mkPosition (line (loc_end l) - 1) (column (loc_end l))))
      /\ astRangeToVsCodeRange (Some l) =
         mkRange (mkPosition (line (loc_start l) - 1) (column (loc_start l)))
                 (mkPosition (line (loc_end l) - 1) (column (loc_end l))))
  /\ (Further.astRangeToVsCodeRangeOrThrow None
      = Some (mkRange (mkPosition 0 0) (mkPosition 0 0))
      /\ astRangeToVsCodeRange None = mkRange (mkPosition 0 0) (mkPosition 0 0))
  /\ forall ast config,
       Forall
         (fun entry =>
            (exists p,
                In p (descendantPaths (rootPath ast))
                /\ fst (visitor config p []) = [entry]
                /\ range entry = astRangeToVsCodeRange (loc (node p))
                /\ selectionRange entry = astRangeToVsCodeRange (loc (node p)))
            /\ Forall
                 (fun s =>
                    exists m d,
                      In m (descendants ast) /\ isMarkup m = true
                      /\ addJSXSymbol m d (get (maxJSXDepth config) 2)
                           (get (showFragments config) true) = [s]
                      /\ range s = astRangeToVsCodeRange (loc m)
                      /\ selectionRange s = astRangeToVsCodeRange (loc m))
                 (flat_map symbolsOf (children entry)))
         (getSymbolsFromDocument (Some ast) config).
Proof.
  split; [|split].
  - intros [[l1 c1] [l2 c2]]. unfold Further.parserLocation. simpl.
    rewrite !andb_true_iff, orb_true_iff, andb_true_iff.
    rewrite !Z.leb_le, Z.ltb_lt, Z.eqb_eq.
    intros [[[[H1 H2] H3] H4] H5]. split; [|reflexivity].
    unfold Further.astRangeToVsCodeRangeOrThrow, Further.newPosition. simpl.
    replace (l1 - 1 <? 0) with false by lia.
    replace (c1 <? 0) with false by lia.
    replace (l2 - 1 <? 0) with false by lia.
    replace (c2 <? 0) with false by lia.
    simpl. f_equal. apply newRange_ordered. unfold Further.isBefore. simpl.
    destruct (l2 - 1 <? l1 - 1) eqn:E1; [lia|].
    destruct (l1 - 1 <? l2 - 1) eqn:E2; [reflexivity|]. lia.
  - split; reflexivity.
  - intros ast config. rewrite getSymbolsFromDocument_reached.
    apply Forall_flat_map, Forall_forall. intros path Hpath.
    pose proof (reached_among_paths _ _ _ Hpath) as Hamong.
    apply reached_below in Hpath.
    pose proof (visitor_spec config path []) as Hvisitor.
    apply (f_equal fst) in Hvisitor. simpl in Hvisitor.
    revert Hvisitor. unfold entryOf.
    destruct (negb (accepted path)); [constructor|].
    destruct (acceptedAsHook path).
    + destruct (get (showHooks config) true); [|constructor].
      intros Hvisitor. constructor; [|constructor]. split; [|constructor].
      exists path. repeat split; assumption.
    + intros Hvisitor. constructor; [|constructor]. split.
      * exists path. repeat split; assumption.
      * simpl children. apply Forall_flat_map.
        destruct (getFunctionBody path) as [bodyPath|] eqn:Hbody;
          [|unfold buildJSXTree; rewrite Hbody; constructor].
        apply (buildJSXTree_emitted config (get (maxJSXDepth config) 2)
                 (fun _ s =>
                    Forall
                      (fun s =>
                         exists m d,
                           In m (descendants ast) /\ isMarkup m = true
                           /\ addJSXSymbol m d (get (maxJSXDepth config) 2)
                                (get (showFragments config) true) = [s]
                           /\ range s = astRangeToVsCodeRange (loc m)
                           /\ selectionRange s = astRangeToVsCodeRange (loc m))
                      (symbolsOf s))
                 path bodyPath Hbody).
        intros n d s Hn Hmarkup Hd Hs Hkids.
        destruct s as [nm dt kd rg sel kids]. simpl. constructor.
        -- exists n, d. split.
           { apply descendants_trans with (node bodyPath); [assumption|].
             apply descendants_trans with (node path); [|assumption].
             now apply getFunctionBody_below. }
           split; [assumption|]. split; [assumption|].
           rewrite addJSXSymbol_eq in Hs.
           destruct (d >=? get (maxJSXDepth config) 2); [discriminate|].
           injection Hs as _ _ _ <- <- _. split; reflexivity.
        -- now apply Forall_flat_map.
Qed.

(** *** Nested declarations *)

(** C4, on the code -- in the test file's [Parent], whose body declares
    [Child], the result has the one entry "Parent": the inner declaration
    gets no entry of its own, and what it renders is listed under
    "Parent". *)
Lemma nested_in_component_not_listed :
  isFunctionComponent
    (mkNodePath childDecl (0%nat, 0%nat)
       (Some (getPath pathOfParent 2 (BlockStatement None
                [childDecl; ret (el "div" [el "Child" []])])))) = true
  /\ map shapeOf (getSymbolsFromDocument (Some parentFile) (config 2 true)) =
     [Sh "Parent" [Sh "div" [Sh "span" []]; Sh "div" [Sh "Child" []]]]
  /\ ~ In "Child"
       (map name (getSymbolsFromDocument (Some parentFile) (config 2 true))).
Proof.
  split; [vm_compute; reflexivity|]. split; [vm_compute; reflexivity|].
  vm_compute. intros [H|[]]. discriminate.
Qed.

(** The same inner declaration in a function that is not accepted has its
    own entry. *)
Lemma nested_in_plain_function_listed :
  map shapeOf (getSymbolsFromDocument (Some helperFile) (config 2 true)) =
  [Sh "Child" [Sh "div" [Sh "span" []]]].
Proof. vm_compute. reflexivity. Qed.

(** C4, amended -- visiting a function declaration, with whatever is
    declared below it: when the declaration is accepted as a component or
    a hook, its own entry is all that is pushed and what is nested in it
    gets no entry; when it is not accepted, the traversal goes on below it
    and pushes, onto the same top-level sequence, the entries of the
    declarations it reaches there.  In both cases what is below an entry
    is markup only, so no declaration appears as a child. *)
Theorem nested_declarations (config : WorkspaceConfiguration) (outer : NodePath)
    (below : list PathTree) (symbols : list DocumentSymbol) :
  isFunctionDeclaration (node outer) = true ->
  fst (visit (visitor config) (PT outer below) symbols) =
  symbols ++
  (if accepted outer then entryOf config outer
   else flat_map (entryOf config) (flat_map (reached accepted) below))
  /\ Forall
       (fun entry =>
          Forall (fun s => isMarkupSymbol s = true)
            (flat_map symbolsOf (children entry)))
       (entryOf config outer).
Proof.
  intros Hkind. split.
  - rewrite visit_eq, visitor_spec.
    destruct (accepted outer) eqn:Hacc; [reflexivity|].
    rewrite (visitMultiple_reached (visitor config)
               (fun p s => s ++ entryOf config p) accepted)
      by apply visitor_spec.
    simpl. rewrite fold_left_push.
    unfold entryOf at 1. rewrite Hacc. simpl. now rewrite app_nil_r.
  - apply entryOf_children_Forall. reflexivity.
Qed.

Lemma nested_declarations_witness :
  fst (visit (visitor (config 2 true))
         (PT pathOfParent (childPaths (node pathOfParent) pathOfParent)) []) =
  [] ++ entryOf (config 2 true) pathOfParent
  /\ Forall
       (fun entry =>
          Forall (fun s => isMarkupSymbol s = true)
            (flat_map symbolsOf (children entry)))
       (entryOf (config 2 true) pathOfParent).
Proof.
  apply (nested_declarations (config 2 true) pathOfParent
           (childPaths (node pathOfParent) pathOfParent) []).
  reflexivity.
Defined.

(** *** Fragments *)

(** C5, on the code -- [function A() { return <><div/></> }] with
    [maxDepth = 1]: with fragments shown the tree is the fragment alone,
    its [div] cut by the limit; with fragments hidden it is the [div].
    Neither has a node more than the other, and the [div] of the second is
    not under the fragment of the first. *)
Lemma fragment_at_the_limit :
  map shapeOf (getSymbolsFromDocument (Some fragmentFile) (config 1 true)) =
  [Sh "A" [Sh "<Fragment>" []]]
  /\ map shapeOf (getSymbolsFromDocument (Some fragmentFile) (config 1 false)) =
     [Sh "A" [Sh "div" []]]
  /\ ~ (exists under,
          map shapeOf (getSymbolsFromDocument (Some fragmentFile) (config 1 true)) =
          [Sh "A" [Sh "<Fragment>" under]]
          /\ map shapeOf
               (getSymbolsFromDocument (Some fragmentFile) (config 1 false)) =
             [Sh "A" under]).
Proof.
  split; [vm_compute; reflexivity|]. split; [vm_compute; reflexivity|].
  intros [under [H1 H2]]. vm_compute in H1, H2.
  injection H1 as <-. discriminate.
Qed.

(** C5, amended -- for a fragment with no other fragment below it, at
    depth [d] under the limit [M]:
    shown, it is one node "<Fragment>" whose children are what the hidden
    fragment contributes at the same depth [d] under the limit [M - 1]
    (nothing at all when [d >= M]);
    hidden, it contributes at depth [d] the children of the node it would
    be under the limit [M + 1] (nothing when [d >= M]);
    and as a child of a markup node at depth [d] it is shown at depth
    [d + 1], or hidden with its children processed at that depth
    [d + 1]. *)
Theorem fragment_toggle (l : option SourceLocation) (cs : list Node) (d M : Z) :
  Forall (fun m => isJSXFragment m = false) (descendants (JSXFragment l cs)) ->
  addJSXSymbol (JSXFragment l cs) d M true =
    (if d >=? M then []
     else [mkDocumentSymbol "<Fragment>" EmptyString KindNamespace
             (astRangeToVsCodeRange l) (astRangeToVsCodeRange l)
             (processFragmentChildren (JSXFragment l cs) d (M - 1) false)])
  /\ processFragmentChildren (JSXFragment l cs) d M false =
     (if d >=? M then []
      else flat_map children (addJSXSymbol (JSXFragment l cs) d (M + 1) true))
  /\ forall p sf,
       In (JSXFragment l cs) (getJSXChildren p) ->
       addJSXSymbol_child p d M sf (JSXFragment l cs) =
       if sf then addJSXSymbol (JSXFragment l cs) (d + 1) M sf
       else processFragmentChildren (JSXFragment l cs) (d + 1) M sf.
Proof.
  intros Hnone.
  assert (Hshown : forall d M,
            addJSXSymbol (JSXFragment l cs) d M true =
            (if d >=? M then []
             else [mkDocumentSymbol "<Fragment>" EmptyString KindNamespace
                     (astRangeToVsCodeRange l) (astRangeToVsCodeRange l)
                     (processFragmentChildren (JSXFragment l cs) d (M - 1) false)])).
  { clear d M. intros d M. rewrite addJSXSymbol_eq. simpl getJSXTagName.
    destruct (d >=? M); [reflexivity|]. do 2 f_equal.
    rewrite processFragmentChildren_eq. apply flat_map_ext_in. intros c Hc.
    apply (jsxChild_below (JSXFragment l cs)) in Hc.
    assert (Hsame : sameFragments true false c).
    { apply sameFragments_below with (JSXFragment l cs); [now right|assumption]. }
    assert (Hd : d + 1 - M = d - (M - 1)) by lia.
    pose proof (builder_agree true false c Hsame (d + 1) M d (M - 1)
                  (JSXFragment l cs) Hd) as [Ha [_ [He _]]].
    unfold addJSXSymbol_child, processFragmentChildren_child.
    destruct c; try reflexivity;
      try (destruct (findChildPath _ _); [|reflexivity]); try assumption.
    rewrite Forall_forall in Hnone. apply Hnone in Hc. discriminate. }
  split; [apply Hshown|]. split.
  - destruct (d >=? M) eqn:E.
    + apply (builder_cut (JSXFragment l cs) d M false (JSXFragment l cs)). lia.
    + rewrite Hshown. replace (d >=? M + 1) with false by lia.
      simpl. rewrite app_nil_r. now replace (M + 1 - 1) with M by lia.
  - intros p sf Hp. unfold addJSXSymbol_child.
    destruct (findChildPath_found _ _ (jsxChild_below _ _ Hp)) as [q [-> _]].
    now destruct sf.
Qed.

Lemma fragment_toggle_witness :
  addJSXSymbol fragmentOfDiv 0 2 true =
    [mkDocumentSymbol "<Fragment>" EmptyString KindNamespace
       (astRangeToVsCodeRange None) (astRangeToVsCodeRange None)
       (processFragmentChildren fragmentOfDiv 0 (2 - 1) false)]
  /\ processFragmentChildren fragmentOfDiv 0 2 false =
     flat_map children (addJSXSymbol fragmentOfDiv 0 (2 + 1) true)
  /\ forall p sf,
       In fragmentOfDiv (getJSXChildren p) ->
       addJSXSymbol_child p 0 2 sf fragmentOfDiv =
       if sf then addJSXSymbol fragmentOfDiv (0 + 1) 2 sf
       else processFragmentChildren fragmentOfDiv (0 + 1) 2 sf.
Proof.
  apply (fragment_toggle None [el "div" []] 0 2).
  vm_compute. repeat constructor.
Defined.

(** *** Embedded expressions *)

Lemma withChildren_children (p : Node) (cs : list Node) :
  isMarkup p = true -> getJSXChildren (withChildren p cs) = cs.
Proof. destruct p; try discriminate; reflexivity. Qed.

Lemma withChildren_tag (p : Node) (cs : list Node) :
  getJSXTagName (withChildren p cs) = getJSXTagName p.
Proof. destruct p; reflexivity. Qed.

Lemma withChildren_loc (p : Node) (cs : list Node) :
  loc (withChildren p cs) = loc p.
Proof. destruct p; reflexivity. Qed.

(** The children of the symbol of a markup node, child by child. *)
Lemma addJSXSymbol_children (p : Node) (cs : list Node) (d M : Z) (sf : bool) :
  isMarkup p = true -> d < M ->
  flat_map children (addJSXSymbol (withChildren p cs) d M sf) =
  flat_map (addJSXSymbol_child (withChildren p cs) d M sf) cs.
Proof.
  intros Hp Hd. rewrite addJSXSymbol_eq.
  replace (d >=? M) with false by lia.
  simpl. now rewrite app_nil_r, withChildren_children.
Qed.

(** The children of a markup node with the children [pre ++ c :: post]:
    those it has with [pre] alone, what [c] gives, those it has with
    [post] alone. *)
Lemma addJSXSymbol_split (p c : Node) (pre post : list Node) (d M : Z) (sf : bool) :
  isMarkup p = true -> d < M ->
  addJSXSymbol (withChildren p (pre ++ c :: post)) d M sf =
  [mkDocumentSymbol (getJSXTagName p) EmptyString (getJSXSymbolKind (getJSXTagName p))
     (astRangeToVsCodeRange (loc p)) (astRangeToVsCodeRange (loc p))
     (flat_map children (addJSXSymbol (withChildren p pre) d M sf)
      ++ addJSXSymbol_child (withChildren p (pre ++ c :: post)) d M sf c
      ++ flat_map children (addJSXSymbol (withChildren p post) d M sf))].
Proof.
  intros Hp Hd.
  rewrite !addJSXSymbol_children by assumption.
  rewrite addJSXSymbol_eq, withChildren_tag, withChildren_loc.
  rewrite withChildren_children by assumption.
  replace (d >=? M) with false by lia.
  do 2 f_equal. rewrite flat_map_app. simpl.
  assert (Hin : forall cs x, In x cs -> In x (descendants (withChildren p cs))).
  { intros cs x Hx. apply jsxChild_below.
    now rewrite withChildren_children. }
  f_equal; [|f_equal]; apply flat_map_ext_in; intros x Hx;
    apply addJSXSymbol_child_any_parent; apply Hin;
    rewrite ?in_app_iff; simpl; auto.
Qed.

(** C6 -- for a child [{a && b}] of a markup node emitted at depth [d]
    (so [d < maxDepth]), [b] being a markup element or fragment: the
    children of the node are those given by the children before, then what
    [addJSXSymbol] gives for [b] at depth [d + 1], then those given by the
    children after.  So nothing stands for [a], for the braces or for the
    expression; [b] is a child of the node, one node carrying [b]'s tag and
    range when [d + 1] is within the limit; and the tree is the one of the
    same node with [b] written as a plain child (an element, or a fragment
    when fragments are shown). *)
Theorem logical_and_child (p a b : Node) (pre post : list Node)
    (cl el : option SourceLocation) (d M : Z) (sf : bool) :
  isMarkup p = true -> isMarkup b = true -> d < M ->
  addJSXSymbol
    (withChildren p
       (pre ++ JSXExpressionContainer cl (LogicalExpression el OpAnd a b) :: post))
    d M sf =
  [mkDocumentSymbol (getJSXTagName p) EmptyString (getJSXSymbolKind (getJSXTagName p))
     (astRangeToVsCodeRange (loc p)) (astRangeToVsCodeRange (loc p))
     (flat_map children (addJSXSymbol (withChildren p pre) d M sf)
      ++ addJSXSymbol b (d + 1) M sf
      ++ flat_map children (addJSXSymbol (withChildren p post) d M sf))]
  /\ addJSXSymbol b (d + 1) M sf =
     (if d + 1 >=? M then []
      else [mkDocumentSymbol (getJSXTagName b) EmptyString
              (getJSXSymbolKind (getJSXTagName b))
              (astRangeToVsCodeRange (loc b)) (astRangeToVsCodeRange (loc b))
              (flat_map (addJSXSymbol_child b (d + 1) M sf) (getJSXChildren b))])
  /\ ((isJSXElement b || sf)%bool = true ->
      addJSXSymbol (withChildren p (pre ++ b :: post)) d M sf =
      addJSXSymbol
        (withChildren p
           (pre ++ JSXExpressionContainer cl (LogicalExpression el OpAnd a b)
                :: post))
        d M sf).
Proof.
  intros Hp Hb Hd.
  set (c := JSXExpressionContainer cl (LogicalExpression el OpAnd a b)).
  assert (Hc : addJSXSymbol_child (withChildren p (pre ++ c :: post)) d M sf c =
               addJSXSymbol b (d + 1) M sf).
  { unfold addJSXSymbol_child, c. rewrite processJSXExpression_eq.
    destruct (d + 1 >=? M) eqn:E.
    - symmetry. apply (builder_cut b (d + 1) M sf b). lia.
    - rewrite addIfMarkup_found, Hb; [reflexivity|].
      apply descendants_trans with c.
      + apply expression_below. simpl. auto.
      + apply jsxChild_below. rewrite withChildren_children by assumption.
        rewrite in_app_iff. simpl. auto. }
  split; [|split].
  - rewrite addJSXSymbol_split by assumption. now rewrite Hc.
  - apply addJSXSymbol_eq.
  - intros Hplain. rewrite !addJSXSymbol_split by assumption. rewrite Hc.
    do 3 f_equal. unfold addJSXSymbol_child.
    assert (Hin : In b (descendants (withChildren p (pre ++ b :: post)))).
    { apply jsxChild_below. rewrite withChildren_children by assumption.
      rewrite in_app_iff. simpl. auto. }
    destruct (findChildPath_found _ _ Hin) as [q [Hq _]].
    destruct b; try discriminate; rewrite Hq; [reflexivity|].
    simpl in Hplain. now rewrite Hplain.
Qed.

Lemma logical_and_child_witness :
  addJSXSymbol divGuarded 0 2 true =
  [mkDocumentSymbol "div" EmptyString KindField
     (astRangeToVsCodeRange None) (astRangeToVsCodeRange None)
     ([] ++ addJSXSymbol (el "span" []) (0 + 1) 2 true ++ [])]
  /\ addJSXSymbol (el "span" []) (0 + 1) 2 true =
     [mkDocumentSymbol "span" EmptyString KindField
        (astRangeToVsCodeRange None) (astRangeToVsCodeRange None) []]
  /\ (true = true ->
      addJSXSymbol (el "div" [el "span" []]) 0 2 true =
      addJSXSymbol divGuarded 0 2 true).
Proof.
  apply (logical_and_child (el "div" []) (Identifier None "x") (el "span" [])
           [] [] None None 0 2 true).
  - reflexivity.
  - reflexivity.
  - lia.
Defined.

(** C10 -- for an embedded expression [{a OP b}], whatever the operator
    ([&&], [||], [??]) and whatever [a]: what it gives is one node for [b],
    with [b]'s tag and range, when [b] is a markup element or fragment and
    the depth is within the limit, and nothing otherwise. *)
Theorem logical_operator_insensitive (cl el : option SourceLocation)
    (op : LogicalOperator) (a b : Node) (d M : Z) (sf : bool) (parent : Node) :
  In (JSXExpressionContainer cl (LogicalExpression el op a b)) (descendants parent) ->
  processJSXExpression (JSXExpressionContainer cl (LogicalExpression el op a b))
    d M sf parent =
  if (isMarkup b && negb (d >=? M))%bool then
    [mkDocumentSymbol (getJSXTagName b) EmptyString (getJSXSymbolKind (getJSXTagName b))
       (astRangeToVsCodeRange (loc b)) (astRangeToVsCodeRange (loc b))
       (flat_map (addJSXSymbol_child b d M sf) (getJSXChildren b))]
  else [].
Proof.
  intros Hin. rewrite processJSXExpression_eq.
  destruct (d >=? M) eqn:E; [now rewrite andb_false_r|].
  rewrite andb_true_r, addIfMarkup_found.
  - destruct (isMarkup b); [|reflexivity]. now rewrite addJSXSymbol_eq, E.
  - apply descendants_trans
      with (JSXExpressionContainer cl (LogicalExpression el op a b));
      [|assumption].
    apply expression_below. simpl. auto.
Qed.

Lemma logical_operator_insensitive_witness :
  processJSXExpression (guarded OpOr) 1 2 true (el "div" [guarded OpOr]) =
  [mkDocumentSymbol "span" EmptyString KindField
     (astRangeToVsCodeRange None) (astRangeToVsCodeRange None) []].
Proof.
  apply (logical_operator_insensitive None None OpOr (Identifier None "x")
           (el "span" []) 1 2 true (el "div" [guarded OpOr])).
  vm_compute. auto.
Defined.

(** *** Callbacks *)

(** C7, on the code -- the callback of
    [<ul>{items.map(item => { return <a/>; return <b/> })}</ul>] has two
    immediate return statements with markup, and gives two subtrees. *)
Lemma callback_with_two_returns :
  List.length (callArgument 1 2 true listOfTwo twoReturns) = 2%nat
  /\ map shapeOf (callArgument 1 2 true listOfTwo twoReturns) =
     [Sh "a" []; Sh "b" []]
  /\ map shapeOf (getSymbolsFromDocument (Some listFile) (config 2 true)) =
     [Sh "List" [Sh "ul" [Sh "a" []; Sh "b" []]]].
Proof. repeat split; vm_compute; reflexivity. Qed.

Lemma addIfMarkup_length (x : Node) (d M : Z) (sf : bool) (parent : Node) :
  (List.length (addIfMarkup x d M sf parent)
   <= if isMarkup x then 1 else 0)%nat.
Proof.
  unfold addIfMarkup. destruct (isMarkup x); [|simpl; lia].
  destruct (findExpressionPath _ _); [|simpl; lia].
  rewrite addJSXSymbol_eq. destruct (d >=? M); simpl; lia.
Qed.

(** C7, amended -- a call gives, argument by argument, what each callback
    gives; a callback gives at most one markup subtree for each immediate
    return statement of its block whose argument is markup, and at most
    one when its body is markup itself. *)
Theorem callback_subtrees (l : option SourceLocation) (callee : Node)
    (args : list Node) (d M : Z) (sf : bool) (parent : Node) :
  traverseCallExpressionForJSX (CallExpression l callee args) d M sf parent =
  flat_map (callArgument d M sf parent) args
  /\ Forall
       (fun arg =>
          (List.length (callArgument d M sf parent arg) <= markupReturns arg)%nat)
       args.
Proof.
  split; [apply traverseCallExpressionForJSX_eq|].
  apply Forall_forall. intros arg _.
  assert (Hblock : forall sts,
            (List.length (flat_map (callbackStatement d M sf parent) sts)
             <= List.length
                  (filter
                     (fun statement =>
                        match statement with
                        | ReturnStatement _ (Some argument) => isMarkup argument
                        | _ => false
                        end)
                     sts))%nat).
  { induction sts as [|st sts IH]; simpl; [lia|].
    rewrite length_app.
    assert (Hst : (List.length (callbackStatement d M sf parent st)
                   <= if match st with
                         | ReturnStatement _ (Some argument) => isMarkup argument
                         | _ => false
                         end then 1 else 0)%nat).
    { unfold callbackStatement.
      destruct st as [| | | | | | | | | | |l3 [x|]| | | | | | | | | | | | |];
        simpl; try lia.
      apply addIfMarkup_length. }
    destruct (match st with
              | ReturnStatement _ (Some argument) => isMarkup argument
              | _ => false
              end); simpl; lia. }
  unfold callArgument, markupReturns.
  destruct arg; try (simpl; lia);
    match goal with
    | |- context [match ?b with _ => _ end] =>
        destruct b; try (simpl; lia);
        first [ apply Hblock
              | exact (addIfMarkup_length (JSXElement _ _ _ _) d M sf parent)
              | exact (addIfMarkup_length (JSXFragment _ _) d M sf parent) ]
    end.
Qed.

End Claims.

(* ================================================================== *)
(** ** Further properties of parser.ts *)
(* ================================================================== *)

Module Extras.
Import Babel VSCode Parser Outline Examples Further.
Import BabelFacts ParserFacts VisitorFacts.

(** *** Names *)

(** A hook name starts with a lowercase [u]: no name passes both the test
    for components and the test for hooks. *)
Lemma hook_name_not_upper (s : string) :
  startsUseUpper s = true -> startsUpper s = false.
Proof.
  destruct s as [|c s]; [discriminate|].
  destruct c as [[] [] [] [] [] [] [] []]; try discriminate; reflexivity.
Qed.

Lemma upper_name_not_empty (s : string) :
  startsUpper s = true -> String.eqb s EmptyString = false.
Proof. destruct s; [discriminate|reflexivity]. Qed.

Lemma hook_name_not_empty (s : string) :
  startsUseUpper s = true -> String.eqb s EmptyString = false.
Proof. destruct s; [discriminate|reflexivity]. Qed.

(** *** What the visitor does with a name *)

(** X1 -- a function declaration, or a variable bound to an arrow function
    or a function expression, whose name is a hook name ([use] and an
    uppercase letter) gives a "Hook" entry with that name, the range of
    the declaration and no children, whatever it renders, when hooks are
    shown, and nothing when they are not; what is below it is skipped. *)
Theorem hook_declaration_entry (config : WorkspaceConfiguration) (path : NodePath)
    (symbols : list DocumentSymbol) (n : string) :
  declaresFunction (node path) = true ->
  declaredName (node path) = Some n ->
  startsUseUpper n = true ->
  visitor config path symbols =
  (symbols ++
   (if get (showHooks config) true
    then [mkDocumentSymbol n "Hook" KindFunction
            (astRangeToVsCodeRange (loc (node path)))
            (astRangeToVsCodeRange (loc (node path))) []]
    else []),
   Skip).
Proof.
  intros Hkind Hname Hhook.
  pose proof (hook_name_not_upper n Hhook) as Hupper.
  pose proof (hook_name_not_empty n Hhook) as Hempty.
  unfold visitor, createHookSymbol, getComponentName, isFunctionComponent,
    isCustomHook.
  destruct (node path) eqn:Hnode; try discriminate; simpl in Hname, Hkind.
  - rewrite Hname, Hupper, Hhook, Hempty. simpl.
    destruct (get (showHooks config) true); now rewrite ?app_nil_r.
  - destruct n0; try discriminate. destruct init as [init|]; [|discriminate].
    injection Hname as ->.
    apply orb_true_iff in Hkind.
    replace (negb (isArrowFunctionExpression init)
             && negb (isFunctionExpression init))%bool with false
      by (destruct Hkind as [-> | ->]; simpl; now rewrite ?andb_false_r).
    rewrite Hupper, Hhook. simpl.
    destruct (get (showHooks config) true); now rewrite ?app_nil_r.
Qed.

Lemma hook_declaration_entry_witness :
  visitor (config 2 true) (statementPath useThing) [] =
  ([mkDocumentSymbol "useThing" "Hook" KindFunction
      (astRangeToVsCodeRange None) (astRangeToVsCodeRange None) []],
   Skip).
Proof.
  apply (hook_declaration_entry (config 2 true) (statementPath useThing) []
           "useThing"); reflexivity.
Defined.

(** X2 -- wherever the visitor is, if the name declared there (by a
    function, variable or class declaration) neither starts with an
    uppercase letter nor is a hook name, or if no name is declared there,
    nothing is pushed, whatever is rendered, and the traversal goes on
    below. *)
Theorem other_names_inert (config : WorkspaceConfiguration) (path : NodePath)
    (symbols : list DocumentSymbol) :
  (forall s, declaredName (node path) = Some s ->
             startsUpper s = false /\ startsUseUpper s = false) ->
  visitor config path symbols = (symbols, Continue).
Proof.
  intros Hname.
  unfold visitor, isFunctionComponent, isCustomHook, isClassComponent.
  destruct (node path) eqn:Hnode; try reflexivity; simpl in Hname.
  - destruct (idName id) as [s|]; [|reflexivity].
    destruct (Hname s eq_refl) as [-> ->]. reflexivity.
  - destruct n; try reflexivity. destruct init as [init|]; [|reflexivity].
    destruct (Hname _ eq_refl) as [-> ->]. simpl.
    now destruct (negb _ && negb _)%bool.
  - destruct (idName id) as [s|]; [|reflexivity].
    destruct (Hname s eq_refl) as [-> _]. reflexivity.
Qed.

Lemma other_names_inert_witness :
  visitor (config 2 true) (statementPath helperWithMarkup) [] = ([], Continue).
Proof.
  apply (other_names_inert (config 2 true) (statementPath helperWithMarkup) []).
  intros s [= <-]. split; reflexivity.
Defined.

(** *** The entries of the result *)

Lemma entryOf_well_formed (config : WorkspaceConfiguration) (path : NodePath) :
  Forall
    (fun s =>
       (isHookEntry s \/ isFunctionEntry s \/ isClassEntry s)
       /\ selectionRange s = range s
       /\ range s = astRangeToVsCodeRange (loc (node path))
       /\ declaredName (node path) = Some (name s))
    (entryOf config path).
Proof.
  unfold entryOf, accepted, acceptedAsHook, componentType.
  unfold isHookEntry, isFunctionEntry, isClassEntry.
  unfold createHookSymbol, createComponentSymbol, getComponentName.
  unfold isFunctionComponent, isCustomHook, isClassComponent.
  destruct (node path) eqn:Hnode; simpl; try constructor.
  - destruct (idName id) as [s|]; simpl; [|constructor].
    destruct (startsUpper s && hasJSXReturn path)%bool eqn:Hcomp; simpl.
    + apply andb_true_iff in Hcomp. destruct Hcomp as [Hup _].
      rewrite (upper_name_not_empty s Hup).
      constructor; [|constructor]. simpl. auto 10.
    + destruct (startsUseUpper s) eqn:Hhook; simpl; [|constructor].
      destruct (get (showHooks config) true); [|constructor].
      rewrite (hook_name_not_empty s Hhook).
      constructor; [|constructor]. simpl. auto 10.
  - destruct n; simpl; try constructor.
    destruct init as [init|]; simpl; [|constructor].
    destruct (isArrowFunctionExpression init || isFunctionExpression init)%bool;
      simpl; [|constructor].
    destruct (startsUpper name0 && hasJSXReturn (getPath path 1 init))%bool
      eqn:Hcomp; simpl.
    + apply andb_true_iff in Hcomp. destruct Hcomp as [Hup _].
      constructor; [|constructor]. simpl. auto 10.
    + destruct (startsUseUpper name0) eqn:Hhook; simpl; [|constructor].
      destruct (get (showHooks config) true); [|constructor].
      constructor; [|constructor]. simpl. auto 10.
  - destruct (idName id) as [s|]; simpl; [|constructor].
    destruct (startsUpper s) eqn:Hup; simpl; [|constructor].
    destruct (_ || _)%bool; simpl; [|constructor].
    rewrite (upper_name_not_empty s Hup).
    constructor; [|constructor]. simpl. auto 10.
Qed.

(** X3 -- every entry of the result is a hook entry (detail "Hook", kind
    Function, a hook name, no children), a function component entry
    (detail "Function Component", kind Function, an uppercase-starting
    name) or a class component entry (detail "Class Component", kind
    Class, an uppercase-starting name); its selection range is its range;
    and it stands for a declaration of the file, whose declared name and
    range it carries: the fallbacks "Anonymous" and "Unknown" of
    [getComponentName] never make it into the result. *)
Theorem entries_well_formed (ast : Node) (config : WorkspaceConfiguration) :
  Forall
    (fun s =>
       (isHookEntry s \/ isFunctionEntry s \/ isClassEntry s)
       /\ selectionRange s = range s
       /\ exists n,
            In n (descendants ast)
            /\ declaredName n = Some (name s)
            /\ range s = astRangeToVsCodeRange (loc n))
    (getSymbolsFromDocument (Some ast) config).
Proof.
  rewrite getSymbolsFromDocument_reached.
  apply Forall_flat_map, Forall_forall. intros path Hpath.
  apply reached_below in Hpath.
  eapply Forall_impl; [|apply entryOf_well_formed].
  intros s [H [Hsel [Hrange Hname]]]. repeat split; try assumption.
  now exists (node path).
Qed.

(** *** Hooks shown and hidden *)

Lemma filter_flat_map {A B : Type} (keep : B -> bool) (f : A -> list B)
    (l : list A) :
  filter keep (flat_map f l) = flat_map (fun x => filter keep (f x)) l.
Proof.
  induction l as [|a l IH]; simpl; [reflexivity|].
  now rewrite filter_app, IH.
Qed.

(** X4 -- with [showHooks] off the result is the result with any setting
    of [showHooks], the hook entries taken out: the component entries and
    their trees are the same, in the same order. *)
Theorem hooks_toggle (parsed : option Node) (maxDepth : option Z)
    (fragments hooks : option bool) :
  getSymbolsFromDocument parsed (mkConfig maxDepth fragments (Some false)) =
  filter (fun s => negb (isHookSymbol s))
    (getSymbolsFromDocument parsed (mkConfig maxDepth fragments hooks)).
Proof.
  destruct parsed as [ast|]; [|reflexivity].
  rewrite !getSymbolsFromDocument_reached, filter_flat_map.
  apply flat_map_ext. intros path. unfold entryOf.
  destruct (negb (accepted path)); [reflexivity|].
  destruct (acceptedAsHook path).
  - simpl. now destruct (get hooks true).
  - destruct (componentType path); reflexivity.
Qed.

(** *** Markup below a path *)

(** X5 -- [hasJSXReturn] holds exactly when a markup element or fragment
    occurs somewhere below the path, at any depth and inside nested
    functions and classes too; it depends on the node only, not on where
    the node hangs. *)
Theorem hasJSXReturn_anywhere (functionPath : NodePath) :
  hasJSXReturn functionPath = true <->
  exists m, In m (descendants (node functionPath)) /\ isMarkup m = true.
Proof. rewrite hasJSXReturn_spec. apply existsb_exists. Qed.

(** *** Embedded expressions *)

Lemma flat_map_flat_map {A B C : Type} (f : A -> list B) (g : B -> list C)
    (l : list A) :
  flat_map g (flat_map f l) = flat_map (fun x => flat_map g (f x)) l.
Proof.
  induction l as [|a l IH]; simpl; [reflexivity|].
  now rewrite flat_map_app, IH.
Qed.

Lemma addJSXSymbol_all_cut (l : list Node) (d M : Z) (sf : bool) :
  M <= d -> flat_map (fun x => addJSXSymbol x d M sf) l = [].
Proof.
  intros Hd. induction l as [|x l IH]; simpl; [reflexivity|].
  rewrite IH. now rewrite (proj1 (builder_cut x d M sf x Hd)).
Qed.

Lemma addIfMarkup_list (x : Node) (d M : Z) (sf : bool) (parent : Node) :
  In x (descendants parent) ->
  addIfMarkup x d M sf parent =
  flat_map (fun y => addJSXSymbol y d M sf) (if isMarkup x then [x] else []).
Proof.
  intros Hx. rewrite addIfMarkup_found by assumption.
  destruct (isMarkup x); simpl; now rewrite ?app_nil_r.
Qed.

Lemma callArgument_markup (arg : Node) (d M : Z) (sf : bool) (parent : Node) :
  In arg (descendants parent) ->
  callArgument d M sf parent arg =
  flat_map (fun x => addJSXSymbol x d M sf) (callbackMarkup arg).
Proof.
  intros Harg.
  assert (Hbody : forall b, In b (subnodes arg) -> isMarkup b = true ->
            addIfMarkup b d M sf parent = addJSXSymbol b d M sf ++ []).
  { intros b Hb Hm. rewrite addIfMarkup_found, Hm, app_nil_r; [reflexivity|].
    apply descendants_trans with arg; [now apply subnode_below|assumption]. }
  assert (Hblock : forall l2 sts, In (BlockStatement l2 sts) (subnodes arg) ->
            flat_map (callbackStatement d M sf parent) sts =
            flat_map (fun x => addJSXSymbol x d M sf)
              (flat_map
                 (fun statement =>
                    match statement with
                    | ReturnStatement _ (Some argument) =>
                        if isMarkup argument then [argument] else []
                    | _ => []
                    end)
                 sts)).
  { intros l2 sts Hsub. rewrite flat_map_flat_map.
    apply flat_map_ext_in. intros st Hst. unfold callbackStatement.
    destruct st as [| | | | | | | | | | |l3 [x|]| | | | | | | | | | | | |];
      try reflexivity.
    apply addIfMarkup_list.
    apply descendants_trans with arg; [|assumption].
    apply descendants_trans with (BlockStatement l2 sts).
    - eapply returned_below. exact Hst.
    - now apply subnode_below. }
  unfold callArgument, callbackMarkup.
  destruct arg; try reflexivity;
    match goal with
    | |- context [match ?b with _ => _ end] =>
        destruct b; try reflexivity;
        first [ eapply Hblock; simpl; rewrite ?in_app_iff; simpl; eauto
              | apply Hbody; [simpl; rewrite ?in_app_iff; simpl; auto|reflexivity] ]
    end.
Qed.

(** X7 -- what an embedded expression [{expr}] gives, for an expression
    below the node the search starts from: [addJSXSymbol], at the depth it
    is called with, of each markup operand in order -- the right operand
    of a logical expression; the consequent, then the alternate, of a
    conditional; for a call, whatever is called, argument by argument, the
    body of a callback or the arguments of the immediate returns of its
    block.  Any other expression gives nothing: markup written directly in
    the braces, nested deeper in the operands, in an array or in the left
    operand is not in the tree. *)
Theorem embedded_expression_markup (cl : option SourceLocation) (expr : Node)
    (d M : Z) (sf : bool) (parent : Node) :
  In (JSXExpressionContainer cl expr) (descendants parent) ->
  processJSXExpression (JSXExpressionContainer cl expr) d M sf parent =
  flat_map (fun x => addJSXSymbol x d M sf) (expressionMarkup expr).
Proof.
  intros Hin. rewrite processJSXExpression_eq.
  destruct (d >=? M) eqn:E; [symmetry; apply addJSXSymbol_all_cut; lia|].
  assert (Hop : forall x, In x (subnodes expr) -> In x (descendants parent)).
  { intros x Hx.
    apply descendants_trans with (JSXExpressionContainer cl expr); [|assumption].
    now apply expression_below. }
  destruct expr; try reflexivity; unfold expressionMarkup.
  - rewrite traverseCallExpressionForJSX_eq, flat_map_flat_map.
    apply flat_map_ext_in. intros arg Harg.
    apply callArgument_markup. apply Hop. simpl. auto.
  - apply addIfMarkup_list. apply Hop. simpl. auto.
  - rewrite flat_map_app. f_equal; apply addIfMarkup_list; apply Hop; simpl; auto.
Qed.

Lemma embedded_expression_markup_witness :
  processJSXExpression (guarded OpAnd) 1 2 true divGuarded =
  flat_map (fun x => addJSXSymbol x 1 2 true) [el "span" []].
Proof.
  apply (embedded_expression_markup None
           (LogicalExpression None OpAnd (Identifier None "x") (el "span" []))
           1 2 true divGuarded).
  vm_compute. auto.
Defined.

(** *** Attributes *)

(** X8 -- the tree of a markup element does not depend on its attributes:
    markup passed in an attribute, as in [<Card icon={<Star/>}>], is not
    looked at by [addJSXSymbol]. *)
Theorem attributes_not_scanned (l : option SourceLocation) (nm : JSXName)
    (attrs attrs' cs : list Node) (d M : Z) (sf : bool) :
  addJSXSymbol (JSXElement l nm attrs cs) d M sf =
  addJSXSymbol (JSXElement l nm attrs' cs) d M sf.
Proof.
  rewrite !addJSXSymbol_eq. destruct (d >=? M); [reflexivity|].
  simpl getJSXTagName. simpl loc. simpl getJSXChildren. do 2 f_equal.
  apply flat_map_ext_in. intros c Hc.
  apply addJSXSymbol_child_any_parent;
    apply (jsxChild_below (JSXElement l nm _ cs)); exact Hc.
Qed.

(** *** Tags *)

Lemma memberParts_chain (rest : list string) :
  forall (acc : JSXName) (parts : list string),
    memberParts (fold_left JSXMemberExpression rest acc) parts =
    memberParts acc (rest ++ parts).
Proof.
  induction rest as [|r rest IH]; intros acc parts; simpl; [reflexivity|].
  now rewrite IH.
Qed.

Lemma memberChain_shape (rest : list string) :
  forall acc,
    (forall ns s, acc <> JSXNamespacedName ns s) ->
    forall ns s, fold_left JSXMemberExpression rest acc <> JSXNamespacedName ns s.
Proof.
  induction rest as [|r rest IH]; intros acc Hacc; simpl; [assumption|].
  apply IH. discriminate.
Qed.

(** X9 -- the tag of an element named by a member chain
    [first.r1.r2...] is the names joined by dots, outermost object first;
    with an empty chain it is the identifier itself. *)
Theorem member_tag_name (l : option SourceLocation) (first : string)
    (rest : list string) (attrs cs : list Node) :
  getJSXTagName (JSXElement l (memberChain first rest) attrs cs) =
  String.concat "." (first :: rest).
Proof.
  assert (Hformat : formatMemberExpression (memberChain first rest) =
                    String.concat "." (first :: rest)).
  { unfold formatMemberExpression, memberChain.
    rewrite memberParts_chain. simpl. now rewrite app_nil_r. }
  unfold getJSXTagName.
  destruct (memberChain first rest) as [x|obj prop|ns x] eqn:Hchain.
  - rewrite <- Hformat. unfold formatMemberExpression. simpl.
    reflexivity.
  - exact Hformat.
  - exfalso. revert Hchain. apply memberChain_shape. discriminate.
Qed.

(** *** Classes *)

(** X10 -- a class that extends a member expression [object.property] of
    two identifiers is a component exactly when its name starts with an
    uppercase letter, the object is [React] and the property is
    [Component] or [PureComponent]: [Other.Component] does not qualify. *)
Theorem dotted_superclass (path : NodePath) (l l1 l2 l3 l4 : option SourceLocation)
    (n object property : string) (body : Node) :
  node path =
  ClassDeclaration l (Some (Identifier l1 n))
    (Some (MemberExpression l2 (Identifier l3 object) (Identifier l4 property)))
    body ->
  isClassComponent path =
  (startsUpper n
   && (String.eqb object "React"
       && (String.eqb property "Component"
           || String.eqb property "PureComponent")))%bool.
Proof.
  intros Hnode. unfold isClassComponent. rewrite Hnode.
  unfold matchesPattern, isIdentifierNamed. cbn -[String.eqb startsUpper].
  destruct (startsUpper n); [|reflexivity]. cbn -[String.eqb].
  rewrite (String.eqb_sym "React" object).
  rewrite (String.eqb_sym "Component" property).
  rewrite (String.eqb_sym "PureComponent" property).
  destruct (String.eqb object "React"); simpl; [|reflexivity].
  now rewrite !andb_true_r, !orb_false_r.
Qed.

Lemma dotted_superclass_witness :
  isClassComponent widgetPath =
  (startsUpper "Widget"
   && (String.eqb "React" "React"
       && (String.eqb "Component" "Component"
           || String.eqb "Component" "PureComponent")))%bool.
Proof.
  apply (dotted_superclass widgetPath (on 1 0 50) (on 1 6 12) (on 1 21 36)
           (on 1 21 26) (on 1 27 36) "Widget" "React" "Component"
           (ClassBody (on 1 37 50)
              [ClassMethod (on 1 39 48) (Identifier (on 1 39 43) "tick") []
                 (BlockStatement (on 1 46 48) [])])).
  reflexivity.
Defined.

Lemma findRender_first (classBody : NodePath) (pre post : list Node)
    (ml kl : option SourceLocation) (ps : list Node) (body : Node) :
  Forall (fun m => isRenderMethod m = false) pre ->
  forall i,
    findRender classBody i
      (pre ++ ClassMethod ml (Identifier kl "render") ps body :: post) =
    Some (getPath
            (getPathAt classBody 0 (i + List.length pre)
               (ClassMethod ml (Identifier kl "render") ps body))
            2 body).
Proof.
  induction 1 as [|m pre Hm _ IH]; intros i; simpl.
  - now rewrite Nat.add_0_r.
  - assert (Hrest : findRender classBody (S i)
                      (pre ++ ClassMethod ml (Identifier kl "render") ps body
                           :: post) =
                    Some (getPath
                            (getPathAt classBody 0 (i + S (List.length pre))
                               (ClassMethod ml (Identifier kl "render") ps body))
                            2 body)).
    { rewrite IH. now rewrite Nat.add_succ_r. }
    destruct m; try exact Hrest. simpl in Hm.
    match type of Hm with
    | match ?k with _ => _ end = _ => destruct k; try exact Hrest
    end.
    rewrite Hm. exact Hrest.
Qed.

(** X11 -- the body scanned for a class is the body of the first member
    that is a method named [render]: members before it that are not such
    a method are passed over, and members after it, other [render]
    methods included, are not looked at. *)
Theorem first_render_method (path : NodePath) (l cl ml kl : option SourceLocation)
    (id superClass : option Node) (pre post ps : list Node) (body : Node) :
  node path =
  ClassDeclaration l id superClass
    (ClassBody cl (pre ++ ClassMethod ml (Identifier kl "render") ps body :: post)) ->
  Forall (fun m => isRenderMethod m = false) pre ->
  exists bodyPath,
    getFunctionBody path = Some bodyPath /\ node bodyPath = body.
Proof.
  intros Hnode Hpre. unfold getFunctionBody. rewrite Hnode.
  rewrite (findRender_first _ pre post ml kl ps body Hpre).
  eexists. split; reflexivity.
Qed.

Lemma first_render_method_witness :
  Forall (fun m => isRenderMethod m = false) [tick]
  /\ isRenderMethod secondRender = true
  /\ exists bodyPath,
       getFunctionBody (statementPath panel) = Some bodyPath
       /\ node bodyPath = BlockStatement None [ret (el "div" [])].
Proof.
  split; [repeat constructor|]. split; [reflexivity|].
  apply (first_render_method (statementPath panel) None None None None
           (Some (Identifier None "Panel"))
           (Some (Identifier None "Component"))
           [tick] [secondRender] [] (BlockStatement None [ret (el "div" [])])).
  - reflexivity.
  - repeat constructor.
Defined.

(** *** Hidden fragments *)

Lemma processFragmentChildren_child_any_parent (c : Node) (d M : Z) (sf : bool)
    (p1 p2 : Node) :
  In c (descendants p1) -> In c (descendants p2) ->
  processFragmentChildren_child p1 d M sf c =
  processFragmentChildren_child p2 d M sf c.
Proof.
  intros H1 H2. unfold processFragmentChildren_child.
  destruct (findChildPath_found _ _ H1) as [q1 [Hq1 _]].
  destruct (findChildPath_found _ _ H2) as [q2 [Hq2 _]].
  destruct c; try reflexivity; rewrite ?Hq1, ?Hq2; try reflexivity.
  now apply processJSXExpression_any_parent.
Qed.

(** X12 -- where the children of a fragment are processed in place of the
    fragment, a fragment among them is replaced by its own children, in
    place: [<>a<>b</>c</>] gives what [<>abc</>] gives. *)
Theorem nested_fragments_flatten (l l' : option SourceLocation)
    (pre inner post : list Node) (d M : Z) (sf : bool) :
  processFragmentChildren
    (JSXFragment l (pre ++ JSXFragment l' inner :: post)) d M sf =
  processFragmentChildren (JSXFragment l (pre ++ inner ++ post)) d M sf.
Proof.
  rewrite !processFragmentChildren_eq. simpl getJSXChildren.
  rewrite !flat_map_app.
  change (flat_map ?f (JSXFragment l' inner :: post))
    with (f (JSXFragment l' inner) ++ flat_map f post).
  set (outer := JSXFragment l (pre ++ JSXFragment l' inner :: post)).
  set (flat := JSXFragment l (pre ++ inner ++ post)).
  assert (Houter : forall x, In x (pre ++ JSXFragment l' inner :: post) ->
                     In x (descendants outer)).
  { intros x Hx. now apply (jsxChild_below outer). }
  assert (Hflat : forall x, In x (pre ++ inner ++ post) ->
                    In x (descendants flat)).
  { intros x Hx. now apply (jsxChild_below flat). }
  f_equal; [|f_equal].
  - apply flat_map_ext_in. intros x Hx.
    apply processFragmentChildren_child_any_parent;
      [apply Houter|apply Hflat]; rewrite !in_app_iff; auto.
  - unfold processFragmentChildren_child at 1.
    destruct (findChildPath_found outer (JSXFragment l' inner)) as [q [-> _]].
    { apply Houter. rewrite in_app_iff. simpl. auto. }
    rewrite processFragmentChildren_eq. simpl getJSXChildren.
    apply flat_map_ext_in. intros x Hx.
    apply processFragmentChildren_child_any_parent.
    + now apply (jsxChild_below (JSXFragment l' inner)).
    + apply Hflat. rewrite !in_app_iff. auto.
  - apply flat_map_ext_in. intros x Hx.
    apply processFragmentChildren_child_any_parent;
      [apply Houter|apply Hflat]; rewrite !in_app_iff; simpl; auto.
Qed.

(** *** Lowering the limit *)

Lemma cutSymbol_all_cut (l : list DocumentSymbol) (d M : Z) :
  M <= d -> flat_map (cutSymbol d M) l = [].
Proof.
  intros Hd. induction l as [|x l IH]; simpl; [reflexivity|].
  rewrite IH. destruct x. simpl. now replace (d >=? M) with true by lia.
Qed.

(** The markup tree under a limit is the tree under a larger limit, cut. *)
Lemma builder_truncate (sf : bool) (M M' : Z) (n : Node) :
  M <= M' ->
  forall d parent,
    flat_map (cutSymbol d M) (addJSXSymbol n d M' sf) = addJSXSymbol n d M sf
    /\ flat_map (cutSymbol d M) (processFragmentChildren n d M' sf)
       = processFragmentChildren n d M sf
    /\ flat_map (cutSymbol d M) (processJSXExpression n d M' sf parent)
       = processJSXExpression n d M sf parent
    /\ flat_map (cutSymbol d M) (traverseCallExpressionForJSX n d M' sf parent)
       = traverseCallExpressionForJSX n d M sf parent.
Proof.
  intros HM. induction n as [n IH] using descendants_ind. intros d parent.
  assert (Hadd : forall x d parent, In x (descendants n) ->
            flat_map (cutSymbol d M) (addIfMarkup x d M' sf parent)
            = addIfMarkup x d M sf parent).
  { intros x d' parent' Hx. unfold addIfMarkup.
    destruct (isMarkup x); [|reflexivity].
    destruct (findExpressionPath _ _); [|reflexivity].
    now apply (IH x Hx d' parent'). }
  repeat split.
  - rewrite !addJSXSymbol_eq.
    destruct (d >=? M') eqn:E'.
    + now replace (d >=? M) with true by lia.
    + simpl. rewrite app_nil_r. destruct (d >=? M); [reflexivity|].
      do 2 f_equal. rewrite flat_map_flat_map.
      apply flat_map_ext_in. intros c Hc.
      apply jsxChild_below in Hc. specialize (IH c Hc (d + 1) n).
      destruct IH as [Ha [Hf [He _]]].
      unfold addJSXSymbol_child.
      destruct c; try reflexivity;
        try (destruct (findChildPath _ _); [|reflexivity]);
        try destruct (negb sf); assumption.
  - rewrite !processFragmentChildren_eq, flat_map_flat_map.
    apply flat_map_ext_in. intros c Hc.
    apply jsxChild_below in Hc. specialize (IH c Hc d n).
    destruct IH as [Ha [Hf [He _]]].
    unfold processFragmentChildren_child.
    destruct c; try reflexivity;
      try (destruct (findChildPath _ _); [|reflexivity]); assumption.
  - rewrite !processJSXExpression_eq.
    destruct (d >=? M') eqn:E'; [now replace (d >=? M) with true by lia|].
    destruct (d >=? M) eqn:E; [apply cutSymbol_all_cut; lia|].
    destruct n as [| | | | | | | | | | | | | | | | | | | | |l e| | |];
      try reflexivity.
    destruct e; try reflexivity.
    + apply (IH (CallExpression loc0 e arguments)). subnode.
    + apply Hadd. apply expression_below. simpl. auto.
    + rewrite flat_map_app.
      f_equal; apply Hadd; apply expression_below; simpl; auto.
  - rewrite !traverseCallExpressionForJSX_eq.
    destruct n as [| | | | |l callee args| | | | | | | | | | | | | | | | | | |];
      try reflexivity.
    rewrite flat_map_flat_map. apply flat_map_ext_in. intros arg Harg.
    assert (Hbody : forall b, In b (descendants arg) ->
              flat_map (cutSymbol d M) (addIfMarkup b d M' sf parent)
              = addIfMarkup b d M sf parent).
    { intros b Hb. apply Hadd. now apply callbackBody_below with arg. }
    assert (Hblock : forall l2 sts, In (BlockStatement l2 sts) (subnodes arg) ->
              flat_map (cutSymbol d M)
                (flat_map (callbackStatement d M' sf parent) sts)
              = flat_map (callbackStatement d M sf parent) sts).
    { intros l2 sts Hsub. rewrite flat_map_flat_map.
      apply flat_map_ext_in. intros st Hst.
      unfold callbackStatement.
      destruct st as [| | | | | | | | | | |l3 [x|]| | | | | | | | | | | | |];
        try reflexivity.
      apply Hbody. apply descendants_trans with (BlockStatement l2 sts).
      - eapply returned_below. exact Hst.
      - now apply subnode_below. }
    unfold callArgument.
    destruct arg; try reflexivity;
      match goal with
      | |- context [match ?b with _ => _ end] =>
          destruct b; try reflexivity;
          first [ apply Hbody; subnode
                | eapply Hblock; simpl; rewrite ?in_app_iff; simpl; eauto ]
      end.
Qed.

Lemma fold_left_related {A A' B : Type} (R : A' -> A -> Prop)
    (f' : A' -> B -> A') (f : A -> B -> A) (l : list B) :
  (forall x s' s, R s' s -> R (f' s' x) (f s x)) ->
  forall s' s, R s' s -> R (fold_left f' l s') (fold_left f l s).
Proof.
  intros H. induction l as [|x l IH]; intros s' s Hs; simpl; [assumption|].
  apply IH. now apply H.
Qed.

Lemma buildJSXTree_truncate (path : NodePath) (config : WorkspaceConfiguration)
    (M M' : Z) :
  M <= M' ->
  flat_map (cutSymbol 0 M) (buildJSXTree path config M') =
  buildJSXTree path config M.
Proof.
  intros HM. unfold buildJSXTree.
  destruct (getFunctionBody path) as [bodyPath|]; [|reflexivity].
  set (sf := get (showFragments config) true).
  match goal with
  | |- flat_map _ (snd (traverse ?e' _ _)) = snd (traverse ?e _ _) =>
      set (enter' := e'); set (enter := e)
  end.
  assert (Henter' : forall p s, enter' p s = (fst (enter' p s), Continue)).
  { intros p [processed pushed]. unfold enter'.
    destruct (node p); try reflexivity; destruct (_ && _)%bool; reflexivity. }
  assert (Henter : forall p s, enter p s = (fst (enter p s), Continue)).
  { intros p [processed pushed]. unfold enter.
    destruct (node p); try reflexivity; destruct (_ && _)%bool; reflexivity. }
  rewrite (traverse_fold enter' (fun p s => fst (enter' p s)) Henter').
  rewrite (traverse_fold enter (fun p s => fst (enter p s)) Henter).
  apply (fold_left_related
           (fun st' st : list NodePath * list DocumentSymbol =>
              fst st' = fst st
              /\ flat_map (cutSymbol 0 M) (snd st') = snd st)
           (fun s p => fst (enter' p s)) (fun s p => fst (enter p s)));
    [|split; reflexivity].
  intros p [processed' pushed'] [processed pushed] [Hproc Hpushed].
  simpl in Hproc, Hpushed. subst processed'.
  pose proof (builder_truncate sf M M' (node p) HM 0 (node p)) as [Ha [Hf _]].
  unfold enter', enter.
  destruct (node p); simpl; try (split; [reflexivity|assumption]);
    destruct (_ && _)%bool; simpl; try (split; [reflexivity|assumption]);
    (split; [reflexivity|]); rewrite flat_map_app, Hpushed; f_equal;
    try assumption.
  destruct sf; assumption.
Qed.

Lemma map_flat_map {A B C : Type} (g : B -> C) (f : A -> list B) (l : list A) :
  map g (flat_map f l) = flat_map (fun x => map g (f x)) l.
Proof.
  induction l as [|a l IH]; simpl; [reflexivity|].
  now rewrite map_app, IH.
Qed.

(** X13 -- lowering [maxJSXDepth] only cuts: the result under a limit is
    the result under any larger limit with the same other settings, each
    tree cut at the smaller limit; the entries, their order and what is
    above the cut are the same. *)
Theorem lower_limit_cuts (parsed : option Node) (M M' : Z)
    (fragments hooks : option bool) :
  M <= M' ->
  getSymbolsFromDocument parsed (mkConfig (Some M) fragments hooks) =
  map (cutEntry M)
    (getSymbolsFromDocument parsed (mkConfig (Some M') fragments hooks)).
Proof.
  intros HM. destruct parsed as [ast|]; [|reflexivity].
  rewrite !getSymbolsFromDocument_reached, map_flat_map.
  apply flat_map_ext. intros path. unfold entryOf.
  destruct (negb (accepted path)); [reflexivity|].
  destruct (acceptedAsHook path).
  - simpl. now destruct (get hooks true).
  - simpl. unfold cutEntry, createComponentSymbol. simpl.
    do 2 f_equal. symmetry.
    apply (buildJSXTree_truncate path (mkConfig (Some M') fragments hooks) M M' HM).
Qed.

Lemma lower_limit_cuts_witness :
  getSymbolsFromDocument (Some (file [todoList])) (mkConfig (Some 1) None None) =
  map (cutEntry 1)
    (getSymbolsFromDocument (Some (file [todoList])) (mkConfig (Some 2) None None)).
Proof.
  apply (lower_limit_cuts (Some (file [todoList])) 1 2 None None). lia.
Defined.

(** *** Files without fragments *)

Lemma fold_left_ext_in {A B : Type} (f g : A -> B -> A) (l : list B) :
  (forall x s, In x l -> f s x = g s x) ->
  forall s, fold_left f l s = fold_left g l s.
Proof.
  induction l as [|x l IH]; intros H s; simpl; [reflexivity|].
  rewrite (H x s) by now left. apply IH. intros y s' Hy. apply H. now right.
Qed.

Lemma buildJSXTree_without_fragments (path : NodePath) (maxDepth : option Z)
    (fragments fragments' hooks : option bool) (M : Z) :
  Forall (fun m => isJSXFragment m = false) (descendants (node path)) ->
  buildJSXTree path (mkConfig maxDepth fragments hooks) M =
  buildJSXTree path (mkConfig maxDepth fragments' hooks) M.
Proof.
  intros Hnone. rewrite Forall_forall in Hnone. unfold buildJSXTree.
  destruct (getFunctionBody path) as [bodyPath|] eqn:Hbody; [|reflexivity].
  apply getFunctionBody_below in Hbody. simpl showFragments.
  match goal with
  | |- snd (traverse ?e' _ _) = snd (traverse ?e _ _) =>
      set (enter' := e'); set (enter := e)
  end.
  assert (Henter' : forall p s, enter' p s = (fst (enter' p s), Continue)).
  { intros p [processed pushed]. unfold enter'.
    destruct (node p); try reflexivity; destruct (_ && _)%bool; reflexivity. }
  assert (Henter : forall p s, enter p s = (fst (enter p s), Continue)).
  { intros p [processed pushed]. unfold enter.
    destruct (node p); try reflexivity; destruct (_ && _)%bool; reflexivity. }
  rewrite (traverse_fold enter' (fun p s => fst (enter' p s)) Henter').
  rewrite (traverse_fold enter (fun p s => fst (enter p s)) Henter).
  f_equal. apply fold_left_ext_in. intros p [processed pushed] Hp.
  assert (Hbelow : In (node p) (descendants (node path))).
  { apply descendants_trans with (node bodyPath); [|assumption].
    rewrite <- descendants_of_path. now apply in_map. }
  assert (Hsame : sameFragments (get fragments true) (get fragments' true) (node p)).
  { right. apply Forall_forall. intros m Hm. apply Hnone.
    now apply descendants_trans with (node p). }
  pose proof (builder_agree _ _ (node p) Hsame 0 M 0 M (node p) eq_refl)
    as [Ha _].
  unfold enter', enter.
  destruct (node p) eqn:Hnode; try reflexivity.
  - destruct (_ && _)%bool; [|reflexivity]. cbn [fst]. now rewrite Ha.
  - apply Hnone in Hbelow. discriminate.
Qed.

(** X14 -- for a file with no fragment ([<>...</>]) anywhere, the result
    does not depend on [showFragments]. *)
Theorem without_fragments_same (ast : Node) (maxDepth : option Z)
    (fragments fragments' hooks : option bool) :
  Forall (fun m => isJSXFragment m = false) (descendants ast) ->
  getSymbolsFromDocument (Some ast) (mkConfig maxDepth fragments hooks) =
  getSymbolsFromDocument (Some ast) (mkConfig maxDepth fragments' hooks).
Proof.
  intros Hnone. rewrite Forall_forall in Hnone.
  rewrite !getSymbolsFromDocument_reached.
  apply flat_map_ext_in. intros path Hpath. apply reached_below in Hpath.
  unfold entryOf.
  destruct (negb (accepted path)); [reflexivity|].
  destruct (acceptedAsHook path); [reflexivity|].
  unfold createComponentSymbol. simpl maxJSXDepth. do 2 f_equal.
  apply buildJSXTree_without_fragments. apply Forall_forall. intros m Hm.
  apply Hnone. now apply descendants_trans with (node path).
Qed.

Lemma without_fragments_same_witness :
  getSymbolsFromDocument (Some (file [todoList])) (mkConfig None (Some true) None) =
  getSymbolsFromDocument (Some (file [todoList])) (mkConfig None (Some false) None).
Proof.
  apply (without_fragments_same (file [todoList]) None (Some true) (Some false) None).
  vm_compute. repeat constructor.
Defined.

(** *** The places of a tree *)

Lemma Key_eqb_eq (a b : Key) : Key_eqb a b = true <-> a = b.
Proof.
  destruct a as [a1 a2], b as [b1 b2]. unfold Key_eqb; simpl.
  rewrite andb_true_iff, !Nat.eqb_eq. split; [intros [-> ->]|intros [= -> ->]]; auto.
Qed.

Lemma Keys_eqb_eq (a b : list Key) : Keys_eqb a b = true <-> a = b.
Proof.
  revert b. induction a as [|x a IH]; intros [|y b]; simpl;
    try (split; [discriminate|discriminate]); [tauto|].
  rewrite andb_true_iff, Key_eqb_eq, IH. split; [intros [-> ->]|intros [= -> ->]]; auto.
Qed.

Lemma childPaths_fields (n : Node) (parent : NodePath) :
  childPaths n parent =
  flat_map
    (fun field => pathsOfList (childPath parent) (fst field) 0 (snd field))
    (fields n).
Proof.
  destruct n; simpl; rewrite ?app_nil_r; try reflexivity;
    repeat match goal with o : option Node |- _ => destruct o end;
    reflexivity.
Qed.


Lemma fields_increasing (n : Node) : increasing 0 (map fst (fields n)) = true.
Proof. destruct n; reflexivity. Qed.

Lemma pathsOfList_keys (parent : NodePath) (field : nat) (cs : list Node) :
  forall i k,
    In k (map rootKey (pathsOfList (childPath parent) field i cs)) ->
    fst k = field /\ (i <= snd k)%nat.
Proof.
  induction cs as [|c cs IH]; intros i k; simpl; [contradiction|].
  intros [<-|Hk]; [simpl; lia|]. apply IH in Hk. lia.
Qed.

Lemma pathsOfList_NoDup (parent : NodePath) (field : nat) (cs : list Node) :
  forall i, NoDup (map rootKey (pathsOfList (childPath parent) field i cs)).
Proof.
  induction cs as [|c cs IH]; intros i; simpl; constructor; [|apply IH].
  intros Hk. apply pathsOfList_keys in Hk. simpl in Hk. lia.
Qed.

Lemma fields_NoDup (parent : NodePath) (fs : list (nat * list Node)) :
  forall lo,
    increasing lo (map fst fs) = true ->
    NoDup
      (map rootKey
         (flat_map
            (fun field =>
               pathsOfList (childPath parent) (fst field) 0 (snd field))
            fs))
    /\ forall k,
         In k
           (map rootKey
              (flat_map
                 (fun field =>
                    pathsOfList (childPath parent) (fst field) 0 (snd field))
                 fs)) ->
         (lo <= fst k)%nat.
Proof.
  induction fs as [|[f cs] fs IH]; intros lo; simpl.
  - intros _. split; [constructor|contradiction].
  - rewrite andb_true_iff, Nat.leb_le. intros [Hlo Hrest].
    destruct (IH _ Hrest) as [Hnd Hge]. rewrite map_app. split.
    + apply NoDup_app; [apply pathsOfList_NoDup|assumption|].
      intros k Hk Hk'. apply pathsOfList_keys in Hk. apply Hge in Hk'. lia.
    + intros k. rewrite in_app_iff. intros [Hk|Hk].
      * apply pathsOfList_keys in Hk. lia.
      * apply Hge in Hk. lia.
Qed.

(** The children of a node hang at different keys. *)
Lemma childPaths_keys (n : Node) (parent : NodePath) :
  NoDup (map rootKey (childPaths n parent)).
Proof.
  rewrite childPaths_fields.
  apply (fields_NoDup parent (fields n) 0), fields_increasing.
Qed.

Lemma In_Forall2 {A B : Type} (R : A -> B -> Prop) (l : list A) (l' : list B) :
  Forall2 R l l' -> forall a, In a l -> exists b, In b l' /\ R a b.
Proof.
  induction 1 as [|a' b' l l' H _ IH]; intros a; [contradiction|].
  intros [<-|Ha].
  - exists b'. split; [now left|assumption].
  - destruct (IH a Ha) as [b [Hb Hab]]. exists b. split; [now right|assumption].
Qed.

(** The keys from a path below [parent] up to the root end with the key
    of the child of [parent] it is under, then the keys from [parent]. *)
Lemma keysToRoot_below (c : Node) :
  forall parent k q,
    In q (flatten (childPath parent k c)) ->
    exists pre, keysToRoot q = pre ++ k :: keysToRoot parent.
Proof.
  induction c as [c IH] using subnodes_ind. intros parent k q.
  unfold childPath. simpl flatten. intros [<-|Hq]; [now exists []|].
  set (r := mkNodePath c k (Some parent)) in *.
  rewrite in_flat_map in Hq. destruct Hq as [t [Ht Hq]].
  destruct (In_Forall2 _ _ _ (childPaths_spec c r) t Ht) as [c' [Hc' [k' ->]]].
  destruct (IH c' Hc' r k' q Hq) as [pre Hpre].
  exists (pre ++ [k']). rewrite Hpre. now rewrite <- app_assoc.
Qed.

Lemma keys_of_subtree (parent : NodePath) (t : PathTree) (c : Node) :
  pathTreeOf parent t c ->
  forall q, In q (flatten t) ->
    exists pre, keysToRoot q = pre ++ rootKey t :: keysToRoot parent.
Proof.
  intros [k ->] q Hq. simpl rootKey. now apply keysToRoot_below with c.
Qed.

Lemma keys_end_apart (pre pre' K : list Key) (k k' : Key) :
  pre ++ k :: K = pre' ++ k' :: K -> k = k'.
Proof.
  intros H.
  change (pre ++ [k] ++ K = pre' ++ [k'] ++ K) in H.
  rewrite !app_assoc in H. apply app_inv_tail in H.
  now apply app_inj_tail in H.
Qed.

Lemma keysToRoot_NoDup_list (parent : NodePath) (ts : list PathTree)
    (cs : list Node) :
  Forall2 (pathTreeOf parent) ts cs ->
  NoDup (map rootKey ts) ->
  (forall c, In c cs ->
     forall p, NoDup (map keysToRoot (flat_map flatten (childPaths c p)))) ->
  NoDup (map keysToRoot (flat_map flatten ts)).
Proof.
  induction 1 as [|t c ts cs Ht Hts IH]; intros Hkeys Hcs; simpl; [constructor|].
  inversion Hkeys as [|? ? Hnotin Hkeys']; subst.
  rewrite map_app. apply NoDup_app.
  - destruct Ht as [k ->]. unfold childPath. simpl.
    constructor; [|apply Hcs; now left].
    rewrite in_map_iff. intros [q [Hq Hin]].
    rewrite in_flat_map in Hin. destruct Hin as [t' [Ht' Hin]].
    destruct (In_Forall2 _ _ _ (childPaths_spec c (mkNodePath c k (Some parent))) t' Ht')
      as [c' [_ Hc']].
    destruct (keys_of_subtree _ _ _ Hc' q Hin) as [pre Hpre].
    rewrite Hpre in Hq. simpl in Hq.
    apply (f_equal (@List.length Key)) in Hq.
    rewrite length_app in Hq. simpl in Hq. lia.
  - apply IH; [assumption|]. intros c' Hc'. apply Hcs. now right.
  - intros ks Hks Hks'. rewrite in_map_iff in Hks, Hks'.
    destruct Hks as [q [Hq Hin]]. destruct Hks' as [q' [Hq' Hin']].
    rewrite in_flat_map in Hin'. destruct Hin' as [t' [Ht' Hin']].
    destruct (In_Forall2 _ _ _ Hts t' Ht') as [c' [_ Hc']].
    destruct (keys_of_subtree _ _ _ Ht q Hin) as [pre Hpre].
    destruct (keys_of_subtree _ _ _ Hc' q' Hin') as [pre' Hpre'].
    apply Hnotin. rewrite in_map_iff. exists t'. split; [|assumption].
    apply keys_end_apart with pre' pre (keysToRoot parent). congruence.
Qed.

(** Different paths below a path are different places: no two have the
    same keys up to the root. *)
Lemma keysToRoot_NoDup (n : Node) :
  forall p, NoDup (map keysToRoot (flat_map flatten (childPaths n p))).
Proof.
  induction n as [n IH] using subnodes_ind. intros p.
  apply keysToRoot_NoDup_list with (parent := p) (cs := subnodes n);
    [apply childPaths_spec|apply childPaths_keys|assumption].
Qed.

(** *** Searching below a path *)




(** The search by structure stops at the key of [{label}], the search for
    the object of the value goes on to the value. *)
Lemma shorthand_twins :
  findChildPath (rootPath shorthand) (node shorthandValue)
  = Some (mkNodePath (Identifier (on 1 16 21) "label") (0%nat, 0%nat)
            (Some (rootPath shorthand)))
  /\ findChildPathAt (rootPath shorthand) shorthandValue = Some shorthandValue.
Proof. split; reflexivity. Qed.

(** *** The roots of the markup tree *)

Lemma below_is_elsewhere (p bodyPath : NodePath) (k : Key) (pre : list Key) :
  keysToRoot p = k :: pre ++ keysToRoot bodyPath ->
  NodePath_eqb p bodyPath = false.
Proof.
  intros H. destruct (NodePath_eqb p bodyPath) eqn:E; [|reflexivity].
  apply Keys_eqb_eq in E. rewrite E in H.
  apply (f_equal (@List.length Key)) in H.
  simpl in H. rewrite length_app in H. lia.
Qed.

Lemma isTopLevelJSX_from_eq (current bodyPath : NodePath) :
  isTopLevelJSX_from current bodyPath =
  if NodePath_eqb current bodyPath then true
  else if markupAt current then false
  else
    match parentPath current with
    | Some up => isTopLevelJSX_from up bodyPath
    | None => true
    end.
Proof. destruct current; reflexivity. Qed.

Lemma isTopLevelJSX_reached_list (bodyPath parent : NodePath)
    (ts : list PathTree) (cs : list Node) (pre : list Key) :
  keysToRoot parent = pre ++ keysToRoot bodyPath ->
  Forall2 (pathTreeOf parent) ts cs ->
  (forall c, In c cs ->
     forall p pre',
       keysToRoot p = pre' ++ keysToRoot bodyPath ->
       filter (fun q => isTopLevelJSX q bodyPath)
         (flat_map flatten (childPaths c p)) =
       if isTopLevelJSX_from p bodyPath
       then flat_map (reached markupAt) (childPaths c p)
       else []) ->
  filter (fun q => isTopLevelJSX q bodyPath) (flat_map flatten ts) =
  if isTopLevelJSX_from parent bodyPath
  then flat_map (reached markupAt) ts
  else [].
Proof.
  intros Hparent.
  induction 1 as [|t c ts cs [k ->] _ IH]; intros Hcs; simpl.
  - now destruct (isTopLevelJSX_from parent bodyPath).
  - rewrite filter_app, IH by (intros c' Hc'; apply Hcs; now right).
    set (r := mkNodePath c k (Some parent)).
    rewrite (Hcs c (or_introl eq_refl) r (k :: pre))
      by (simpl; rewrite Hparent; reflexivity).
    change (isTopLevelJSX r bodyPath) with (isTopLevelJSX_from parent bodyPath).
    assert (Hr : isTopLevelJSX_from r bodyPath =
                 if markupAt r then false else isTopLevelJSX_from parent bodyPath).
    { rewrite isTopLevelJSX_from_eq.
      rewrite (below_is_elsewhere r bodyPath k pre)
        by (simpl; rewrite Hparent; reflexivity).
      reflexivity. }
    rewrite Hr.
    destruct (isTopLevelJSX_from parent bodyPath), (markupAt r); reflexivity.
Qed.

(** The paths below [bodyPath] that pass [isTopLevelJSX] are the paths a
    traversal from [bodyPath] reaches when it does not go below markup. *)
Lemma isTopLevelJSX_reached (bodyPath : NodePath) (n : Node) :
  forall p pre,
    keysToRoot p = pre ++ keysToRoot bodyPath ->
    filter (fun q => isTopLevelJSX q bodyPath)
      (flat_map flatten (childPaths n p)) =
    if isTopLevelJSX_from p bodyPath
    then flat_map (reached markupAt) (childPaths n p)
    else [].
Proof.
  induction n as [n IH] using subnodes_ind. intros p pre Hp.
  apply isTopLevelJSX_reached_list with (cs := subnodes n) (pre := pre);
    [assumption|apply childPaths_spec|assumption].
Qed.

Lemma isTopLevelJSX_from_itself (bodyPath : NodePath) :
  isTopLevelJSX_from bodyPath bodyPath = true.
Proof.
  now rewrite isTopLevelJSX_from_eq, NodePath_eqb_refl.
Qed.

Lemma has_keys (processedPaths : list NodePath) (p : NodePath) :
  has processedPaths p = true ->
  In (keysToRoot p) (map keysToRoot processedPaths).
Proof.
  unfold has. rewrite existsb_exists. intros [q [Hq E]].
  apply Keys_eqb_eq in E. rewrite E. now apply in_map.
Qed.

Section Roots.
Variables (bodyPath : NodePath) (showFragments : bool) (maxDepth : Z).

(** The set [processedPaths] never keeps a path out: over paths at
    different places, none of them in the set, every markup path that
    passes [isTopLevelJSX] is taken. *)
Lemma enterMarkup_fold (l : list NodePath) :
  forall st,
    NoDup (map keysToRoot l) ->
    (forall ks, In ks (map keysToRoot (fst st)) -> ~ In ks (map keysToRoot l)) ->
    snd (fold_left (fun s p => enterMarkup bodyPath showFragments maxDepth p s) l st) =
    snd st ++
    flat_map (fun p => rootSymbols showFragments maxDepth (node p))
      (filter markupAt (filter (fun q => isTopLevelJSX q bodyPath) l)).
Proof.
  induction l as [|p l IH]; intros [processed pushed] Hnd Hfresh; simpl.
  - now rewrite app_nil_r.
  - inversion Hnd as [|? ? Hp Hnd']; subst.
    assert (Hhas : has processed p = false).
    { destruct (has processed p) eqn:E; [|reflexivity].
      apply has_keys in E. exfalso. apply (Hfresh _ E). now left. }
    unfold enterMarkup at 2. simpl fst. simpl snd. rewrite Hhas.
    destruct (isTopLevelJSX p bodyPath); simpl;
      destruct (markupAt p) eqn:Hm; simpl; rewrite ?Hm.
    + rewrite IH; simpl; [now rewrite app_assoc|assumption|].
      intros ks [<-|Hks]; [assumption|].
      intros Hin. apply (Hfresh _ Hks). now right.
    + apply IH; [assumption|]. intros ks Hks Hin. apply (Hfresh _ Hks). now right.
    + apply IH; [assumption|]. intros ks Hks Hin. apply (Hfresh _ Hks). now right.
    + apply IH; [assumption|]. intros ks Hks Hin. apply (Hfresh _ Hks). now right.
Qed.

End Roots.

Lemma buildJSXTree_roots (path bodyPath : NodePath)
    (config : WorkspaceConfiguration) (maxDepth : Z) :
  getFunctionBody path = Some bodyPath ->
  buildJSXTree path config maxDepth =
  flat_map
    (fun p => rootSymbols (get (showFragments config) true) maxDepth (node p))
    (topLevelPaths bodyPath).
Proof.
  intros Hbody. unfold buildJSXTree. rewrite Hbody.
  rewrite (traverse_fold _
             (enterMarkup bodyPath (get (showFragments config) true) maxDepth)).
  - rewrite enterMarkup_fold.
    + simpl. unfold topLevelPaths, descendantPaths.
      rewrite (isTopLevelJSX_reached bodyPath (node bodyPath) bodyPath [])
        by reflexivity.
      now rewrite isTopLevelJSX_from_itself.
    + apply keysToRoot_NoDup.
    + simpl. contradiction.
  - intros p [processed pushed]. unfold enterMarkup, markupAt, rootSymbols.
    simpl fst. simpl snd.
    destruct (node p); try reflexivity; simpl.
    + destruct (negb (has processed p) && isTopLevelJSX p bodyPath); reflexivity.
    + destruct (negb (has processed p) && isTopLevelJSX p bodyPath);
        [|reflexivity].
      now destruct (get (showFragments config) true).
Qed.

(** *** What does not depend on the place *)

Section Places.
Context {A : Type}.
Variables (F : NodePath -> list A) (skipsAt : NodePath -> bool).
Hypothesis F_node : forall p q, node p = node q -> F p = F q.
Hypothesis skipsAt_node : forall p q, node p = node q -> skipsAt p = skipsAt q.

Lemma reached_places_list (cs : list Node) :
  (forall c, In c cs ->
     forall p q,
       flat_map F (flat_map (reached skipsAt) (childPaths c p)) =
       flat_map F (flat_map (reached skipsAt) (childPaths c q))) ->
  forall parent parent' ts ts',
    Forall2 (pathTreeOf parent) ts cs ->
    Forall2 (pathTreeOf parent') ts' cs ->
    flat_map F (flat_map (reached skipsAt) ts) =
    flat_map F (flat_map (reached skipsAt) ts').
Proof.
  intros Hcs parent parent' ts ts' Hts. revert ts'.
  induction Hts as [|t c ts cs [k ->] _ IH]; intros ts' Hts';
    inversion Hts' as [|t' ? ts'' ? [k' ->] Hrest]; subst; [reflexivity|].
  simpl. rewrite !flat_map_app.
  rewrite (IH (fun c' Hc' => Hcs c' (or_intror Hc')) ts'' Hrest).
  rewrite (F_node (mkNodePath c k (Some parent)) (mkNodePath c k' (Some parent')))
    by reflexivity.
  rewrite (skipsAt_node (mkNodePath c k (Some parent))
             (mkNodePath c k' (Some parent'))) by reflexivity.
  destruct (skipsAt (mkNodePath c k' (Some parent'))); [reflexivity|].
  now rewrite (Hcs c (or_introl eq_refl) (mkNodePath c k (Some parent))
                 (mkNodePath c k' (Some parent'))).
Qed.

(** What a traversal collects below a node, when what it collects at a
    path and where it skips depend on the node only, does not depend on
    where the node hangs. *)
Lemma reached_places (n : Node) :
  forall p q,
    flat_map F (flat_map (reached skipsAt) (childPaths n p)) =
    flat_map F (flat_map (reached skipsAt) (childPaths n q)).
Proof.
  induction n as [n IH] using subnodes_ind. intros p q.
  apply reached_places_list with (cs := subnodes n) (parent := p) (parent' := q);
    [assumption|apply childPaths_spec|apply childPaths_spec].
Qed.

End Places.

Lemma flat_map_markup (l : list NodePath) :
  flat_map (fun p => if markupAt p then [node p] else []) l =
  map node (filter markupAt l).
Proof.
  induction l as [|p l IH]; simpl; [reflexivity|].
  rewrite IH. now destruct (markupAt p).
Qed.

(** The roots below a path are those below its node. *)
Lemma topLevelMarkup_of_path (bodyPath : NodePath) :
  map node (topLevelPaths bodyPath) = topLevelMarkup (node bodyPath).
Proof.
  unfold topLevelMarkup, topLevelPaths. simpl node.
  rewrite <- !flat_map_markup. apply reached_places.
  - intros p q H. unfold markupAt. now rewrite H.
  - intros p q H. unfold markupAt. now rewrite H.
Qed.

(** The roots below a node, child by child: a child that is markup, or
    the roots below a child that is not. *)
Lemma topLevelMarkup_eq (n : Node) :
  topLevelMarkup n =
  flat_map (fun c => if isMarkup c then [c] else topLevelMarkup c) (subnodes n).
Proof.
  unfold topLevelMarkup at 1, topLevelPaths. simpl node.
  generalize (childPaths_spec n (rootPath n)).
  generalize (rootPath n) as parent.
  generalize (childPaths n (rootPath n)) as ts.
  generalize (subnodes n) as cs.
  intros cs0 ts0 parent H.
  induction H as [|t c ts cs [k ->] _ IH]; [reflexivity|].
  cbn [flat_map]. rewrite filter_app, map_app, IH. f_equal.
  unfold childPath. cbn [reached filter].
  replace (markupAt (mkNodePath c k (Some parent))) with (isMarkup c)
    by reflexivity.
  destruct (isMarkup c); [reflexivity|].
  apply (topLevelMarkup_of_path (mkNodePath c k (Some parent))).
Qed.

Lemma flat_map_of_map {A B C : Type} (f : A -> B) (g : B -> list C) (l : list A) :
  flat_map (fun a => g (f a)) l = flat_map g (map f l).
Proof.
  induction l as [|a l IH]; simpl; [reflexivity|]. now rewrite IH.
Qed.

Lemma findRender_node (methods : list Node) :
  forall classBody classBody' i j,
    option_map node (findRender classBody i methods) =
    option_map node (findRender classBody' j methods).
Proof.
  induction methods as [|m methods IH]; intros cb cb' i j; simpl; [reflexivity|].
  destruct m as [| | | | | | | | | | | | | | | | |l key ps body| | | | | | |];
    try apply IH.
  destruct key as [| |kl nm| | | | | | | | | | | | | | | | | | | | | |];
    try apply IH.
  destruct (String.eqb nm "render"); [reflexivity|apply IH].
Qed.

Lemma getFunctionBody_node (p q : NodePath) :
  node p = node q ->
  option_map node (getFunctionBody p) = option_map node (getFunctionBody q).
Proof.
  intros H. unfold getFunctionBody. rewrite H.
  destruct (node q)
    as [| | | | | | | | | | | | | |l id init|l id sup body| | | | | | | | |];
    try reflexivity.
  - destruct init as [init|]; [|reflexivity]. destruct init; reflexivity.
  - destruct body; try reflexivity. apply findRender_node.
Qed.

Lemma buildJSXTree_of_node (path : NodePath) (config : WorkspaceConfiguration)
    (maxDepth : Z) :
  buildJSXTree path config maxDepth =
  match option_map node (getFunctionBody path) with
  | Some body =>
      flat_map (rootSymbols (get (showFragments config) true) maxDepth)
        (topLevelMarkup body)
  | None => []
  end.
Proof.
  destruct (getFunctionBody path) as [bodyPath|] eqn:Hbody; simpl.
  - rewrite (buildJSXTree_roots path bodyPath) by assumption.
    now rewrite flat_map_of_map, topLevelMarkup_of_path.
  - unfold buildJSXTree. now rewrite Hbody.
Qed.

(** X15 -- the roots of the tree of a component are the markup elements
    and fragments below the scanned body that have no markup above them
    below the body, in source order, each of them once: for each,
    [addJSXSymbol] at depth 0, or the children of a fragment that is not
    shown.  The body itself is never one of them, markup nested in a
    function, an attribute or an expression inside the body is one as long
    as no markup encloses it, and the set [processedPaths] keeps nothing
    out. *)
Theorem markup_roots (path bodyPath : NodePath)
    (config : WorkspaceConfiguration) (maxDepth : Z) :
  getFunctionBody path = Some bodyPath ->
  buildJSXTree path config maxDepth =
  flat_map (rootSymbols (get (showFragments config) true) maxDepth)
    (topLevelMarkup (node bodyPath)).
Proof.
  intros Hbody. rewrite (buildJSXTree_roots path bodyPath) by assumption.
  now rewrite flat_map_of_map, topLevelMarkup_of_path.
Qed.

Lemma markup_roots_witness :
  buildJSXTree (statementPath (fn "A" [ret fragmentOfDiv])) (config 2 false) 2 =
  flat_map (rootSymbols false 2)
    (topLevelMarkup (BlockStatement None [ret fragmentOfDiv])).
Proof.
  apply (markup_roots (statementPath (fn "A" [ret fragmentOfDiv]))
           (getPath (statementPath (fn "A" [ret fragmentOfDiv])) 2
              (BlockStatement None [ret fragmentOfDiv]))
           (config 2 false) 2).
  reflexivity.
Defined.

Lemma buildJSXTree_node (p q : NodePath) (config : WorkspaceConfiguration)
    (maxDepth : Z) :
  node p = node q ->
  buildJSXTree p config maxDepth = buildJSXTree q config maxDepth.
Proof.
  intros H. now rewrite !buildJSXTree_of_node, (getFunctionBody_node p q H).
Qed.

Lemma hasJSXReturn_node (p q : NodePath) :
  node p = node q -> hasJSXReturn p = hasJSXReturn q.
Proof. intros H. now rewrite !hasJSXReturn_spec, H. Qed.

Lemma visitor_node (config : WorkspaceConfiguration) (p q : NodePath)
    (symbols : list DocumentSymbol) :
  node p = node q -> visitor config p symbols = visitor config q symbols.
Proof.
  intros H.
  assert (Hc : forall type,
             createComponentSymbol p type config =
             createComponentSymbol q type config).
  { intros type. unfold createComponentSymbol, getComponentName.
    now rewrite (buildJSXTree_node p q config _ H), H. }
  assert (Hh : createHookSymbol p = createHookSymbol q).
  { unfold createHookSymbol, getComponentName. now rewrite H. }
  unfold visitor, isFunctionComponent, isCustomHook, isClassComponent.
  rewrite !Hc, Hh, (hasJSXReturn_node p q H), H.
  destruct (node q)
    as [| | | | | | | | | | | | | |l id init| | | | | | | | | |];
    try reflexivity.
  destruct id; try reflexivity. destruct init as [init|]; [|reflexivity].
  now rewrite (hasJSXReturn_node (getPath p 1 init) (getPath q 1 init)).
Qed.

(** X16 -- what the visitor does at a path depends on the node there
    only, not on where the node hangs: the same declaration gives the same
    entry, with the same tree, at the top of a file or nested anywhere.
    The places the tree builder compares ([processedPaths], the walk up
    the parents in [isTopLevelJSX]) do not show in the result. *)
Theorem entry_wherever_declared (config : WorkspaceConfiguration)
    (p q : NodePath) (symbols : list DocumentSymbol) :
  node p = node q -> visitor config p symbols = visitor config q symbols.
Proof. apply visitor_node. Qed.

Lemma entry_wherever_declared_witness :
  visitor (config 2 true) (statementPath todoList) [] =
  visitor (config 2 true) (rootPath todoList) [].
Proof.
  apply (entry_wherever_declared (config 2 true) (statementPath todoList)
           (rootPath todoList) []).
  reflexivity.
Defined.

Lemma entryOf_visitor (config : WorkspaceConfiguration) (path : NodePath) :
  entryOf config path = fst (visitor config path [])
  /\ accepted path =
     match snd (visitor config path []) with Skip => true | _ => false end.
Proof.
  rewrite visitor_spec. simpl. split; [reflexivity|].
  now destruct (accepted path).
Qed.

Lemma entryOf_node (config : WorkspaceConfiguration) (p q : NodePath) :
  node p = node q -> entryOf config p = entryOf config q.
Proof.
  intros H. rewrite (proj1 (entryOf_visitor config p)).
  rewrite (proj1 (entryOf_visitor config q)).
  now rewrite (visitor_node config p q [] H).
Qed.

Lemma accepted_node (p q : NodePath) : node p = node q -> accepted p = accepted q.
Proof.
  intros H.
  rewrite (proj2 (entryOf_visitor (mkConfig None None None) p)).
  rewrite (proj2 (entryOf_visitor (mkConfig None None None) q)).
  now rewrite (visitor_node _ p q [] H).
Qed.

(** The result for a file is what the traversal collects over the paths
    of the statements of the program, wherever they hang. *)
Lemma getSymbolsFromDocument_program (config : WorkspaceConfiguration)
    (l l' : option SourceLocation) (body : list Node) (parent : NodePath)
    (ts : list PathTree) :
  Forall2 (pathTreeOf parent) ts body ->
  getSymbolsFromDocument (Some (File l (Program l' body))) config =
  flat_map (entryOf config) (flat_map (reached accepted) ts).
Proof.
  intros Hts. rewrite getSymbolsFromDocument_reached.
  cbn [childPaths flat_map reached]. rewrite app_nil_r.
  unfold accepted at 1, entryOf at 1, accepted at 1. cbn [node negb flat_map].
  cbn [app].
  apply reached_places_list
    with (cs := body)
         (parent := mkNodePath (Program l' body) (0%nat, 0%nat)
                      (Some (rootPath (File l (Program l' body)))))
         (parent' := parent).
  - apply entryOf_node.
  - apply accepted_node.
  - intros c _ p q. apply reached_places; [apply entryOf_node|apply accepted_node].
  - apply (pathsOfList_spec _ 0 body 0).
  - assumption.
Qed.

(** The result of the traversal, statement by statement. *)
Lemma getSymbolsFromDocument_by_statement (config : WorkspaceConfiguration)
    (l l' : option SourceLocation) (body : list Node) :
  getSymbolsFromDocument (Some (File l (Program l' body))) config =
  flat_map
    (fun statement =>
       getSymbolsFromDocument (Some (File l (Program l' [statement]))) config)
    body.
Proof.
  rewrite (getSymbolsFromDocument_program config l l' body
             (rootPath (Program l' body))
             (childPaths (Program l' body) (rootPath (Program l' body))))
    by apply (childPaths_spec (Program l' body)).
  pose proof (childPaths_spec (Program l' body) (rootPath (Program l' body)))
    as Hts.
  cbn [subnodes] in Hts.
  induction Hts as [|t c ts cs Ht _ IH]; [reflexivity|].
  cbn [flat_map]. rewrite flat_map_app, IH. f_equal.
  rewrite (getSymbolsFromDocument_program config l l' [c]
             (rootPath (Program l' body)) [t])
    by (constructor; [assumption|constructor]).
  cbn [flat_map]. now rewrite app_nil_r.
Qed.

(** X17 -- when the code returns a result for a file, and one for each of
    the top-level statements taken as a file of its own, the result for
    the file is the results for its statements, one after the other: no
    statement changes what another gives.  (Where Babel's crawl of the
    scopes throws, on the file or on a statement, there is no result to
    compare.) *)
Theorem statements_compose (crawls : Node -> bool)
    (config : WorkspaceConfiguration) (l l' : option SourceLocation)
    (body : list Node) (result : list DocumentSymbol) :
  getSymbolsFromDocumentOrThrow crawls (Some (File l (Program l' body))) config
  = Some result ->
  (forall statement,
      In statement body ->
      exists alone,
        getSymbolsFromDocumentOrThrow crawls
          (Some (File l (Program l' [statement]))) config = Some alone) ->
  result =
  flat_map
    (fun statement =>
       match
         getSymbolsFromDocumentOrThrow crawls
           (Some (File l (Program l' [statement]))) config
       with
       | Some alone => alone
       | None => []
       end)
    body.
Proof.
  intros Hresult Halone.
  apply getSymbolsFromDocumentOrThrow_returns in Hresult. subst result.
  rewrite getSymbolsFromDocument_by_statement.
  apply flat_map_ext_in. intros statement Hin.
  destruct (Halone statement Hin) as [alone Heq]. rewrite Heq.
  now apply getSymbolsFromDocumentOrThrow_returns in Heq.
Qed.

(** Two components in one file; the crawl throws on neither. *)
Lemma statements_compose_witness :
  getSymbolsFromDocument (Some (file [fn "A" [ret fragmentOfDiv]; todoList]))
    (config 2 true) =
  flat_map
    (fun statement =>
       match
         getSymbolsFromDocumentOrThrow (fun _ => true)
           (Some (File None (Program None [statement]))) (config 2 true)
       with
       | Some alone => alone
       | None => []
       end)
    [fn "A" [ret fragmentOfDiv]; todoList].
Proof.
  apply (statements_compose (fun _ => true) (config 2 true) None None
           [fn "A" [ret fragmentOfDiv]; todoList]).
  - reflexivity.
  - intros statement _. eexists. reflexivity.
Defined.

(** *** Every node of the markup tree is markup *)

Section BuilderMarkup.
Variables (M : Z) (sf : bool) (Good : Z -> DocumentSymbol -> Prop).
Variable Scope : Node -> Prop.
Hypothesis Scope_below :
  forall n m, Scope n -> In m (descendants n) -> Scope m.

Hypothesis Good_markup :
  forall n d kids,
    Scope n -> isMarkup n = true -> d < M -> Forall (Good (d + 1)) kids ->
    Good d
      (mkDocumentSymbol (getJSXTagName n) EmptyString (getJSXSymbolKind (getJSXTagName n))
         (astRangeToVsCodeRange (loc n)) (astRangeToVsCodeRange (loc n)) kids).

Lemma builder_markup (n : Node) :
  Scope n ->
  forall d parent,
    (isMarkup n = true -> Forall (Good d) (addJSXSymbol n d M sf))
    /\ Forall (Good d) (processFragmentChildren n d M sf)
    /\ Forall (Good d) (processJSXExpression n d M sf parent)
    /\ Forall (Good d) (traverseCallExpressionForJSX n d M sf parent).
Proof.
  induction n as [n IH0] using descendants_ind. intros Hscope d parent.
  assert (IH : forall m, In m (descendants n) ->
            forall d parent,
              (isMarkup m = true -> Forall (Good d) (addJSXSymbol m d M sf))
              /\ Forall (Good d) (processFragmentChildren m d M sf)
              /\ Forall (Good d) (processJSXExpression m d M sf parent)
              /\ Forall (Good d) (traverseCallExpressionForJSX m d M sf parent)).
  { intros m Hm. apply IH0; [assumption|]. now apply Scope_below with n. }
  clear IH0.
  assert (Hadd : forall x d parent, In x (descendants n) ->
                   Forall (Good d) (addIfMarkup x d M sf parent)).
  { intros x d' parent' Hx. unfold addIfMarkup.
    destruct (isMarkup x) eqn:Hmarkup; [|constructor].
    destruct (findExpressionPath _ _); [|constructor].
    now apply (IH x Hx d' parent'). }
  repeat split.
  - intros Hmarkup.
    rewrite addJSXSymbol_eq. destruct (d >=? M) eqn:E; [constructor|].
    constructor; [|constructor]. apply Good_markup; [assumption|assumption|lia|].
    apply Forall_flat_map, Forall_forall. intros c Hc.
    apply jsxChild_below in Hc. specialize (IH c Hc (d + 1)).
    unfold addJSXSymbol_child.
    destruct c; try constructor;
      try (destruct (findChildPath _ _); [|constructor]);
      try destruct (negb sf); apply (IH n); reflexivity.
  - rewrite processFragmentChildren_eq.
    apply Forall_flat_map, Forall_forall. intros c Hc.
    apply jsxChild_below in Hc. specialize (IH c Hc d).
    unfold processFragmentChildren_child.
    destruct c; try constructor;
      try (destruct (findChildPath _ _); [|constructor]);
      apply (IH n); reflexivity.
  - rewrite processJSXExpression_eq. destruct (d >=? M); [constructor|].
    destruct n as [| | | | | | | | | | | | | | | | | | | | |l e| | |];
      try constructor.
    destruct e; try constructor.
    + apply (IH (CallExpression loc0 e arguments)). subnode.
    + apply Hadd. apply expression_below. simpl. auto.
    + apply Forall_app. split; apply Hadd; apply expression_below; simpl; auto.
  - rewrite traverseCallExpressionForJSX_eq.
    destruct n as [| | | | |l callee args| | | | | | | | | | | | | | | | | | |];
      try constructor.
    apply Forall_flat_map, Forall_forall. intros arg Harg.
    assert (Hbody : forall b d parent, In b (descendants arg) ->
                      Forall (Good d) (addIfMarkup b d M sf parent)).
    { intros b d' parent' Hb. apply Hadd.
      now apply callbackBody_below with arg. }
    assert (Hblock : forall l2 sts, In (BlockStatement l2 sts) (subnodes arg) ->
              Forall (Good d)
                (flat_map (callbackStatement d M sf parent) sts)).
    { intros l2 sts Hsub. apply Forall_flat_map, Forall_forall. intros st Hst.
      unfold callbackStatement.
      destruct st as [| | | | | | | | | | |l3 [x|]| | | | | | | | | | | | |];
        try constructor.
      apply Hbody. apply descendants_trans with (BlockStatement l2 sts).
      - eapply returned_below. exact Hst.
      - now apply subnode_below. }
    unfold callArgument.
    destruct arg; try constructor;
      match goal with
      | b : Node |- _ =>
          destruct b; try constructor;
          first [ apply Hbody; subnode
                | eapply Hblock; simpl; rewrite ?in_app_iff; simpl; eauto ]
      end.
Qed.

End BuilderMarkup.

Lemma topLevelPaths_markup (bodyPath p : NodePath) :
  In p (topLevelPaths bodyPath) ->
  isMarkup (node p) = true /\ In (node p) (descendants (node bodyPath)).
Proof.
  unfold topLevelPaths. rewrite filter_In. intros [Hp Hm]. split; [assumption|].
  rewrite <- descendants_of_path. apply in_map.
  unfold descendantPaths. rewrite in_flat_map in *.
  destruct Hp as [t [Ht Hp]]. exists t. split; [assumption|].
  now apply reached_flatten with markupAt.
Qed.

(** X18 -- every symbol below an entry stands for a markup element or
    fragment of the file: its detail is empty, its name is the tag of that
    node ([getJSXTagName] is never asked for the tag of anything else, so
    its fallback "Unknown" is not used), its kind is the kind of that tag,
    and its range and selection range are the range of that node. *)
Theorem markup_symbols_well_formed (ast : Node) (config : WorkspaceConfiguration) :
  Forall
    (fun entry =>
       Forall (isMarkupSymbolOf ast) (flat_map symbolsOf (children entry)))
    (getSymbolsFromDocument (Some ast) config).
Proof.
  rewrite getSymbolsFromDocument_reached.
  apply Forall_flat_map, Forall_forall. intros path Hpath.
  apply reached_below in Hpath. unfold entryOf.
  destruct (negb (accepted path)); [constructor|].
  destruct (acceptedAsHook path).
  - destruct (get (showHooks config) true); repeat constructor.
  - constructor; [|constructor]. simpl children.
    apply Forall_flat_map.
    destruct (getFunctionBody path) as [bodyPath|] eqn:Hbody;
      [|unfold buildJSXTree; rewrite Hbody; constructor].
    rewrite (buildJSXTree_roots path bodyPath) by assumption.
    apply Forall_flat_map, Forall_forall. intros p Hp.
    apply topLevelPaths_markup in Hp. destruct Hp as [Hm Hp].
    assert (Hast : In (node p) (descendants ast)).
    { apply descendants_trans with (node bodyPath); [assumption|].
      apply descendants_trans with (node path); [|assumption].
      now apply getFunctionBody_below. }
    pose proof (builder_markup (get (maxJSXDepth config) 2)
                  (get (showFragments config) true)
                  (fun _ s => Forall (isMarkupSymbolOf ast) (symbolsOf s))
                  (fun n => In n (descendants ast))
                  (fun n m Hn Hm' => descendants_trans m n _ Hm' Hn)) as H.
    assert (Hnode : forall n d kids,
               In n (descendants ast) -> isMarkup n = true ->
               d < get (maxJSXDepth config) 2 ->
               Forall
                 (fun s => Forall (isMarkupSymbolOf ast) (symbolsOf s)) kids ->
               Forall (isMarkupSymbolOf ast)
                 (symbolsOf
                    (mkDocumentSymbol (getJSXTagName n) EmptyString
                       (getJSXSymbolKind (getJSXTagName n))
                       (astRangeToVsCodeRange (loc n))
                       (astRangeToVsCodeRange (loc n)) kids))).
    { intros n d kids Hn Hmk _ Hkids. simpl.
      constructor; [|now apply Forall_flat_map].
      repeat split. exists n. repeat split; assumption. }
    destruct (H Hnode (node p) Hast 0 (node p)) as [Hadd [Hfrag _]].
    unfold rootSymbols. destruct (_ && _)%bool; [assumption|now apply Hadd].
Qed.

End Extras.
